(** * metals-scanner: rate limiter, price cache, resilient fetcher,
      listing normaliser and scan orchestrator

    A shallow embedding of the core of the metals arbitrage scanner
    ([app/rate_limiter.py], [app/price_cache.py], [app/scrapers/base.py],
    [app/scrapers/ebay.py], [app/main.py], with [app/database.py],
    [app/price_api.py] and [app/schemas.py]) together with the properties
    its specification states about it and further properties of the code.

    Conventions of the embedding.
    - Python [float]s are idealised as exact rationals ([Q]); [round(x, n)]
      is round-half-to-even on the exact value.
    - Python [str]s are [string]s of ASCII characters.
    - A function that mutates objects or the database session and may raise
      is a function from a state to a [result] and the state it leaves
      behind; an exception keeps the mutations made before it was raised,
      as in Python.
    - Readings of the clock ([datetime.utcnow()], [time.time()]) are inputs
      of the operation that takes them. *)

From Stdlib Require Import ZArith QArith Qround String Ascii List Sorted Lia Lqa.
From stdpp Require Import base option list strings pretty gmap.

Local Open Scope string_scope.
Local Open Scope Z_scope.

(** ** Python values *)

Module Py.

(** The exceptions the core raises or intercepts.  All of them derive from
    [Exception]. *)
Inductive exn : Type :=
| APIRateLimitError (api_name : string) (limit : Z) (reset_at : string)
| APIConnectionError (api_name : string) (error : string) (retries : Z)
| ValueError (msg : string)
| OverflowError (msg : string)
| ZeroDivisionError (msg : string)
| HTTPError (status_code : Z) (text : string)
| Timeout (msg : string)
| ConnectionError (msg : string)
| TypeError (msg : string)
| ReError (msg : string)
| DatabaseError (msg : string)
| RuntimeError (msg : string).

Inductive result (A : Type) : Type :=
| Return (a : A)
| Raise (e : exn).
Arguments Return {A} a.
Arguments Raise {A} e.

(** Truthiness of an optional integer column: [None] and [0] are falsy. *)
Definition truthyZ (o : option Z) : bool :=
  match o with
  | Some n => negb (n =? 0)
  | None => false
  end.

(** Truthiness of an optional float: [None] and [0.0] are falsy. *)
Definition truthyQ (o : option Q) : bool :=
  match o with
  | Some x => negb (Qeq_bool x 0)
  | None => false
  end.

(** [int(x)] on a float: truncation towards zero. *)
Definition int_trunc (x : Q) : Z := Z.quot (Qnum x) (Zpos (Qden x)).

(** The integer nearest to [x], a tie going to the even one. *)
Definition round_half_even (x : Q) : Z :=
  let f := Qfloor x in
  let r := (x - inject_Z f)%Q in
  match (r ?= 1 # 2)%Q with
  | Lt => f
  | Gt => f + 1
  | Eq => if Z.even f then f else f + 1
  end.

(** [round(x, ndigits)]: the multiple of [10^-ndigits] nearest to [x],
    a tie going to the one with an even last digit. *)
Definition round (x : Q) (ndigits : nat) : Q :=
  let scale := 10 ^ Z.of_nat ndigits in
  (inject_Z (round_half_even (x * inject_Z scale)) / inject_Z scale)%Q.

(** [a or b] on optional integers. *)
Definition orZ (a b : option Z) : option Z :=
  if truthyZ a then a else b.

(** Stateful, fallible computations over a state [S]. *)
Definition M (S A : Type) : Type := S -> result A * S.

Definition ret {S A} (a : A) : M S A := fun s => (Return a, s).
Definition raise {S A} (e : exn) : M S A := fun s => (Raise e, s).
Definition bind {S A B} (c : M S A) (k : A -> M S B) : M S B :=
  fun s =>
    match c s with
    | (Return a, s') => k a s'
    | (Raise e, s') => (Raise e, s')
    end.
Definition get {S} : M S S := fun s => (Return s, s).
Definition put {S} (s : S) : M S unit := fun _ => (Return tt, s).
Definition modify {S} (f : S -> S) : M S unit := fun s => (Return tt, f s).

(** [try: c except Exception as e: h e] *)
Definition try_except {S A} (c : M S A) (h : exn -> M S A) : M S A :=
  fun s =>
    match c s with
    | (Return a, s') => (Return a, s')
    | (Raise e, s') => h e s'
    end.

(** Lift a pure fallible value. *)
Definition lift {S A} (r : result A) : M S A := fun s => (r, s).

End Py.

Export Py.

Declare Scope py_scope.
Delimit Scope py_scope with py.
Notation "x <- c ;; k" := (Py.bind c (fun x => k))
  (at level 100, c at next level, right associativity) : py_scope.
Notation "c ;;; k" := (Py.bind c (fun _ => k))
  (at level 100, right associativity) : py_scope.

(** ** [app/exceptions.py] *)

Module Exceptions.

(** [str(e)]: the message the exception was built with.  For the two
    exceptions of the scanner it is the one their constructors compose. *)
Definition str_exn (e : exn) : string :=
  match e with
  | APIRateLimitError api_name limit reset_at =>
      "Rate limit exceeded for " ++ api_name
      ++ " (limit: " ++ pretty limit ++ ")"
      ++ (match reset_at with
          | EmptyString => ""
          | _ => ". Resets at: " ++ reset_at
          end)
  | APIConnectionError api_name error retries =>
      "Failed to connect to " ++ api_name ++ ": " ++ error
      ++ (if 0 <? retries
          then " (after " ++ pretty retries ++ " retries)"
          else "")
  | ValueError m | OverflowError m | ZeroDivisionError m | Timeout m
  | ConnectionError m | TypeError m | ReError m | DatabaseError m
  | RuntimeError m => m
  | HTTPError status_code _ => pretty status_code ++ " Error"
  end.

End Exceptions.

Export Exceptions.

(** ** [datetime] *)

Module Datetime.

(** A naive [datetime.datetime]. *)
Record datetime : Type := mk {
  year : Z; month : Z; day : Z;
  hour : Z; minute : Z; second : Z; microsecond : Z
}.

Definition MINYEAR : Z := 1.
Definition MAXYEAR : Z := 9999.

Definition is_leap (y : Z) : bool :=
  (y mod 4 =? 0) && (negb (y mod 100 =? 0) || (y mod 400 =? 0)).

Definition days_in_month (y m : Z) : Z :=
  if m =? 2 then (if is_leap y then 29 else 28)
  else if (m =? 4) || (m =? 6) || (m =? 9) || (m =? 11) then 30
  else 31.

(** The checks the [datetime] constructor makes on its fields. *)
Definition valid (d : datetime) : bool :=
  (MINYEAR <=? year d) && (year d <=? MAXYEAR)
  && (1 <=? month d) && (month d <=? 12)
  && (1 <=? day d) && (day d <=? days_in_month (year d) (month d))
  && (0 <=? hour d) && (hour d <=? 23)
  && (0 <=? minute d) && (minute d <=? 59)
  && (0 <=? second d) && (second d <=? 59)
  && (0 <=? microsecond d) && (microsecond d <=? 999999).

(** [datetime(y, m, d, h, mi, s, us)]: raises [ValueError] on a field out
    of range.  [dt.replace(...)] builds its result through it. *)
Definition make (y m d h mi s us : Z) : result datetime :=
  let r := mk y m d h mi s us in
  if valid r then Return r else Raise (ValueError "field out of range").

(** [d.replace(hour=h, minute=mi, second=s, microsecond=us)] with
    in-range time fields: the date is kept and nothing can be raised. *)
Definition replace_time (d : datetime) (h mi s us : Z) : datetime :=
  mk (year d) (month d) (day d) h mi s us.

(** Comparison of naive datetimes: lexicographic on the fields. *)
Definition fields (d : datetime) : list Z :=
  [year d; month d; day d; hour d; minute d; second d; microsecond d].

Fixpoint lex (a b : list Z) : comparison :=
  match a, b with
  | x :: a', y :: b' =>
      match x ?= y with
      | Eq => lex a' b'
      | c => c
      end
  | [], [] => Eq
  | [], _ :: _ => Lt
  | _ :: _, [] => Gt
  end.

Definition compare (a b : datetime) : comparison := lex (fields a) (fields b).

Definition ltb (a b : datetime) : bool :=
  match compare a b with Lt => true | _ => false end.
Definition geb (a b : datetime) : bool :=
  match compare a b with Lt => false | _ => true end.

(** The day after a date; [OverflowError] past 9999-12-31. *)
Definition next_day (d : datetime) : result datetime :=
  if day d <? days_in_month (year d) (month d) then
    Return (mk (year d) (month d) (day d + 1)
               (hour d) (minute d) (second d) (microsecond d))
  else if month d <? 12 then
    Return (mk (year d) (month d + 1) 1
               (hour d) (minute d) (second d) (microsecond d))
  else if year d <? MAXYEAR then
    Return (mk (year d + 1) 1 1
               (hour d) (minute d) (second d) (microsecond d))
  else Raise (OverflowError "date value out of range").

(** [d + timedelta(days=n)] for a non-negative number of days. *)
Fixpoint plus_days (n : nat) (d : datetime) : result datetime :=
  match n with
  | O => Return d
  | S n' =>
      match next_day d with
      | Return d' => plus_days n' d'
      | Raise e => Raise e
      end
  end.

(** Proleptic Gregorian ordinal of a date (day 1 is 0001-01-01). *)
Definition days_before_year (y : Z) : Z :=
  let p := y - 1 in p * 365 + p / 4 - p / 100 + p / 400.

Definition days_before_month (y m : Z) : Z :=
  let table := [0; 31; 59; 90; 120; 151; 181; 212; 243; 273; 304; 334] in
  nth (Z.to_nat (m - 1)) table 0
  + (if (2 <? m) && is_leap y then 1 else 0).

Definition toordinal (d : datetime) : Z :=
  days_before_year (year d) + days_before_month (year d) (month d) + day d.

(** [d.weekday()]: Monday is 0, Sunday is 6. *)
Definition weekday (d : datetime) : Z := (toordinal d + 6) mod 7.

(** [(a - b)] in microseconds, the exact value of the [timedelta]. *)
Definition sub_micros (a b : datetime) : Z :=
  ((toordinal a - toordinal b) * 86400
   + ((hour a * 3600 + minute a * 60 + second a)
      - (hour b * 3600 + minute b * 60 + second b))) * 1000000
  + (microsecond a - microsecond b).

(** [(a - b).total_seconds()] *)
Definition total_seconds (a b : datetime) : Q :=
  inject_Z (sub_micros a b) / 1000000.

(** Decimal rendering on a fixed width, ["%0wd"] for a value that fits. *)
Definition digit (n : Z) : ascii := ascii_of_nat (48 + Z.to_nat (n mod 10)).

Fixpoint zfill (w : nat) (n : Z) : string :=
  match w with
  | O => ""
  | S w' => zfill w' (n / 10) ++ String (digit n) ""
  end.

(** [d.isoformat()] *)
Definition isoformat (d : datetime) : string :=
  zfill 4 (year d) ++ "-" ++ zfill 2 (month d) ++ "-" ++ zfill 2 (day d)
  ++ "T" ++ zfill 2 (hour d) ++ ":" ++ zfill 2 (minute d)
  ++ ":" ++ zfill 2 (second d)
  ++ (if microsecond d =? 0 then "" else "." ++ zfill 6 (microsecond d)).

(** The day before a date; [OverflowError] before 0001-01-01. *)
Definition prev_day (d : datetime) : result datetime :=
  if 1 <? day d then
    Return (mk (year d) (month d) (day d - 1)
               (hour d) (minute d) (second d) (microsecond d))
  else if 1 <? month d then
    Return (mk (year d) (month d - 1)
               (days_in_month (year d) (month d - 1))
               (hour d) (minute d) (second d) (microsecond d))
  else if MINYEAR <? year d then
    Return (mk (year d - 1) 12 31
               (hour d) (minute d) (second d) (microsecond d))
  else Raise (OverflowError "date value out of range").

(** [d - timedelta(days=n)] for a non-negative number of days. *)
Fixpoint minus_days (n : nat) (d : datetime) : result datetime :=
  match n with
  | O => Return d
  | S n' =>
      match prev_day d with
      | Return d' => minus_days n' d'
      | Raise e => Raise e
      end
  end.

(** The time of day in microseconds since midnight. *)
Definition micros_of_day (d : datetime) : Z :=
  (hour d * 3600 + minute d * 60 + second d) * 1000000 + microsecond d.

End Datetime.

Export Datetime.

(** ** [app/rate_limiter.py] *)

Module RateLimiter.

Local Open Scope py_scope.

(** A row of [rate_limit_tracker] ([app/database.py]).  The two counters
    carry their column default [0]. *)
Record RateLimitTracker : Type := mkTracker {
  api_name : string;
  daily_limit : option Z;
  monthly_limit : option Z;
  daily_calls_used : Z;
  monthly_calls_used : Z;
  reset_at : datetime;
  last_call_at : option datetime
}.

Definition set_daily_calls_used (n : Z) (t : RateLimitTracker) :=
  mkTracker (api_name t) (daily_limit t) (monthly_limit t)
            n (monthly_calls_used t) (reset_at t) (last_call_at t).
Definition set_monthly_calls_used (n : Z) (t : RateLimitTracker) :=
  mkTracker (api_name t) (daily_limit t) (monthly_limit t)
            (daily_calls_used t) n (reset_at t) (last_call_at t).
Definition set_reset_at (r : datetime) (t : RateLimitTracker) :=
  mkTracker (api_name t) (daily_limit t) (monthly_limit t)
            (daily_calls_used t) (monthly_calls_used t) r (last_call_at t).
Definition set_last_call_at (c : option datetime) (t : RateLimitTracker) :=
  mkTracker (api_name t) (daily_limit t) (monthly_limit t)
            (daily_calls_used t) (monthly_calls_used t) (reset_at t) c.

(** The session [db] the caller passes: the rows as committed, and the
    rows as the session sees them (its loaded objects with their pending
    changes).  [api_name] is unique, so the table is a map. *)
Record Session : Type := mkSession {
  persisted : gmap string RateLimitTracker;
  working : gmap string RateLimitTracker
}.

Definition commit (s : Session) : Session :=
  mkSession (working s) (working s).
Definition rollback (s : Session) : Session :=
  mkSession (persisted s) (persisted s).

(** The [RateLimiter] object with the session it is called on, and the
    calls it made to [time.sleep] (oldest first). *)
Record State : Type := mkState {
  db : Session;
  last_call_time : gmap string Q;
  sleeps : list Q
}.

(** What the clock shows when an operation runs.  [check_and_increment]
    reads [time.time()] twice: in the burst protection, when a last call
    is recorded, and again, after the sleep if there is one, for the time
    it records. *)
Record Clock : Type := mkClock {
  utcnow : datetime;   (* datetime.utcnow() *)
  time : Q;            (* time.time() in the burst protection *)
  time_after : Q       (* time.time() when the call is recorded *)
}.

(** [_reset_tracker(tracker, now)], on the tracker object. *)
Definition _reset_tracker (now : datetime) : M RateLimitTracker unit :=
  tracker <- get ;;
  if truthyZ (daily_limit tracker) then
    modify (set_daily_calls_used 0) ;;;
    r <- lift (plus_days 1 (replace_time now 0 0 0 (microsecond now))) ;;
    modify (set_reset_at r)
  else if truthyZ (monthly_limit tracker) then
    modify (set_monthly_calls_used 0) ;;;
    r <- lift (if month now =? 12
               then make (year now + 1) 1 1 0 0 0 (microsecond now)
               else make (year now) (month now + 1) 1
                         0 0 0 (microsecond now)) ;;
    modify (set_reset_at r)
  else ret tt.

(** The rollover check and the quota decision of [check_and_increment]
    (its lines up to the burst protection), on the tracker object. *)
Definition check_quota (api : string) (now : datetime)
  : M RateLimitTracker unit :=
  tracker <- get ;;
  (if geb now (reset_at tracker) then _reset_tracker now else ret tt) ;;;
  tracker <- get ;;
  if truthyZ (daily_limit tracker) then
    let limit := default 0 (daily_limit tracker) in
    if daily_calls_used tracker >=? limit then
      raise (APIRateLimitError api limit (isoformat (reset_at tracker)))
    else modify (set_daily_calls_used (daily_calls_used tracker + 1))
  else if truthyZ (monthly_limit tracker) then
    let limit := default 0 (monthly_limit tracker) in
    if monthly_calls_used tracker >=? limit then
      raise (APIRateLimitError api limit (isoformat (reset_at tracker)))
    else modify (set_monthly_calls_used (monthly_calls_used tracker + 1))
  else ret tt.

(** Run a computation on the tracker object of [api] that the session
    holds; its mutations are the session's pending changes. *)
Definition on_tracker {A} (api : string) (tracker : RateLimitTracker)
    (c : M RateLimitTracker A) : M State A :=
  fun st =>
    let '(r, tracker') := c tracker in
    (r, mkState (mkSession (persisted (db st))
                           (<[api := tracker']> (working (db st))))
                (last_call_time st) (sleeps st)).

(** Burst protection: the time to sleep, if any, given the reading [t] of
    [time.time()] and the last call recorded for the provider. *)
Definition burst_sleep (last_call : option Q) (t : Q) : option Q :=
  if truthyQ last_call then
    match last_call with
    | Some lc =>
        let elapsed := (t - lc)%Q in
        if negb (Qle_bool (2 # 10) elapsed) then Some ((2 # 10) - elapsed)%Q
        else None
    | None => None
    end
  else None.

(** [check_and_increment(api_name, db)] with a session supplied, as every
    caller in the repository does. *)
Definition check_and_increment (clk : Clock) (api : string) : M State bool :=
  st <- get ;;
  match working (db st) !! api with
  | None => ret true
  | Some tracker =>
      try_except
        (let now := utcnow clk in
         on_tracker api tracker (check_quota api now) ;;;
         st <- get ;;
         let slept := burst_sleep (last_call_time st !! api) (time clk) in
         let t' := time_after clk in
         let tracker' := match working (db st) !! api with
                         | Some t => t
                         | None => tracker
                         end in
         put (mkState
                (commit (mkSession
                           (persisted (db st))
                           (<[api := set_last_call_at (Some now) tracker']>
                              (working (db st)))))
                (<[api := t']> (last_call_time st))
                (match slept with
                 | Some d => sleeps st ++ [d]
                 | None => sleeps st
                 end)) ;;;
         ret true)
        (fun e =>
           match e with
           | APIRateLimitError _ _ _ => raise e
           | _ =>
               modify (fun st => mkState (rollback (db st))
                                         (last_call_time st) (sleeps st)) ;;;
               raise e
           end)
  end.

(** The dictionary [get_status] returns. *)
Record Status : Type := mkStatus {
  st_api_name : string;
  st_limit : Z;
  st_calls_used : Z;
  st_calls_remaining : Z;
  st_percentage_used : Q;
  st_reset_at : datetime;
  st_last_call_at : option datetime
}.

(** [a or b] on two counters. *)
Definition or_int (a b : Z) : Z := if a =? 0 then b else a.

(** [get_status(api_name, db)] with a session supplied.  A tracker with
    no limit makes [limit - calls_used] a [TypeError], one with the
    limit 0 makes the percentage a [ZeroDivisionError]. *)
Definition get_status (clk : Clock) (api : string)
  : M State (option Status) :=
  st <- get ;;
  match working (db st) !! api with
  | None => ret None
  | Some tracker =>
      let now := utcnow clk in
      (if geb now (reset_at tracker) then
         on_tracker api tracker (_reset_tracker now) ;;;
         modify (fun st => mkState (commit (db st))
                                   (last_call_time st) (sleeps st))
       else ret tt) ;;;
      st <- get ;;
      let tracker := match working (db st) !! api with
                     | Some t => t
                     | None => tracker
                     end in
      let calls_used := or_int (daily_calls_used tracker)
                               (monthly_calls_used tracker) in
      match orZ (daily_limit tracker) (monthly_limit tracker) with
      | None => raise (TypeError "unsupported operand type(s) for -")
      | Some limit =>
          if limit =? 0 then raise (ZeroDivisionError "division by zero")
          else
            ret (Some (mkStatus api limit calls_used (limit - calls_used)
                                (round ((inject_Z calls_used
                                         / inject_Z limit) * 100) 2)
                                (reset_at tracker) (last_call_at tracker)))
      end
  end.

(** The counter the provider's limit is checked against. *)
Definition calls_used (api : string) (st : State) : option Z :=
  match working (db st) !! api with
  | Some tracker =>
      Some (if truthyZ (daily_limit tracker) then daily_calls_used tracker
            else monthly_calls_used tracker)
  | None => None
  end.

(** A sequence of calls for one provider, one clock reading per call. *)
Fixpoint calls (clks : list Clock) (api : string) (st : State)
  : list (result bool) * State :=
  match clks with
  | [] => ([], st)
  | clk :: rest =>
      let '(r, st') := check_and_increment clk api st in
      let '(rs, st'') := calls rest api st' in
      (r :: rs, st'')
  end.

(** *** Vocabulary for the properties of the limiter *)

(** The limit a tracker is checked against, if it has one, and the
    counter that goes with it. *)
Definition active_limit (t : RateLimitTracker) : option Z :=
  if truthyZ (daily_limit t) then daily_limit t
  else if truthyZ (monthly_limit t) then monthly_limit t
  else None.

Definition active_used (t : RateLimitTracker) : Z :=
  if truthyZ (daily_limit t) then daily_calls_used t
  else monthly_calls_used t.

(** The clock can be rolled over from: a well-formed reading before the
    last year a [datetime] can hold. *)
Definition rollable (now : datetime) : Prop :=
  valid now = true /\ year now < MAXYEAR.

(** The counter that goes with the limit the tracker does not use. *)
Definition inactive_used (t : RateLimitTracker) : Z :=
  if truthyZ (daily_limit t) then monthly_calls_used t
  else daily_calls_used t.

End RateLimiter.

(** ** [app/database.py]: [init_db] *)

Module Database.

Import RateLimiter.
Local Open Scope py_scope.

(** The two limits of [settings]. *)
Record Settings : Type := mkSettings {
  EBAY_DAILY_LIMIT : Z;
  METALS_API_MONTHLY_LIMIT : Z
}.

(** What the run meets: what the statements on the engine raise, if
    anything (the journal-mode pragma, [create_all]), the two readings of
    [datetime.utcnow()], and what [db.commit()] raises, if anything. *)
Record Run : Type := mkRun {
  engine_error : option exn;
  utcnow_ebay : datetime;
  utcnow_metals : datetime;
  commit_error : option exn
}.

(** [RateLimitTracker(api_name="ebay", daily_limit=..., daily_calls_used=0,
      reset_at=utcnow().replace(hour=0, minute=0, second=0))] *)
Definition new_ebay_tracker (settings : Settings) (now : datetime)
  : RateLimitTracker :=
  mkTracker "ebay" (Some (EBAY_DAILY_LIMIT settings)) None 0 0
            (replace_time now 0 0 0 (microsecond now)) None.

(** [RateLimitTracker(api_name="metals-api", monthly_limit=...,
      monthly_calls_used=0,
      reset_at=utcnow().replace(day=1, hour=0, minute=0, second=0))] *)
Definition new_metals_tracker (settings : Settings) (now : datetime)
  : RateLimitTracker :=
  mkTracker "metals-api" None (Some (METALS_API_MONTHLY_LIMIT settings)) 0 0
            (Datetime.mk (year now) (month now) 1 0 0 0 (microsecond now))
            None.

(** [init_db()], on the committed rows of [rate_limit_tracker]: a tracker
    is added for each of the two providers that has none, in a session of
    its own; whatever is raised is raised again. *)
Definition init_db (settings : Settings) (run : Run)
  : M (gmap string RateLimitTracker) unit :=
  match engine_error run with
  | Some e => raise e
  | None =>
      rows <- get ;;
      let rows :=
        match rows !! "ebay" with
        | Some _ => rows
        | None =>
            <["ebay" := new_ebay_tracker settings (utcnow_ebay run)]> rows
        end in
      let rows :=
        match rows !! "metals-api" with
        | Some _ => rows
        | None =>
            <["metals-api" :=
                new_metals_tracker settings (utcnow_metals run)]> rows
        end in
      match commit_error run with
      | Some e => raise e
      | None => put rows
      end
  end.

(** The limiter, new, on a session that has loaded the committed rows. *)
Definition fresh_limiter (rows : gmap string RateLimitTracker) : State :=
  mkState (mkSession rows rows) ∅ [].

End Database.

(** ** [app/price_cache.py] *)

Module PriceCache.

Local Open Scope py_scope.

(** A row of [spot_prices]. *)
Record SpotPrice : Type := mkSpotPrice {
  metal_type : string;
  price_per_oz : Q;
  fetched_at : datetime
}.

(** The three cache durations of [settings], in minutes. *)
Record Settings : Type := mkSettings {
  CACHE_MARKET_HOURS : Z;
  CACHE_OFF_HOURS : Z;
  CACHE_WEEKEND : Z
}.

(** What the clock shows while one operation runs: the UTC time and the
    US/Eastern local time at the lookup (the local time is read twice in
    a row, by [get_cache_duration_minutes] and by [is_market_hours]; one
    reading stands for both), and the UTC time once the fetch function
    has returned. *)
Record Clock : Type := mkClock {
  utcnow : datetime;         (* datetime.utcnow() in get_cached_price *)
  now_et : datetime;         (* datetime.now(self.eastern) *)
  utcnow_after : datetime    (* datetime.utcnow() after the fetch *)
}.

(** The dictionary [get_cached_price] returns. *)
Record Cached : Type := mkCached {
  c_price_per_oz : Q;
  c_fetched_at : datetime;
  c_age_minutes : Z;
  c_is_stale : bool
}.

(** The dictionary [get_or_fetch_price] returns; [fallback] is the
    presence of the key of that name. *)
Record Price : Type := mkPrice {
  p_price_per_oz : Q;
  p_fetched_at : datetime;
  p_age_minutes : Z;
  p_is_stale : bool;
  from_cache : bool;
  fallback : bool
}.

Section WithEnvironment.

(** Whatever else the fetch function works on (quota rows, the network). *)
Context {Env : Type}.
Variable settings : Settings.

(** The session: the committed [spot_prices] rows in insertion order,
    what [db.commit()] raises on an insert if the store is failing, and
    the rest of the world. *)
Record Store : Type := mkStore {
  spot_prices : list SpotPrice;
  commit_error : option exn;
  env : Env
}.

(** The store together with the list of symbols the fetch function was
    invoked on (oldest first). *)
Record State : Type := mkState {
  store : Store;
  fetch_log : list string
}.

(** [is_market_hours()]: Monday to Friday, 9:30 to 16:00 local time. *)
Definition is_market_hours (clk : Clock) : bool :=
  let now_et := now_et clk in
  if weekday now_et >=? 5 then false
  else
    let market_open := replace_time now_et 9 30 0 0 in
    let market_close := replace_time now_et 16 0 0 0 in
    geb now_et market_open && geb market_close now_et.

(** [get_cache_duration_minutes()] *)
Definition get_cache_duration_minutes (clk : Clock) : Z :=
  if weekday (now_et clk) >=? 5 then CACHE_WEEKEND settings
  else if is_market_hours clk then CACHE_MARKET_HOURS settings
  else CACHE_OFF_HOURS settings.

(** [query(SpotPrice).filter(metal_type == m)
      .order_by(desc(fetched_at)).first()]; among rows fetched at the
    same instant the earliest inserted is taken. *)
Fixpoint latest_of (m : string) (rows : list SpotPrice)
    (best : option SpotPrice) : option SpotPrice :=
  match rows with
  | [] => best
  | row :: rest =>
      if String.eqb (metal_type row) m then
        match best with
        | Some b =>
            if ltb (fetched_at b) (fetched_at row)
            then latest_of m rest (Some row)
            else latest_of m rest best
        | None => latest_of m rest (Some row)
        end
      else latest_of m rest best
  end.

Definition latest_price (m : string) (st : Store) : option SpotPrice :=
  latest_of m (spot_prices st) None.

(** [int((now - fetched_at).total_seconds() / 60)] *)
Definition age_minutes (clk : Clock) (row : SpotPrice) : Z :=
  int_trunc (total_seconds (utcnow clk) (fetched_at row) / 60).

(** [get_cached_price(metal_type, db)], with a session supplied as in
  every call the repository makes. *)
Definition get_cached_price (clk : Clock) (m : string)
  : M State (option Cached) :=
  st <- get ;;
  match latest_price m (store st) with
  | None => ret None
  | Some latest =>
      let age := age_minutes clk latest in
      let cache_duration := get_cache_duration_minutes clk in
      let is_stale := age >=? cache_duration in
      ret (Some (mkCached (price_per_oz latest) (fetched_at latest)
                          age is_stale))
  end.

(** [should_fetch_fresh(metal_type, db)] *)
Definition should_fetch_fresh (clk : Clock) (m : string) : M State bool :=
  cached <- get_cached_price clk m ;;
  match cached with
  | None => ret true
  | Some c => ret (c_is_stale c)
  end.

(** [store_price(metal_type, price_per_oz, db)]: the row is added and
    committed; a failing commit is rolled back and re-raised. *)
Definition store_price (clk : Clock) (m : string) (price : Q)
  : M State unit :=
  st <- get ;;
  match commit_error (store st) with
  | Some e => raise e
  | None =>
      put (mkState
             (mkStore (spot_prices (store st)
                         ++ [mkSpotPrice m price (utcnow_after clk)])
                      (commit_error (store st)) (env (store st)))
             (fetch_log st))
  end.

(** The call [fetch_func(metal_type)]: the function runs on the store
    and the invocation is recorded. *)
Definition call_fetch (fetch_func : string -> M Store Q) (m : string)
  : M State Q :=
  fun st =>
    let '(r, sto) := fetch_func m (store st) in
    (r, mkState sto (fetch_log st ++ [m])).

(** [cached and not cached["is_stale"]] *)
Definition valid_cache (cached : option Cached) : option Cached :=
  match cached with
  | Some c => if c_is_stale c then None else Some c
  | None => None
  end.

(** [get_or_fetch_price(metal_type, fetch_func, db)] *)
Definition get_or_fetch_price (clk : Clock) (m : string)
    (fetch_func : string -> M Store Q) : M State Price :=
  cached <- get_cached_price clk m ;;
  match valid_cache cached with
  | Some c =>
      ret (mkPrice (c_price_per_oz c) (c_fetched_at c) (c_age_minutes c)
                   (c_is_stale c) true false)
  | None =>
      try_except
        (fresh_price <- call_fetch fetch_func m ;;
         store_price clk m fresh_price ;;;
         ret (mkPrice fresh_price (utcnow_after clk) 0 false false false))
        (fun e =>
           match cached with
           | Some c =>
               ret (mkPrice (c_price_per_oz c) (c_fetched_at c)
                            (c_age_minutes c) (c_is_stale c) true true)
           | None => raise e
           end)
  end.

(** [utcnow() - timedelta(days=days_to_keep)] *)
Definition cutoff_of (now : datetime) (days_to_keep : Z)
  : result datetime :=
  if 0 <=? days_to_keep then minus_days (Z.to_nat days_to_keep) now
  else plus_days (Z.to_nat (- days_to_keep)) now.

(** [SpotPrice.fetched_at < cutoff] *)
Definition older_than (cutoff : datetime) (row : SpotPrice) : bool :=
  ltb (fetched_at row) cutoff.

(** [cleanup_old_prices(days_to_keep, db)] with a session supplied: the
    rows fetched before the cutoff are deleted and their number is
    returned; with a failing commit nothing is deleted. *)
Definition cleanup_old_prices (clk : Clock) (days_to_keep : Z)
  : M State Z :=
  cutoff <- lift (cutoff_of (utcnow clk) days_to_keep) ;;
  st <- get ;;
  let rows := spot_prices (store st) in
  let kept := List.filter (fun row => negb (older_than cutoff row)) rows in
  let deleted := Z.of_nat (length rows) - Z.of_nat (length kept) in
  match commit_error (store st) with
  | Some e => raise e
  | None =>
      put (mkState (mkStore kept (commit_error (store st))
                            (env (store st)))
                   (fetch_log st)) ;;;
      ret deleted
  end.

(** *** Vocabulary for the properties of the cache *)

(** A price, if it was fetched at or after the cutoff. *)
Definition if_recent (cutoff : datetime) (o : option SpotPrice)
  : option SpotPrice :=
  match o with
  | Some row => if older_than cutoff row then None else Some row
  | None => None
  end.

(** A price, if there is one, was fetched before [t]. *)
Definition fetched_before (t : datetime) (o : option SpotPrice) : Prop :=
  match o with
  | Some row => ltb (fetched_at row) t = true
  | None => True
  end.

End WithEnvironment.

End PriceCache.

(** ** Regular expressions ([re]) *)

Module Re.

Local Open Scope char_scope.
Local Open Scope nat_scope.

(** The fragment of the pattern language the scraper's patterns use. *)
Inductive regex : Type :=
| Eps
| Chr (c : ascii)
| Digit                        (* \d *)
| Space                        (* \s *)
| Seq (r1 r2 : regex)
| Alt (r1 r2 : regex)          (* r1|r2 *)
| Opt (r : regex)              (* r? *)
| Star (r : regex)             (* r* *)
| Group (n : nat) (r : regex). (* (r), the n-th capturing group *)

Definition is_digit (c : ascii) : bool :=
  let n := nat_of_ascii c in (48 <=? n) && (n <=? 57).

Definition is_space (c : ascii) : bool :=
  let n := nat_of_ascii c in
  ((9 <=? n) && (n <=? 13)) || ((28 <=? n) && (n <=? 32)).

(** *** Parsing a pattern *)

Definition quantified (r : regex) (p : list ascii) : regex * list ascii :=
  match p with
  | "?" :: p' => (Opt r, p')
  | "*" :: p' => (Star r, p')
  | "+" :: p' => (Seq r (Star r), p')
  | _ => (r, p)
  end.

(** [parse_alt], [parse_seq] and [parse_atom] read an alternation, a
    concatenation and one atom off the front of the pattern; [g] is the
    number of capturing groups opened so far. *)
Fixpoint parse_alt (fuel : nat) (p : list ascii) (g : nat)
  : option (regex * list ascii * nat) :=
  match fuel with
  | O => None
  | S f =>
      match parse_seq f p g with
      | Some (a, "|" :: p1, g1) =>
          match parse_alt f p1 g1 with
          | Some (b, p2, g2) => Some (Alt a b, p2, g2)
          | None => None
          end
      | other => other
      end
  end
with parse_seq (fuel : nat) (p : list ascii) (g : nat)
  : option (regex * list ascii * nat) :=
  match fuel with
  | O => None
  | S f =>
      match p with
      | [] => Some (Eps, p, g)
      | ")" :: _ => Some (Eps, p, g)
      | "|" :: _ => Some (Eps, p, g)
      | _ =>
          match parse_atom f p g with
          | Some (a, p1, g1) =>
              let '(a', p2) := quantified a p1 in
              match parse_seq f p2 g1 with
              | Some (Eps, p3, g3) => Some (a', p3, g3)
              | Some (rest, p3, g3) => Some (Seq a' rest, p3, g3)
              | None => None
              end
          | None => None
          end
      end
  end
with parse_atom (fuel : nat) (p : list ascii) (g : nat)
  : option (regex * list ascii * nat) :=
  match fuel with
  | O => None
  | S f =>
      match p with
      | "(" :: "?" :: ":" :: p' =>
          match parse_alt f p' g with
          | Some (r, ")" :: p'', g') => Some (r, p'', g')
          | _ => None
          end
      | "(" :: p' =>
          match parse_alt f p' (S g) with
          | Some (r, ")" :: p'', g') => Some (Group (S g) r, p'', g')
          | _ => None
          end
      | "\" :: "d" :: p' => Some (Digit, p', g)
      | "\" :: "s" :: p' => Some (Space, p', g)
      | "\" :: c :: p' => Some (Chr c, p', g)
      | "?" :: _ => None
      | "*" :: _ => None
      | "+" :: _ => None
      | c :: p' => Some (Chr c, p', g)
      | [] => None
      end
  end.

(** [re.compile(pattern)]: the expression and its number of groups. *)
Definition compile (pattern : string) : option (regex * nat) :=
  let p := list_ascii_of_string pattern in
  match parse_alt (3 * length p + 3) p 0 with
  | Some (r, [], g) => Some (r, g)
  | _ => None
  end.

(** *** Matching *)

(** The text each group matched last. *)
Definition captures : Type := list (nat * list ascii).

Fixpoint capture (n : nat) (caps : captures) : option (list ascii) :=
  match caps with
  | [] => None
  | (i, t) :: rest => if i =? n then Some t else capture n rest
  end.

(** A backtracking matcher in continuation-passing style: [k] is what has
    to match after [r].  Alternatives are tried left to right and
    quantifiers are greedy, as in [re]. *)
Fixpoint matches {R : Type} (r : regex) (s : list ascii) (caps : captures)
    (k : list ascii -> captures -> option R) {struct r} : option R :=
  match r with
  | Eps => k s caps
  | Chr c =>
      match s with
      | x :: s' => if Ascii.eqb x c then k s' caps else None
      | [] => None
      end
  | Digit =>
      match s with
      | x :: s' => if is_digit x then k s' caps else None
      | [] => None
      end
  | Space =>
      match s with
      | x :: s' => if is_space x then k s' caps else None
      | [] => None
      end
  | Seq r1 r2 =>
      matches r1 s caps (fun s' caps' => matches r2 s' caps' k)
  | Alt r1 r2 =>
      match matches r1 s caps k with
      | Some x => Some x
      | None => matches r2 s caps k
      end
  | Opt r1 =>
      match matches r1 s caps k with
      | Some x => Some x
      | None => k s caps
      end
  | Star r1 =>
      (fix star (fuel : nat) (s : list ascii) (caps : captures)
           {struct fuel} : option R :=
         match fuel with
         | O => k s caps
         | S f =>
             match matches r1 s caps
                     (fun s' caps' =>
                        if length s' <? length s then star f s' caps'
                        else None) with
             | Some x => Some x
             | None => k s caps
             end
         end) (S (length s)) s caps
  | Group n r1 =>
      matches r1 s caps
        (fun s' caps' =>
           k s' ((n, firstn (length s - length s') s) :: caps'))
  end.

(** A match object: the groups that took part, and the number of groups
    of the pattern. *)
Record Match : Type := mkMatch {
  caps : captures;
  ngroups : nat
}.

Fixpoint search_from (r : regex) (s : list ascii) : option captures :=
  match matches r s [] (fun _ caps => Some caps) with
  | Some c => Some c
  | None =>
      match s with
      | [] => None
      | _ :: s' => search_from r s'
      end
  end.

(** [re.search(pattern, text)]: the leftmost match.  [Raise] stands for a
    pattern that does not compile. *)
Definition search (pattern text : string) : result (option Match) :=
  match compile pattern with
  | Some (r, g) =>
      Return (match search_from r (list_ascii_of_string text) with
              | Some c => Some (mkMatch c g)
              | None => None
              end)
  | None => Raise (ReError "bad pattern")
  end.

(** [m.group(n)]: [None] for a group that did not take part. *)
Definition group (m : Match) (n : nat) : option string :=
  match capture n (caps m) with
  | Some t => Some (string_of_list_ascii t)
  | None => None
  end.


(** *** The language of an expression *)




End Re.

(** ** [str] and [float] helpers *)

Module Str.

Definition lower_char (c : ascii) : ascii :=
  let n := nat_of_ascii c in
  if ((65 <=? n) && (n <=? 90))%nat then ascii_of_nat (n + 32) else c.

Definition upper_char (c : ascii) : ascii :=
  let n := nat_of_ascii c in
  if ((97 <=? n) && (n <=? 122))%nat then ascii_of_nat (n - 32) else c.

Fixpoint map_chars (f : ascii -> ascii) (s : string) : string :=
  match s with
  | EmptyString => EmptyString
  | String c s' => String (f c) (map_chars f s')
  end.

(** [s.lower()] and [s.upper()] *)
Definition lower (s : string) : string := map_chars lower_char s.
Definition upper (s : string) : string := map_chars upper_char s.

(** [sub in s] *)
Fixpoint contains (sub s : string) : bool :=
  if String.prefix sub s then true
  else match s with
       | EmptyString => false
       | String _ s' => contains sub s'
       end.

(** [s[:n]] *)
Definition take (n : nat) (s : string) : string := String.substring 0 n s.

(** Truthiness of an optional string: [None] and [""] are falsy. *)
Definition truthy (o : option string) : bool :=
  match o with
  | Some EmptyString => false
  | Some _ => true
  | None => false
  end.

(** The value of a run of decimal digits, most significant first; [None]
    if another character occurs. *)
Fixpoint digits_value (acc : Z) (s : list ascii) : option Z :=
  match s with
  | [] => Some acc
  | c :: s' =>
      if Re.is_digit c
      then digits_value (10 * acc + Z.of_nat (nat_of_ascii c - 48)) s'
      else None
  end.

(** The text before and after the first ["."], if there is one. *)
Fixpoint split_point (s : list ascii) : list ascii * option (list ascii) :=
  match s with
  | [] => ([], None)
  | c :: s' =>
      if Ascii.eqb c "."%char then ([], Some s')
      else let '(a, b) := split_point s' in (c :: a, b)
  end.

(** [float(s)] for a plain decimal numeral: digits with an optional
    fractional part.  Anything else is a [ValueError]. *)
Definition float (s : string) : result Q :=
  let '(ip, fp) := split_point (list_ascii_of_string s) in
  let fp := match fp with Some f => f | None => [] end in
  match (ip ++ fp)%list, digits_value 0 ip, digits_value 0 fp with
  | _ :: _, Some i, Some f =>
      Return (inject_Z i
              + inject_Z f / inject_Z (10 ^ Z.of_nat (length fp)))%Q
  | _, _, _ => Raise (ValueError "could not convert string to float")
  end.

End Str.

(** ** [app/scrapers/ebay.py] *)

Module Ebay.

(** Weight extraction patterns (priority order), each with the factor
    that converts its unit to troy ounces. *)
Definition WEIGHT_PATTERNS : list (string * Q) :=
  [ ("(\d+(?:\.\d+)?)\s*(?:troy\s*)?(?:oz|ounce)(?:s)?", 1%Q);
    ("(\d+)/(\d+)\s*(?:troy\s*)?(?:oz|ounce)(?:s)?", 1%Q);
    ("(\d+(?:\.\d+)?)\s*g(?:ram)?(?:s)?", (321507 # 10000000)%Q) ].

(** [float(match.group(n))]; [float(None)] is a [TypeError]. *)
Definition float_group (m : Re.Match) (n : nat) : result Q :=
  match Re.group m n with
  | Some s => Str.float s
  | None => Raise (TypeError "float() argument must be a string")
  end.

(** The weight one match stands for, before validation. *)
Definition match_weight (pattern : string) (conversion_factor : Q)
    (m : Re.Match) : result Q :=
  if (Re.ngroups m =? 2)%nat && Str.contains "/" pattern then
    match float_group m 1 with
    | Return numerator =>
        match float_group m 2 with
        | Return denominator =>
            if Qeq_bool denominator 0
            then Raise (ZeroDivisionError "float division by zero")
            else Return ((numerator / denominator) * conversion_factor)%Q
        | Raise e => Raise e
        end
    | Raise e => Raise e
    end
  else
    match float_group m 1 with
    | Return x => Return (x * conversion_factor)%Q
    | Raise e => Raise e
    end.

(** [weight <= 0 or weight > 1000] *)
Definition out_of_range (weight : Q) : bool :=
  Qle_bool weight 0 || negb (Qle_bool weight 1000).

(** The loop of [_extract_weight] over the patterns that are left. *)
Fixpoint extract_from (patterns : list (string * Q)) (title_lower : string)
  : result (option Q * bool) :=
  match patterns with
  | [] => Return (None, true)
  | (pattern, conversion_factor) :: rest =>
      match Re.search pattern title_lower with
      | Raise e => Raise e
      | Return None => extract_from rest title_lower
      | Return (Some m) =>
          match match_weight pattern conversion_factor m with
          | Return weight =>
              if out_of_range weight then extract_from rest title_lower
              else Return (Some (round weight 4), false)
          | Raise (ValueError _) => extract_from rest title_lower
          | Raise (ZeroDivisionError _) => extract_from rest title_lower
          | Raise e => Raise e
          end
      end
  end.

(** [_extract_weight(title)]: [(weight_oz, extraction_failed)] *)
Definition _extract_weight (title : string) : result (option Q * bool) :=
  extract_from WEIGHT_PATTERNS (Str.lower title).

(** [_determine_metal_type(keyword, title)] *)
Definition _determine_metal_type (keyword title : string) : string :=
  let keyword_lower := Str.lower keyword in
  let title_lower := Str.lower title in
  if Str.contains "gold" keyword_lower || Str.contains "gold" title_lower
  then "gold"
  else if Str.contains "silver" keyword_lower
          || Str.contains "silver" title_lower
  then "silver"
  else if Str.contains "gold" keyword_lower then "gold" else "silver".

(** An item of the Finding API's response.  The API delivers every field
    as a one-element list of strings; a field is [None] when its key is
    missing.  [currentPrice] is the ["__value__"] of the current price. *)
Record Item : Type := mkItem {
  itemId : option string;
  item_title : option string;
  currentPrice : option string;
  viewItemURL : option string
}.

(** The standardised listing dictionary. *)
Record Listing : Type := mkListing {
  source : string;
  external_id : string;
  title : string;
  price : Q;
  metal_type : string;
  weight_oz : option Q;
  weight_extraction_failed : bool;
  url : string
}.

(** [_parse_item(item, keyword)]: [None] for an item that is skipped, be
    it for a missing field or for an exception while parsing. *)
Definition _parse_item (item : Item) (keyword : string) : option Listing :=
  let price := match currentPrice item with
               | Some v => Str.float v
               | None => Return 0%Q
               end in
  match price with
  | Raise _ => None
  | Return price =>
      match itemId item, item_title item, viewItemURL item with
      | Some item_id, Some title, Some url =>
          if Str.truthy (Some item_id) && Str.truthy (Some title)
             && negb (Qeq_bool price 0) && Str.truthy (Some url)
          then
            let metal_type := _determine_metal_type keyword title in
            match _extract_weight title with
            | Return (weight_oz, extraction_failed) =>
                Some (mkListing "ebay" item_id title price metal_type
                                weight_oz extraction_failed url)
            | Raise _ => None
            end
          else None
      | _, _, _ => None
      end
  end.

(** [d[k] = v] on a dictionary kept in insertion order: a key that is
    there keeps its place and takes the new value. *)
Fixpoint dict_set (k : string) (v : Listing) (d : list (string * Listing))
  : list (string * Listing) :=
  match d with
  | [] => [(k, v)]
  | (k', v') :: rest =>
      if String.eqb k' k then (k', v) :: rest
      else (k', v') :: dict_set k v rest
  end.

(** The deduplication at the end of [scrape]:
    [list({l['external_id']: l for l in all_listings}.values())]. *)
Definition dedup (all_listings : list Listing) : list Listing :=
  map snd (fold_left (fun d l => dict_set (external_id l) l d)
                     all_listings []).

(** [extract_weight_from_title(title)] *)
Definition extract_weight_from_title (title : string) : result (option Q) :=
  match _extract_weight title with
  | Return (weight_oz, _) => Return weight_oz
  | Raise e => Raise e
  end.


(** *** Vocabulary for the properties of the normaliser *)


End Ebay.

(** ** [app/scrapers/base.py] *)

Module BaseScraper.

Local Open Scope py_scope.

(** A row of [api_call_logs] ([called_at], the time of insertion, is left
    out). *)
Record APICallLog : Type := mkLog {
  log_api_name : string;
  log_endpoint : string;
  log_status_code : option Z;
  log_success : bool;
  log_error_message : option string;
  log_response_time_ms : option Z
}.

(** [requests.Response] *)
Record Response : Type := mkResponse {
  status_code : Z;
  text : string
}.

(** What one call of [requests.get] or [requests.post] comes to. *)
Inductive Outcome : Type :=
| Responded (r : Response)
| TimedOut
| ConnectionFailed (msg : string)
| Failed (e : exn).

(** The scraper object's fields. *)
Record Scraper : Type := mkScraper {
  api_name : string;
  base_url : string;
  timeout : Z;
  retry_attempts : Z
}.

(** The world of a request: what the coming HTTP calls come to and how
    long each takes (in seconds), the reading of [time.time()], the audit
    table with whether its session still accepts inserts, and the calls
    made to [time.sleep] (oldest first). *)
Record State : Type := mkState {
  network : list (Outcome * Q);
  clock : Q;
  api_call_logs : list APICallLog;
  audit_store_ok : bool;
  sleeps : list Q
}.

(** [_log_api_call(...)]: a failure to write the record is swallowed. *)
Definition _log_api_call (self : Scraper) (endpoint : string)
    (status_code : option Z) (success : bool)
    (error_message : option string) (response_time_ms : option Z)
  : M State unit :=
  modify (fun st =>
    if audit_store_ok st then
      mkState (network st) (clock st)
              (api_call_logs st
                 ++ [mkLog (api_name self) endpoint status_code success
                           error_message response_time_ms])
              (audit_store_ok st) (sleeps st)
    else st).

(** [time.sleep(d)] *)
Definition sleep (d : Q) : M State unit :=
  modify (fun st =>
    mkState (network st) (clock st + d)%Q (api_call_logs st)
            (audit_store_ok st) (sleeps st ++ [d])).

(** [requests.get(url, ...)] / [requests.post(url, ...)]: the next
    outcome of the network; a network with nothing left to say is
    unreachable. *)
Definition http_call : M State Response :=
  st <- get ;;
  match network st with
  | [] => raise (ConnectionError "unreachable")
  | (o, d) :: rest =>
      put (mkState rest (clock st + d)%Q (api_call_logs st)
                   (audit_store_ok st) (sleeps st)) ;;;
      match o with
      | Responded r => ret r
      | TimedOut => raise (Timeout "timed out")
      | ConnectionFailed msg => raise (ConnectionError msg)
      | Failed e => raise e
      end
  end.

(** [response.raise_for_status()] *)
Definition raise_for_status (r : Response) : M State unit :=
  if (400 <=? status_code r) && (status_code r <? 600)
  then raise (HTTPError (status_code r) (text r))
  else ret tt.

(** [int((time.time() - start_time) * 1000)] *)
Definition elapsed_ms (start_time : Q) : M State Z :=
  st <- get ;;
  ret (int_trunc ((clock st - start_time) * 1000)).

(** How one pass through the loop body ends. *)
Inductive Step : Type :=
| Done (r : Response)              (* return response *)
| Again (last_error : string).     (* fall through to the backoff *)

(** The [try] statement of the loop body. *)
Definition attempt_once (self : Scraper) (endpoint method : string)
    (start_time : Q) (attempt : Z) : M State Step :=
  try_except
    (response <-
       (if String.eqb (Str.upper method) "GET" then http_call
        else if String.eqb (Str.upper method) "POST" then http_call
        else raise (ValueError ("Unsupported HTTP method: " ++ method))) ;;
     response_time_ms <- elapsed_ms start_time ;;
     _log_api_call self endpoint (Some (status_code response))
                   (status_code response <? 400) None
                   (Some response_time_ms) ;;;
     raise_for_status response ;;;
     ret (Done response))
    (fun e =>
       match e with
       | Timeout _ =>
           ret (Again ("Timeout after " ++ pretty (timeout self) ++ "s"))
       | ConnectionError msg => ret (Again ("Connection error: " ++ msg))
       | HTTPError code body =>
           let last_error :=
             "HTTP " ++ pretty code ++ ": " ++ Str.take 200 body in
           if (400 <=? code) && (code <? 500) then
             response_time_ms <- elapsed_ms start_time ;;
             _log_api_call self endpoint (Some code) false (Some last_error)
                           (Some response_time_ms) ;;;
             raise (APIConnectionError (api_name self) last_error attempt)
           else ret (Again last_error)
       | _ => ret (Again (str_exn e))
       end).

(** The [for attempt in range(self.retry_attempts)] loop with what
    follows it; [n] passes are left, the next one is number [attempt]. *)
Fixpoint attempts (self : Scraper) (endpoint method : string)
    (start_time : Q) (n : nat) (attempt : Z) (last_error : option string)
  : M State Response :=
  match n with
  | O =>
      response_time_ms <- elapsed_ms start_time ;;
      _log_api_call self endpoint None false last_error
                    (Some response_time_ms) ;;;
      raise (APIConnectionError
               (api_name self)
               (if Str.truthy last_error then default "" last_error
                else "Unknown error")
               (retry_attempts self))
  | S n' =>
      step <- attempt_once self endpoint method start_time attempt ;;
      match step with
      | Done response => ret response
      | Again last_error' =>
          (if attempt <? retry_attempts self - 1
           then sleep (inject_Z (2 ^ attempt))
           else ret tt) ;;;
          attempts self endpoint method start_time n' (attempt + 1)
                   (Some last_error')
      end
  end.

(** [make_request(endpoint, params, method)] *)
Definition make_request (self : Scraper) (endpoint method : string)
  : M State Response :=
  st <- get ;;
  let start_time := clock st in
  attempts self endpoint method start_time
           (Z.to_nat (retry_attempts self)) 0 None.

(** *** Vocabulary for the properties of [make_request] *)

(** The method is one the scraper supports. *)
Definition supported (method : string) : Prop :=
  Str.upper method = "GET" \/ Str.upper method = "POST".

(** The record written for a response, before its status is looked at. *)
Definition response_log (self : Scraper) (endpoint : string)
    (r : Response) (ms : Z) : APICallLog :=
  mkLog (api_name self) endpoint (Some (status_code r))
        (status_code r <? 400) None (Some ms).

(** The text of the error for a response with an error status. *)
Definition http_error_text (r : Response) : string :=
  "HTTP " ++ pretty (status_code r) ++ ": " ++ Str.take 200 (text r).

(** The record written when a client error ends the request. *)
Definition client_error_log (self : Scraper) (endpoint : string)
    (r : Response) (ms : Z) : APICallLog :=
  mkLog (api_name self) endpoint (Some (status_code r)) false
        (Some (http_error_text r)) (Some ms).

(** The state once the next outcome of the network, a response, has been
    received and its record written. *)
Definition received (self : Scraper) (endpoint : string) (st : State)
    (r : Response) (d : Q) (rest : list (Outcome * Q)) (start_time : Q)
  : State :=
  mkState rest (clock st + d)%Q
          (api_call_logs st
             ++ [response_log self endpoint r
                   (int_trunc ((clock st + d - start_time) * 1000))])
          true (sleeps st).

(** The state after the backoff that follows a failed pass. *)
Definition backed_off (st : State) (d : Q) : State :=
  mkState (network st) (clock st + d)%Q (api_call_logs st)
          (audit_store_ok st) (sleeps st ++ [d]).


(** An outcome after which the request is tried again: a timeout, a
    failed connection, or a response with a server error status. *)
Definition transient (o : Outcome) : bool :=
  match o with
  | Responded r => (500 <=? status_code r) && (status_code r <? 600)
  | TimedOut | ConnectionFailed _ => true
  | Failed _ => false
  end.

(** The error text kept after a transient outcome. *)
Definition error_text (self : Scraper) (o : Outcome) : string :=
  match o with
  | Responded r => http_error_text r
  | TimedOut => "Timeout after " ++ pretty (timeout self) ++ "s"
  | ConnectionFailed msg => "Connection error: " ++ msg
  | Failed e => str_exn e
  end.

(** The responses among the outcomes. *)
Definition responses (os : list (Outcome * Q)) : list Response :=
  omap (fun od => match fst od with
                  | Responded r => Some r
                  | _ => None
                  end) os.

(** What an audit record says, its response time apart. *)
Definition log_content (l : APICallLog)
  : string * string * option Z * bool * option string :=
  (log_api_name l, log_endpoint l, log_status_code l, log_success l,
   log_error_message l).

(** The delays [2 ** attempt] for [count] attempts from [first] on. *)
Definition backoff_delays (first count : nat) : list Q :=
  map (fun k => inject_Z (2 ^ Z.of_nat k)) (seq first count).

(** The state with the audit table accepting inserts or not. *)
Definition with_audit_store (ok : bool) (st : State) : State :=
  mkState (network st) (clock st) (api_call_logs st) ok (sleeps st).

End BaseScraper.

(** ** [app/main.py] *)

Module Main.

Import Ebay.
Local Open Scope py_scope.

(** [calculate_spread(listing_price, weight_oz, spot_price)] *)
Definition calculate_spread (listing_price : Q) (weight_oz : option Q)
    (spot_price : Q) : option Q :=
  if negb (truthyQ weight_oz) || Qle_bool (default 0%Q weight_oz) 0 then None
  else
    let spot_value := (default 0%Q weight_oz * spot_price)%Q in
    if Qle_bool spot_value 0 then None
    else
      let spread_pct := (((spot_value - listing_price) / spot_value) * 100)%Q in
      Some (round spread_pct 2).

(** A row of [listings]. *)
Record ListingRow : Type := mkRow {
  data : Listing;                  (* the columns the scraper fills *)
  fetched_at : datetime;
  spread_percentage : option Q
}.

(** [existing.price = p] *)
Definition set_price (p : Q) (l : Listing) : Listing :=
  mkListing (source l) (external_id l) (title l) p (metal_type l)
            (weight_oz l) (weight_extraction_failed l) (url l).

(** The session on [listings]: the rows as committed and as the session
    sees them, by [external_id] (a unique column). *)
Record Session : Type := mkSession {
  persisted : gmap string ListingRow;
  working : gmap string ListingRow
}.

(** The session with what each coming [db.commit()] raises, if anything
    (commits beyond the end of the list go through). *)
Record World : Type := mkWorld {
  db : Session;
  commits : list (option exn)
}.

(** The local variables of [perform_scan]. *)
Record Locals : Type := mkLocals {
  errors : list string;
  listings_found : Z;
  deals_found : Z
}.

Record State : Type := mkState {
  world : World;
  locals : Locals
}.

(** The clock readings of one scan. *)
Record Clock : Type := mkClock {
  start_time : datetime;
  utcnow : datetime;      (* while the listings are processed *)
  end_time : datetime
}.

(** The dictionary [perform_scan] returns. *)
Record ScanResult : Type := mkResult {
  success : bool;
  r_listings_found : Z;
  r_deals_found : Z;
  r_errors : list string;
  started_at : datetime;
  completed_at : datetime;
  duration_seconds : Q
}.

(** [db.commit()] *)
Definition commit : M State unit :=
  st <- get ;;
  let w := world st in
  match commits w with
  | Some e :: rest => put (mkState (mkWorld (db w) rest) (locals st)) ;;; raise e
  | None :: rest =>
      put (mkState (mkWorld (mkSession (working (db w)) (working (db w))) rest)
                   (locals st))
  | [] =>
      put (mkState (mkWorld (mkSession (working (db w)) (working (db w))) [])
                   (locals st))
  end.

(** [db.rollback()] *)
Definition rollback : M State unit :=
  modify (fun st =>
    let w := world st in
    mkState (mkWorld (mkSession (persisted (db w)) (persisted (db w)))
                     (commits w))
            (locals st)).

(** [errors.append(msg)] *)
Definition errors_append (msg : string) : M State unit :=
  modify (fun st =>
    let l := locals st in
    mkState (world st)
            (mkLocals (errors l ++ [msg]) (listings_found l) (deals_found l))).

Definition set_listings_found (n : Z) : M State unit :=
  modify (fun st =>
    let l := locals st in
    mkState (world st) (mkLocals (errors l) n (deals_found l))).

Definition incr_deals_found : M State unit :=
  modify (fun st =>
    let l := locals st in
    mkState (world st)
            (mkLocals (errors l) (listings_found l) (deals_found l + 1))).

(** Write the session's object for [external_id]. *)
Definition set_row (id : string) (row : ListingRow) : M State unit :=
  modify (fun st =>
    let w := world st in
    mkState (mkWorld (mkSession (persisted (db w))
                                (<[id := row]> (working (db w))))
                     (commits w))
            (locals st)).

(** [spread and spread > 0] *)
Definition is_deal (spread : option Q) : bool :=
  match spread with
  | Some s => negb (Qeq_bool s 0) && negb (Qle_bool s 0)
  | None => false
  end.

(** The spread a scan computes for a listing, if it computes one. *)
Definition listing_spread (spot_prices : gmap string Q)
    (listing_data : Listing) : option (option Q) :=
  let weight_oz := weight_oz listing_data in
  let spot := spot_prices !! metal_type listing_data in
  if truthyQ weight_oz && truthyQ spot
  then Some (calculate_spread (price listing_data) weight_oz
                              (default 0%Q spot))
  else None.

(** The spread a listing has after the scan looked at it: undefined when
    none was computed or the computation gave none. *)
Definition spread_pct (spot_prices : gmap string Q)
    (listing_data : Listing) : option Q :=
  match listing_spread spot_prices listing_data with
  | Some spread => spread
  | None => None
  end.

(** Whether the scan counts the listing in [deals_found]. *)
Definition counts_as_deal (spot_prices : gmap string Q)
    (listing_data : Listing) : bool :=
  match listing_spread spot_prices listing_data with
  | Some spread => is_deal spread
  | None => false
  end.

(** The [try] block of the loop body of [perform_scan]. *)
Definition upsert_listing (clk : Clock) (spot_prices : gmap string Q)
    (listing_data : Listing) : M State unit :=
  st <- get ;;
  let id := external_id listing_data in
  let existing :=
    match working (db (world st)) !! id with
    | Some existing =>
        mkRow (set_price (price listing_data) (data existing)) (utcnow clk)
              (spread_percentage existing)
    | None => mkRow listing_data (utcnow clk) None
    end in
  set_row id existing ;;;
  match listing_spread spot_prices listing_data with
  | Some spread =>
      set_row id (mkRow (data existing) (fetched_at existing) spread) ;;;
      (if is_deal spread then incr_deals_found else ret tt)
  | None => ret tt
  end ;;;
  commit.

(** One pass through the loop body, with its [except Exception]. *)
Definition process_listing (clk : Clock) (spot_prices : gmap string Q)
    (listing_data : Listing) : M State unit :=
  try_except
    (upsert_listing clk spot_prices listing_data)
    (fun e =>
       errors_append ("Listing processing error: " ++ str_exn e) ;;;
       rollback).

(** [for listing_data in listings: ...] *)
Fixpoint process_listings (clk : Clock) (spot_prices : gmap string Q)
    (listings : list Listing) : M State unit :=
  match listings with
  | [] => ret tt
  | listing_data :: rest =>
      process_listing clk spot_prices listing_data ;;;
      process_listings clk spot_prices rest
  end.

(** *** Vocabulary for the properties of [perform_scan] *)

(** The entry a missing spot price leaves in the error list. *)
Definition spot_errors (spot_prices : gmap string Q) : list string :=
  if negb (truthyQ (spot_prices !! "gold"))
     || negb (truthyQ (spot_prices !! "silver"))
  then ["Failed to fetch spot prices"]
  else [].

(** The entries failing commits leave in the error list. *)
Fixpoint commit_errors (cs : list (option exn)) : list string :=
  match cs with
  | [] => []
  | Some e :: rest =>
      ("Listing processing error: " ++ str_exn e)
        :: commit_errors rest
  | None :: rest => commit_errors rest
  end.

(** The [i]-th of the coming commits goes through. *)
Definition commit_succeeds (cs : list (option exn)) (i : nat) : Prop :=
  forall e, cs !! i <> Some (Some e).

(** The spread a row has once a pass over the listing is committed: the
    one computed in the pass if there is one, else the one the row had. *)
Definition spread_after (spot_prices : gmap string Q)
    (listing_data : Listing) (before : option ListingRow) : option Q :=
  match listing_spread spot_prices listing_data with
  | Some spread => spread
  | None =>
      match before with
      | Some existing => spread_percentage existing
      | None => None
      end
  end.

(** The number of listings the scan counts as deals. *)
Definition count_deals (spot_prices : gmap string Q)
    (listings : list Listing) : Z :=
  Z.of_nat (length (List.filter (counts_as_deal spot_prices) listings)).

Section PerformScan.

(** The two collaborators of a scan, working on the session:
    [metals_api_client.get_spot_prices(db)], whose dictionary maps a
    metal to its price when it has one, and [EbayScraper().scrape(...)]. *)
Variable get_spot_prices : M World (gmap string Q).
Variable scrape : M World (list Listing).

Definition on_world {A} (c : M World A) : M State A :=
  fun st =>
    let '(r, w) := c (world st) in (r, mkState w (locals st)).

(** [perform_scan(db, search_terms, max_results)] *)
Definition perform_scan (clk : Clock) (w : World) : ScanResult * World :=
  let body : M State unit :=
    try_except
      (spot_prices <- on_world get_spot_prices ;;
       (if negb (truthyQ (spot_prices !! "gold"))
           || negb (truthyQ (spot_prices !! "silver"))
        then errors_append "Failed to fetch spot prices"
        else ret tt) ;;;
       listings <- on_world scrape ;;
       set_listings_found (Z.of_nat (length listings)) ;;;
       process_listings clk spot_prices listings)
      (fun e =>
         match e with
         | APIRateLimitError _ _ _ =>
             errors_append ("Rate limit exceeded: " ++ str_exn e)
         | APIConnectionError _ _ _ =>
             errors_append ("API connection failed: "
                            ++ str_exn e)
         | _ => errors_append ("Unexpected error: " ++ str_exn e)
         end) in
  let '(_, st) := body (mkState w (mkLocals [] 0 0)) in
  let l := locals st in
  (mkResult (match errors l with [] => true | _ => false end)
            (listings_found l) (deals_found l) (errors l)
            (start_time clk) (end_time clk)
            (round (total_seconds (end_time clk) (start_time clk)) 2),
   world st).

End PerformScan.


(** *** The deals endpoint *)

(** [Listing.spread_percentage >= threshold]; a row without a spread
    does not pass a comparison. *)
Definition spread_at_least (threshold : Q) (row : ListingRow) : bool :=
  match spread_percentage row with
  | Some s => Qle_bool threshold s
  | None => false
  end.

(** [Listing.weight_oz.isnot(None)] *)
Definition has_weight (row : ListingRow) : bool :=
  match weight_oz (data row) with
  | Some _ => true
  | None => false
  end.

(** [Listing.weight_oz >= min_weight] *)
Definition weight_at_least (min_weight : Q) (row : ListingRow) : bool :=
  match weight_oz (data row) with
  | Some w => Qle_bool min_weight w
  | None => false
  end.

(** The metal the query is narrowed to:
    [if metal_type and metal_type.lower() != 'all'], then
    [metal_type.lower()]. *)
Definition wanted_metal (metal_type : option string) : option string :=
  match metal_type with
  | Some m =>
      if Str.truthy (Some m) && negb (String.eqb (Str.lower m) "all")
      then Some (Str.lower m)
      else None
  | None => None
  end.

(** The weight the query is narrowed to: [if min_weight]. *)
Definition wanted_weight (min_weight : option Q) : option Q :=
  if truthyQ min_weight then min_weight else None.

(** [order_by(desc(Listing.spread_percentage))] on rows that have a
    spread, as an insertion sort; rows of equal spread stay in the order
    of the table (the database leaves that order open). *)
Definition spread_key (row : ListingRow) : Q :=
  default 0%Q (spread_percentage row).

Fixpoint insert_desc (row : ListingRow) (sorted : list ListingRow)
  : list ListingRow :=
  match sorted with
  | [] => [row]
  | r :: rest =>
      if Qle_bool (spread_key r) (spread_key row) then row :: r :: rest
      else r :: insert_desc row rest
  end.

Definition order_by_spread_desc (rows : list ListingRow)
  : list ListingRow :=
  fold_right insert_desc [] rows.

(** [get_deals(threshold, metal_type, min_weight, max_results, db)] on
    the rows of [listings]; [max_results] has been checked to lie
    between 1 and 1000 before the function runs. *)
Definition get_deals (threshold : Q) (metal_type : option string)
    (min_weight : option Q) (max_results : Z) (rows : list ListingRow)
  : list ListingRow :=
  let query :=
    List.filter (fun row => spread_at_least threshold row && has_weight row)
                rows in
  let query :=
    match wanted_metal metal_type with
    | Some m =>
        List.filter (fun row => String.eqb (Ebay.metal_type (data row)) m)
                    query
    | None => query
    end in
  let query :=
    match wanted_weight min_weight with
    | Some w => List.filter (weight_at_least w) query
    | None => query
    end in
  take (Z.to_nat max_results) (order_by_spread_desc query).

(** A row passes the filters of the query. *)
Definition qualifies (threshold : Q) (metal_type : option string)
    (min_weight : option Q) (row : ListingRow) : Prop :=
  (exists s, spread_percentage row = Some s /\ (threshold <= s)%Q)
  /\ (exists w, weight_oz (data row) = Some w
                /\ forall m, wanted_weight min_weight = Some m
                             -> (m <= w)%Q)
  /\ (forall m, wanted_metal metal_type = Some m
                -> Ebay.metal_type (data row) = m).


(** [a] is listed before [b]: its spread is not the smaller one. *)
Definition ranks_before (a b : ListingRow) : Prop :=
  (spread_key b <= spread_key a)%Q.

End Main.

(** ** [app/price_api.py] *)

Module PriceApi.

Local Open Scope py_scope.

(** The decoded body of a response of the metals API, as far as the
    client reads it: [data.get('success', False)],
    [data.get('error', {}).get('info', 'Unknown error')] and
    [data.get('rates', {})]. *)
Record Body : Type := mkBody {
  success : bool;
  error_info : string;
  rates : gmap string Q
}.

(** [requests.Response] *)
Record Response : Type := mkResponse {
  status_code : Z;
  reason : string;
  url : string;
  json : Body
}.

(** What one call of [requests.get] comes to; a failure carries the text
    of its exception. *)
Inductive Outcome : Type :=
| Responded (r : Response)
| TimedOut (msg : string)
| ConnectionFailed (msg : string).

(** The limiter with its session, and what the coming HTTP calls come
    to. *)
Record Env : Type := mkEnv {
  limiter : RateLimiter.State;
  network : list Outcome
}.

Definition on_limiter {A} (c : M RateLimiter.State A) : M Env A :=
  fun env =>
    let '(r, l) := c (limiter env) in (r, mkEnv l (network env)).

(** The dictionary [get_spot_prices] returns. *)
Record Prices : Type := mkPrices {
  gold : option Q;
  silver : option Q
}.

(** The clock readings of one call of [get_spot_prices]. *)
Record Clocks : Type := mkClocks {
  cache_gold : PriceCache.Clock;
  limiter_gold : RateLimiter.Clock;
  cache_silver : PriceCache.Clock;
  limiter_silver : RateLimiter.Clock
}.

(** [raise APIConnectionError('metals-api', msg)] *)
Definition connection_error {A} (msg : string) : M Env A :=
  raise (APIConnectionError "metals-api" msg 0).

Section Client.

Variable settings : PriceCache.Settings.

(** The text Python prints for a float. *)
Variable repr_float : Q -> string.

(** [_fetch_price(symbol, db)].  An exception of [requests] (a
    timeout, a failed connection, the [HTTPError] of
    [raise_for_status]) is turned into an [APIConnectionError] with
    its text. *)
Definition _fetch_price (clk : RateLimiter.Clock) (symbol : string)
  : M Env Q :=
  on_limiter (RateLimiter.check_and_increment clk "metals-api") ;;;
  env <- get ;;
  match network env with
  | [] => connection_error "unreachable"
  | o :: rest =>
      put (mkEnv (limiter env) rest) ;;;
      match o with
      | TimedOut msg => connection_error msg
      | ConnectionFailed msg => connection_error msg
      | Responded response =>
          let status := status_code response in
          if (400 <=? status) && (status <? 500) then
            connection_error
              (pretty status ++ " Client Error: " ++ reason response
               ++ " for url: " ++ url response)
          else if (500 <=? status) && (status <? 600) then
            connection_error
              (pretty status ++ " Server Error: " ++ reason response
               ++ " for url: " ++ url response)
          else
            let data := json response in
            if negb (success data) then
              connection_error (error_info data)
            else
              let rate := rates data !! symbol in
              match rate with
              | None =>
                  connection_error
                    ("Invalid rate for " ++ symbol ++ ": None")
              | Some x =>
                  if negb (truthyQ rate) || Qle_bool x 0 then
                    connection_error
                      ("Invalid rate for " ++ symbol ++ ": "
                       ++ repr_float x)
                  else ret (1 / x)%Q
              end
      end
  end.

(** [lambda _: self._fetch_price(symbol, db)] as the fetch function of
    the price cache. *)
Definition fetch_func (clk : RateLimiter.Clock) (symbol : string)
  : string -> M (@PriceCache.Store Env) Q :=
  fun _ store =>
    let '(r, env) := _fetch_price clk symbol (PriceCache.env store) in
    (r, PriceCache.mkStore (PriceCache.spot_prices store)
                           (PriceCache.commit_error store) env).

(** One of the two [try] statements of [get_spot_prices]. *)
Definition price_or_none (cache_clk : PriceCache.Clock)
    (limiter_clk : RateLimiter.Clock) (metal_type symbol : string)
  : M (@PriceCache.State Env) (option Q) :=
  try_except
    (result <- PriceCache.get_or_fetch_price
                 settings cache_clk metal_type
                 (fetch_func limiter_clk symbol) ;;
     ret (Some (PriceCache.p_price_per_oz result)))
    (fun _ => ret None).

(** [get_spot_prices(db)] *)
Definition get_spot_prices (clks : Clocks)
  : M (@PriceCache.State Env) Prices :=
  gold_price <- price_or_none (cache_gold clks) (limiter_gold clks)
                              "gold" "XAU" ;;
  silver_price <- price_or_none (cache_silver clks) (limiter_silver clks)
                                "silver" "XAG" ;;
  ret (mkPrices gold_price silver_price).

End Client.

End PriceApi.

(** ** [app/scrapers/ebay.py]: [scrape] *)

Module EbayScraper.

Import Ebay.
Local Open Scope py_scope.

(** The limiter and the network a scrape works on. *)
Record State : Type := mkState {
  limiter : RateLimiter.State;
  http : BaseScraper.State
}.

Definition on_limiter {A} (c : M RateLimiter.State A) : M State A :=
  fun st => let '(r, l) := c (limiter st) in (r, mkState l (http st)).

Definition on_http {A} (c : M BaseScraper.State A) : M State A :=
  fun st => let '(r, h) := c (http st) in (r, mkState (limiter st) h).

(** The search terms of a scrape that is given none. *)
Definition DEFAULT_SEARCH_TERMS : list string :=
  ["gold bullion"; "silver bullion"; "gold eagle"; "silver eagle"].

Section Scrape.

Variable self : BaseScraper.Scraper.

(** The items a response body decodes to, those under
    [findItemsByKeywordsResponse[0].searchResult[0].item]; none for a
    body that is not JSON or has no such path. *)
Variable items_of : string -> list Item.

(** The clock readings of the limiter in the pass over the [i]-th
    search term. *)
Variable clock_at : nat -> RateLimiter.Clock.

(** [_parse_ebay_response(data, keyword)]: the items that parse. *)
Definition _parse_ebay_response (items : list Item) (keyword : string)
  : list Listing :=
  omap (fun item => _parse_item item keyword) items.

(** [_search_ebay(keyword, max_results)]; [max_results] goes into the
    parameters of the request. *)
Definition _search_ebay (keyword : string) (max_results : Z)
  : M BaseScraper.State (list Listing) :=
  response <- BaseScraper.make_request self "" "GET" ;;
  ret (_parse_ebay_response (items_of (BaseScraper.text response))
                            keyword).

(** The loop of [scrape] over the search terms that are left, the next
    one being number [i]. *)
Fixpoint scrape_terms (terms : list string) (i : nat) (max_results : Z)
    (all_listings : list Listing) : M State (list Listing) :=
  match terms with
  | [] => ret all_listings
  | term :: rest =>
      listings <-
        try_except
          (on_limiter
             (RateLimiter.check_and_increment (clock_at i) "ebay") ;;;
           on_http (_search_ebay term max_results))
          (fun _ => ret []) ;;
      scrape_terms rest (S i) max_results (all_listings ++ listings)
  end.

(** [scrape(search_terms, max_results, db)] *)
Definition scrape (search_terms : option (list string)) (max_results : Z)
  : M State (list Listing) :=
  let search_terms := match search_terms with
                      | None => DEFAULT_SEARCH_TERMS
                      | Some terms => terms
                      end in
  all_listings <- scrape_terms search_terms 0 max_results [] ;;
  ret (dedup all_listings).

End Scrape.

End EbayScraper.

(** ** [app/schemas.py] and the scan endpoint of [app/main.py] *)

Module Schemas.

(** [MetalType] *)
Inductive MetalType : Type := GOLD | SILVER | ALL.

Definition is_all (m : MetalType) : bool :=
  match m with
  | ALL => true
  | _ => false
  end.

(** [ScanRequest.validate_metal_types(v)] *)
Definition validate_metal_types (v : list MetalType)
  : result (list MetalType) :=
  match v with
  | [] => Raise (ValueError "At least one metal type must be specified")
  | _ => Return (List.filter (fun m => negb (is_all m)) v)
  end.

End Schemas.

Module ScanEndpoint.

Import Schemas.

(** The loop of [trigger_scan] that converts the metal types of the
    request to search terms. *)
Fixpoint search_terms_of (metal_types : list MetalType) : list string :=
  match metal_types with
  | [] => []
  | GOLD :: rest => ["gold bullion"; "gold eagle"] ++ search_terms_of rest
  | SILVER :: rest =>
      ["silver bullion"; "silver eagle"] ++ search_terms_of rest
  | ALL :: rest => search_terms_of rest
  end.

(** [search_terms if search_terms else None], the argument
    [trigger_scan] passes on to [perform_scan] and that to [scrape]. *)
Definition scan_search_terms (metal_types : list MetalType)
  : option (list string) :=
  match search_terms_of metal_types with
  | [] => None
  | terms => Some terms
  end.

(** The terms the scraper goes through for a request, from the
    validation of the request to the default of [scrape]. *)
Definition searched_terms (request_metal_types : list MetalType)
  : result (list string) :=
  match validate_metal_types request_metal_types with
  | Raise e => Raise e
  | Return metal_types =>
      Return (match scan_search_terms metal_types with
              | None => EbayScraper.DEFAULT_SEARCH_TERMS
              | Some terms => terms
              end)
  end.

End ScanEndpoint.

(** ** Example data *)

Module Examples.

(** The eBay provider with a daily limit of 2, at the start of the period
    that ends with 2024. *)
Definition ebay_tracker : RateLimiter.RateLimitTracker :=
  RateLimiter.mkTracker "ebay" (Some 2) None 0 0
                        (Datetime.mk 2025 1 1 0 0 0 0) None.

Definition ebay_state : RateLimiter.State :=
  RateLimiter.mkState
    (RateLimiter.mkSession {["ebay" := ebay_tracker]}
                           {["ebay" := ebay_tracker]})
    ∅ [].

Definition clock_a : RateLimiter.Clock :=
  RateLimiter.mkClock (Datetime.mk 2024 12 31 23 59 58 0)
                      1735689598 1735689598.
Definition clock_b : RateLimiter.Clock :=
  RateLimiter.mkClock (Datetime.mk 2024 12 31 23 59 59 0)
                      (17356895981 # 10) (17356895982 # 10).
Definition clock_c : RateLimiter.Clock :=
  RateLimiter.mkClock (Datetime.mk 2025 1 1 0 0 0 5)
                      1735689600 1735689600.

(** The metals API provider with its monthly limit of 50 used up. *)
Definition metals_tracker : RateLimiter.RateLimitTracker :=
  RateLimiter.mkTracker "metals-api" None (Some 50) 0 50
                        (Datetime.mk 2024 12 1 0 0 0 0) None.

Definition metals_state : RateLimiter.State :=
  RateLimiter.mkState
    (RateLimiter.mkSession {["metals-api" := metals_tracker]}
                           {["metals-api" := metals_tracker]})
    ∅ [].

Definition december : datetime := Datetime.mk 2024 12 17 10 30 5 42.

(** A raw item whose title states a weight of a hundred-thousandth of an
    ounce. *)
Definition dust_item : Ebay.Item :=
  Ebay.mkItem (Some "110553") (Some "0.00001 oz gold dust sample")
              (Some "75.00") (Some "https://www.ebay.com/itm/110553").


(** The cache durations of the configuration's defaults. *)
Definition cache_settings : PriceCache.Settings :=
  PriceCache.mkSettings 15 60 240.

(** Tuesday 2024-12-17, 15:10 UTC, 10:10 in New York. *)
Definition tuesday_clock : PriceCache.Clock :=
  PriceCache.mkClock (Datetime.mk 2024 12 17 15 10 0 0)
                     (Datetime.mk 2024 12 17 10 10 0 0)
                     (Datetime.mk 2024 12 17 15 10 1 0).

Definition gold_at_1500 : PriceCache.SpotPrice :=
  PriceCache.mkSpotPrice "gold" 2650 (Datetime.mk 2024 12 17 15 0 0 0).
Definition gold_at_1300 : PriceCache.SpotPrice :=
  PriceCache.mkSpotPrice "gold" 2640 (Datetime.mk 2024 12 17 13 0 0 0).

Definition fresh_cache : @PriceCache.State unit :=
  PriceCache.mkState
    (PriceCache.mkStore [gold_at_1300; gold_at_1500] None tt) [].
Definition stale_cache : @PriceCache.State unit :=
  PriceCache.mkState (PriceCache.mkStore [gold_at_1300] None tt) [].
Definition empty_cache : @PriceCache.State unit :=
  PriceCache.mkState (PriceCache.mkStore [] None tt) [].

Definition unreachable : exn :=
  APIConnectionError "metals-api" "connection refused" 0.
Definition failing_fetch : string -> M (@PriceCache.Store unit) Q :=
  fun _ => raise unreachable.
Definition working_fetch : string -> M (@PriceCache.Store unit) Q :=
  fun _ => ret 2700%Q.

(** The eBay scraper with four attempts, in front of a network that
    answers 500, 503, 502 and then 200, and in front of one that answers
    404. *)
Definition ebay_scraper : BaseScraper.Scraper :=
  BaseScraper.mkScraper
    "ebay" "https://svcs.ebay.com/services/search/FindingService/v1" 10 4.

Definition r500 := BaseScraper.mkResponse 500 "Internal Server Error".
Definition r503 := BaseScraper.mkResponse 503 "Service Unavailable".
Definition r502 := BaseScraper.mkResponse 502 "Bad Gateway".
Definition r200 := BaseScraper.mkResponse 200 "{}".
Definition r404 := BaseScraper.mkResponse 404 "Not Found".

Definition flaky_network : BaseScraper.State :=
  BaseScraper.mkState
    [(BaseScraper.Responded r500, 1 # 10); (BaseScraper.Responded r503, 1 # 10);
     (BaseScraper.Responded r502, 1 # 10); (BaseScraper.Responded r200, 1 # 10)]%Q
    1735689598 [] true [].

Definition not_found_network : BaseScraper.State :=
  BaseScraper.mkState [(BaseScraper.Responded r404, 1 # 10)]%Q
                      1735689598 [] true [].

(** Three raw items and the listings the parser makes of them. *)
Definition eagle_item : Ebay.Item :=
  Ebay.mkItem (Some "225101") (Some "1 oz Gold American Eagle")
              (Some "1700") (Some "https://www.ebay.com/itm/225101").
Definition maple_item : Ebay.Item :=
  Ebay.mkItem (Some "225102") (Some "1 oz Gold Maple Leaf")
              (Some "2100.50") (Some "https://www.ebay.com/itm/225102").
Definition round_item : Ebay.Item :=
  Ebay.mkItem (Some "225103") (Some "Silver round, weight unknown")
              (Some "60") (Some "https://www.ebay.com/itm/225103").

Definition parsed (item : Ebay.Item) (keyword : string) : list Ebay.Listing :=
  match Ebay._parse_item item keyword with
  | Some l => [l]
  | None => []
  end.

Definition batch : list Ebay.Listing :=
  (parsed eagle_item "gold eagle" ++ parsed maple_item "gold bullion"
   ++ parsed round_item "silver bullion")%list.

Definition spot_2000 : gmap string Q := {["gold" := 2000%Q; "silver" := 25%Q]}.

(** A store whose second commit fails. *)
Definition locked : exn := DatabaseError "database is locked".
Definition shaky_world : Main.World :=
  Main.mkWorld (Main.mkSession ∅ ∅) [None; Some locked; None].

Definition scan_clock : Main.Clock :=
  Main.mkClock (Datetime.mk 2024 12 17 15 10 0 0)
               (Datetime.mk 2024 12 17 15 10 2 0)
               (Datetime.mk 2024 12 17 15 10 4 500000).

(** The eBay provider after its two calls of the day, the second made
    at 23:59:59.1. *)
Definition ebay_used_up : RateLimiter.State :=
  snd (RateLimiter.calls [clock_a; clock_b] "ebay" ebay_state).

(** A clock a twentieth of a second after the second call was recorded;
    its second reading is taken after a sleep of 0.15 seconds. *)
Definition clock_b' : RateLimiter.Clock :=
  RateLimiter.mkClock (Datetime.mk 2025 1 1 0 0 0 0)
                      (173568959825 # 100) (17356895984 # 10).


(** Five minutes after [tuesday_clock]. *)
Definition tuesday_clock_later : PriceCache.Clock :=
  PriceCache.mkClock (Datetime.mk 2024 12 17 15 15 0 0)
                     (Datetime.mk 2024 12 17 10 15 0 0)
                     (Datetime.mk 2024 12 17 15 15 1 0).

(** A week after [tuesday_clock], an hour earlier in the day. *)
Definition next_tuesday_clock : PriceCache.Clock :=
  PriceCache.mkClock (Datetime.mk 2024 12 24 14 10 0 0)
                     (Datetime.mk 2024 12 24 9 10 0 0)
                     (Datetime.mk 2024 12 24 14 10 1 0).

(** A store that refuses to commit. *)
Definition refusing_store : @PriceCache.Store unit :=
  PriceCache.mkStore [gold_at_1300] (Some locked) tt.
Definition refusing_cache : @PriceCache.State unit :=
  PriceCache.mkState refusing_store [].
Definition refusing_empty_store : @PriceCache.Store unit :=
  PriceCache.mkStore [] (Some locked) tt.
Definition refusing_empty_cache : @PriceCache.State unit :=
  PriceCache.mkState refusing_empty_store [].


(** The limits of the configuration's defaults, and a first start of the
    application on 2024-12-17 at 08:00:00. *)
Definition limits : Database.Settings := Database.mkSettings 5000 50.
Definition first_run : Database.Run :=
  Database.mkRun None (Datetime.mk 2024 12 17 8 0 0 123)
                 (Datetime.mk 2024 12 17 8 0 0 456) None.


(** A network that times out, refuses the connection, answers 503 and
    then 200; and one that is down for three attempts. *)
Definition patchy_network : BaseScraper.State :=
  BaseScraper.mkState
    [(BaseScraper.TimedOut, 10);
     (BaseScraper.ConnectionFailed "connection refused", 1 # 100);
     (BaseScraper.Responded r503, 1 # 10);
     (BaseScraper.Responded r200, 1 # 10)]%Q
    1735689598 [] true [].

Definition down_network : BaseScraper.State :=
  BaseScraper.mkState
    [(BaseScraper.TimedOut, 10);
     (BaseScraper.Responded r502, 1 # 10);
     (BaseScraper.ConnectionFailed "connection refused", 1 # 100)]%Q
    1735689598 [] true [].

(** A scraper with the three attempts of the configuration's default. *)
Definition default_scraper : BaseScraper.Scraper :=
  BaseScraper.mkScraper
    "ebay" "https://svcs.ebay.com/services/search/FindingService/v1" 10 3.


(** A listing as stored by an earlier scan, and the same item scraped
    again under a new title, at a lower price and with a weight read
    differently. *)
Definition eagle_listing : Ebay.Listing :=
  Ebay.mkListing "ebay" "225101" "1 oz Gold American Eagle" 1700 "gold"
                 (Some 1%Q) false "https://www.ebay.com/itm/225101".
Definition eagle_row : Main.ListingRow :=
  Main.mkRow eagle_listing (Datetime.mk 2024 12 17 13 0 0 0) (Some 15%Q).
Definition eagle_relisted : Ebay.Listing :=
  Ebay.mkListing "ebay" "225101" "Gold Eagle coin, two 1/2 oz pieces" 1650
                 "gold" (Some 2%Q) false "https://www.ebay.com/itm/225101".

Definition stocked_state (commits : list (option exn)) : Main.State :=
  Main.mkState
    (Main.mkWorld (Main.mkSession {["225101" := eagle_row]}
                                  {["225101" := eagle_row]})
                  commits)
    (Main.mkLocals [] 1 0).


(** Three stored listings: a gold deal, a silver listing above spot and
    a listing whose weight could not be read. *)
Definition maple_row : Main.ListingRow :=
  Main.mkRow
    (Ebay.mkListing "ebay" "225102" "1 oz Gold Maple Leaf" 1900 "gold"
                    (Some 1%Q) false "https://www.ebay.com/itm/225102")
    (Datetime.mk 2024 12 17 13 0 0 0) (Some 5%Q).
Definition bar_row : Main.ListingRow :=
  Main.mkRow
    (Ebay.mkListing "ebay" "225104" "10 oz Silver Bar" 300 "silver"
                    (Some 10%Q) false "https://www.ebay.com/itm/225104")
    (Datetime.mk 2024 12 17 13 0 0 0) (Some (-20)%Q).
Definition round_row : Main.ListingRow :=
  Main.mkRow
    (Ebay.mkListing "ebay" "225103" "Silver round, weight unknown" 60
                    "silver" None true "https://www.ebay.com/itm/225103")
    (Datetime.mk 2024 12 17 13 0 0 0) None.

Definition listings_table : list Main.ListingRow :=
  [maple_row; bar_row; round_row; eagle_row].


(** The eBay tracker once its two calls of the day are used, and a
    scrape in front of the network that is down. *)
Definition ebay_spent_tracker : RateLimiter.RateLimitTracker :=
  RateLimiter.mkTracker "ebay" (Some 2) None 2 0
                        (Datetime.mk 2025 1 1 0 0 0 0)
                        (Some (Datetime.mk 2024 12 31 23 59 59 0)).

Definition spent_scrape : EbayScraper.State :=
  EbayScraper.mkState ebay_used_up down_network.
Definition fresh_scrape : EbayScraper.State :=
  EbayScraper.mkState ebay_state down_network.

(** A decoder that finds no items. *)
Definition no_items : string -> list Ebay.Item := fun _ => [].


(** The metals API answering with the gold rate, answering with an
    error, and the client's world with the quota of [metals_state] used
    up or with one call left. *)
Definition xau_body : PriceApi.Body :=
  PriceApi.mkBody true "" {["XAU" := (1 # 2500)%Q]}.
Definition xau_response : PriceApi.Response :=
  PriceApi.mkResponse 200 "OK" "https://metals-api.com/api/latest"
                      xau_body.
Definition metals_tracker_49 : RateLimiter.RateLimitTracker :=
  RateLimiter.mkTracker "metals-api" None (Some 50) 0 49
                        (Datetime.mk 2025 1 1 0 0 0 0) None.
Definition metals_state_49 : RateLimiter.State :=
  RateLimiter.mkState
    (RateLimiter.mkSession {["metals-api" := metals_tracker_49]}
                           {["metals-api" := metals_tracker_49]})
    ∅ [].
Definition api_env : PriceApi.Env :=
  PriceApi.mkEnv metals_state_49 [PriceApi.Responded xau_response].
Definition api_env_spent : PriceApi.Env :=
  PriceApi.mkEnv
    (RateLimiter.mkState
       (RateLimiter.mkSession
          {["metals-api" :=
              RateLimiter.mkTracker "metals-api" None (Some 50) 0 50
                                    (Datetime.mk 2025 1 1 0 0 0 0) None]}
          {["metals-api" :=
              RateLimiter.mkTracker "metals-api" None (Some 50) 0 50
                                    (Datetime.mk 2025 1 1 0 0 0 0) None]})
       ∅ [])
    [PriceApi.Responded xau_response].

(** The client's world with one call left and the metals API answering
    503. *)
Definition api_env_down : PriceApi.Env :=
  PriceApi.mkEnv metals_state_49
    [PriceApi.Responded
       (PriceApi.mkResponse 503 "Service Unavailable"
                            "https://metals-api.com/api/latest"
                            (PriceApi.mkBody false "" ∅))].


Definition api_clocks : PriceApi.Clocks :=
  PriceApi.mkClocks tuesday_clock clock_a tuesday_clock clock_a.

Definition repr_float : Q -> string := fun _ => "0.0".

End Examples.

(** * Properties *)

(** ** Rate limiter *)

Section RateLimiterProperties.

Import RateLimiter.

Lemma geb_ltb (a b : datetime) : geb a b = negb (ltb a b).
Proof. unfold geb, ltb. destruct (Datetime.compare a b); reflexivity. Qed.

Lemma state_eta (st : State) :
  mkState (mkSession (persisted (db st)) (working (db st)))
          (last_call_time st) (sleeps st) = st.
Proof. destruct st as [[? ?] ? ?]; reflexivity. Qed.

Lemma valid_fields (d : datetime) :
  valid d = true ->
  1 <= year d <= 9999 /\ 1 <= month d <= 12 /\ 1 <= day d
  /\ 0 <= microsecond d <= 999999.
Proof.
  unfold valid, MINYEAR, MAXYEAR. intros H.
  repeat (apply andb_prop in H; destruct H as [H ?]). lia.
Qed.

Lemma next_day_ok (d : datetime) :
  year d < MAXYEAR -> exists r, next_day d = Return r.
Proof.
  intros Hy. unfold next_day.
  destruct (day d <? _); [eauto|].
  destruct (month d <? 12); [eauto|].
  destruct (year d <? MAXYEAR) eqn:E; [eauto|]. lia.
Qed.

(** C10: a provider without a tracker row is always allowed, and the call
    leaves the session, the last-call map and the sleep trace as they
    were: no counter is created or incremented and no spacing is
    enforced. *)
Theorem check_and_increment_unregistered
    (clk : Clock) (api : string) (st : State) :
  working (db st) !! api = None ->
  check_and_increment clk api st = (Return true, st).
Proof.
  intros Hnone. unfold check_and_increment, bind, get.
  rewrite Hnone. reflexivity.
Qed.

Lemma check_and_increment_unregistered_witness :
  check_and_increment Examples.clock_a "unknown-api" Examples.ebay_state
  = (Return true, Examples.ebay_state).
Proof.
  apply (check_and_increment_unregistered
           Examples.clock_a "unknown-api" Examples.ebay_state).
  reflexivity.
Defined.

(** One allowed call inside the period: the daily counter goes up by one
    and nothing else about the quota changes. *)
Lemma step_allowed (clk : Clock) (api : string) (st : State)
    (tr : RateLimitTracker) :
  working (db st) !! api = Some tr ->
  truthyZ (daily_limit tr) = true ->
  daily_calls_used tr < default 0 (daily_limit tr) ->
  ltb (utcnow clk) (reset_at tr) = true ->
  exists st',
    check_and_increment clk api st = (Return true, st')
    /\ working (db st') !! api
       = Some (set_last_call_at (Some (utcnow clk))
                 (set_daily_calls_used (daily_calls_used tr + 1) tr)).
Proof.
  intros Hw Hd Hlt Hnow.
  unfold check_and_increment, bind, get, try_except, on_tracker, check_quota.
  rewrite Hw. cbn.
  rewrite geb_ltb, Hnow. cbn. rewrite Hd.
  destruct (daily_calls_used tr >=? default 0 (daily_limit tr)) eqn:E; [lia|].
  cbn. rewrite lookup_insert_eq.
  eexists; split; [reflexivity|]. cbn. rewrite lookup_insert_eq. reflexivity.
Qed.

(** A call inside the period with the quota used up: the error carries
    the limit and the reset time, and nothing changes. *)
Lemma step_exceeded (clk : Clock) (api : string) (st : State)
    (tr : RateLimitTracker) :
  working (db st) !! api = Some tr ->
  truthyZ (daily_limit tr) = true ->
  default 0 (daily_limit tr) <= daily_calls_used tr ->
  ltb (utcnow clk) (reset_at tr) = true ->
  check_and_increment clk api st
  = (Raise (APIRateLimitError api (default 0 (daily_limit tr))
                              (isoformat (reset_at tr))), st).
Proof.
  intros Hw Hd Hge Hnow.
  unfold check_and_increment, bind, get, try_except, on_tracker, check_quota.
  rewrite Hw. cbn.
  rewrite geb_ltb, Hnow. cbn. rewrite Hd.
  destruct (daily_calls_used tr >=? default 0 (daily_limit tr)) eqn:E; [|lia].
  cbn. rewrite insert_id by exact Hw. rewrite state_eta. reflexivity.
Qed.

(** A call once the period is over: the counter restarts and the call is
    the first of the new period. *)
Lemma step_rollover (clk : Clock) (api : string) (st : State)
    (tr : RateLimitTracker) :
  working (db st) !! api = Some tr ->
  truthyZ (daily_limit tr) = true ->
  0 < default 0 (daily_limit tr) ->
  geb (utcnow clk) (reset_at tr) = true ->
  year (utcnow clk) < MAXYEAR ->
  exists st',
    check_and_increment clk api st = (Return true, st')
    /\ calls_used api st' = Some 1.
Proof.
  intros Hw Hd Hpos Hnow Hy.
  unfold check_and_increment, bind, get, try_except, on_tracker, check_quota.
  rewrite Hw. cbn. rewrite Hnow.
  unfold _reset_tracker, bind, get, lift, modify. rewrite Hd.
  cbn [plus_days].
  destruct (next_day_ok (replace_time (utcnow clk) 0 0 0
                                      (microsecond (utcnow clk))))
    as [r Hr]; [exact Hy |].
  rewrite Hr. cbn. rewrite Hd. cbn.
  destruct (0 >=? default 0 (daily_limit tr)) eqn:E; [lia|].
  cbn. rewrite lookup_insert_eq.
  eexists; split; [reflexivity|].
  unfold calls_used. cbn. rewrite lookup_insert_eq. cbn. rewrite Hd.
  reflexivity.
Qed.

Lemma calls_within_quota (api : string) (clks : list Clock) :
  forall (st : State) (tr : RateLimitTracker),
  working (db st) !! api = Some tr ->
  truthyZ (daily_limit tr) = true ->
  daily_calls_used tr + Z.of_nat (length clks) <= default 0 (daily_limit tr) ->
  Forall (fun clk => ltb (utcnow clk) (reset_at tr) = true) clks ->
  exists tr',
    fst (calls clks api st) = repeat (Return true) (length clks)
    /\ working (db (snd (calls clks api st))) !! api = Some tr'
    /\ daily_limit tr' = daily_limit tr
    /\ reset_at tr' = reset_at tr
    /\ daily_calls_used tr' = daily_calls_used tr + Z.of_nat (length clks).
Proof.
  induction clks as [|clk clks IH]; intros st tr Hw Hd Hle Hall.
  - exists tr. cbn. repeat split; auto. lia.
  - inversion Hall as [|? ? Hclk Hrest]; subst.
    destruct (step_allowed clk api st tr Hw Hd) as (st1 & Hstep & Hw1);
      [cbn [length] in Hle; lia | exact Hclk |].
    cbn [calls]. rewrite Hstep.
    destruct (IH st1 _ Hw1) as (tr' & Hrs & Hw' & Hl & Hr & Hu);
      [exact Hd | cbn in *; lia | exact Hrest |].
    destruct (calls clks api st1) as [rs st2] eqn:Hc. cbn in *.
    exists tr'. repeat split; auto.
    + f_equal; exact Hrs.
    + rewrite Hu. lia.
Qed.

(** C1: take a provider with daily limit [L > 0] at the start of a quota
    period (no call used yet) and [L] calls made before [reset_at].  Each
    of them is allowed and the counter stands at [k] after the [k]-th; a
    further call before [reset_at] raises [APIRateLimitError] with the
    limit and the reset time and changes nothing; and a call at or after
    [reset_at] is allowed again and leaves the counter at 1. *)
Theorem daily_quota_cycle
    (L : Z) (api : string) (st : State) (tr : RateLimitTracker)
    (clks : list Clock) :
  0 < L ->
  working (db st) !! api = Some tr ->
  daily_limit tr = Some L ->
  daily_calls_used tr = 0 ->
  Z.of_nat (length clks) = L ->
  Forall (fun clk => ltb (utcnow clk) (reset_at tr) = true) clks ->
  let st' := snd (calls clks api st) in
  fst (calls clks api st) = repeat (Return true) (length clks)
  /\ (forall k : nat, (k <= length clks)%nat ->
        calls_used api (snd (calls (take k clks) api st))
        = Some (Z.of_nat k))
  /\ (forall clk, ltb (utcnow clk) (reset_at tr) = true ->
        check_and_increment clk api st'
        = (Raise (APIRateLimitError api L (isoformat (reset_at tr))), st'))
  /\ (forall clk, geb (utcnow clk) (reset_at tr) = true ->
        year (utcnow clk) < MAXYEAR ->
        exists st'',
          check_and_increment clk api st' = (Return true, st'')
          /\ calls_used api st'' = Some 1).
Proof.
  intros HL Hw Hlim Hu Hlen Hall st'.
  assert (Hd : truthyZ (daily_limit tr) = true).
  { rewrite Hlim; cbn. destruct (L =? 0) eqn:E; [lia | reflexivity]. }
  assert (Hdef : default 0 (daily_limit tr) = L) by (rewrite Hlim; reflexivity).
  destruct (calls_within_quota api clks st tr Hw Hd)
    as (tr' & Hrs & Hw' & Hl & Hr & Hu'); [lia | exact Hall |].
  fold st' in Hw'.
  split; [exact Hrs|]. split; [|split].
  - intros k Hk.
    destruct (calls_within_quota api (take k clks) st tr Hw Hd)
      as (trk & _ & Hwk & Hlk & _ & Huk).
    + rewrite length_take. lia.
    + apply Forall_take, Hall.
    + unfold calls_used. rewrite Hwk, Hlk, Hd, Huk, length_take.
      f_equal. lia.
  - intros clk Hclk.
    rewrite (step_exceeded clk api st' tr' Hw');
      rewrite ?Hl, ?Hr, ?Hdef; auto. lia.
  - intros clk Hclk Hy.
    apply (step_rollover clk api st' tr' Hw');
      rewrite ?Hl, ?Hr, ?Hdef; auto.
Qed.

Lemma daily_quota_cycle_witness :
  let clks := [Examples.clock_a; Examples.clock_b] in
  let st' := snd (calls clks "ebay" Examples.ebay_state) in
  fst (calls clks "ebay" Examples.ebay_state) = repeat (Return true) 2
  /\ (forall k : nat, (k <= 2)%nat ->
        calls_used "ebay" (snd (calls (take k clks) "ebay" Examples.ebay_state))
        = Some (Z.of_nat k))
  /\ (forall clk, ltb (utcnow clk) (reset_at Examples.ebay_tracker) = true ->
        check_and_increment clk "ebay" st'
        = (Raise (APIRateLimitError
                    "ebay" 2 (isoformat (reset_at Examples.ebay_tracker))),
           st'))
  /\ (forall clk, geb (utcnow clk) (reset_at Examples.ebay_tracker) = true ->
        year (utcnow clk) < MAXYEAR ->
        exists st'',
          check_and_increment clk "ebay" st' = (Return true, st'')
          /\ calls_used "ebay" st'' = Some 1).
Proof.
  apply (daily_quota_cycle 2 "ebay" Examples.ebay_state
           Examples.ebay_tracker [Examples.clock_a; Examples.clock_b]).
  - lia.
  - reflexivity.
  - reflexivity.
  - reflexivity.
  - reflexivity.
  - repeat constructor.
Defined.

(** The run of the example provider: two calls, a third in the same
    period, and one after midnight. *)
Example daily_quota_run :
  fst (calls [Examples.clock_a; Examples.clock_b; Examples.clock_b;
              Examples.clock_c] "ebay" Examples.ebay_state)
  = [Return true; Return true;
     Raise (APIRateLimitError "ebay" 2 "2025-01-01T00:00:00");
     Return true].
Proof. vm_compute. reflexivity. Qed.

(** C7: the rollover of a monthly-limited provider sets the monthly
    counter to 0; in December it moves [reset_at] to January 1 of the
    following year, in any other month to the first day of the next
    month (at 00:00:00, the microseconds of the clock kept); the new
    [reset_at] is later than the time of the rollover. *)
Theorem monthly_rollover (tr : RateLimitTracker) (now : datetime) :
  valid now = true ->
  truthyZ (daily_limit tr) = false ->
  truthyZ (monthly_limit tr) = true ->
  (month now = 12 -> year now < MAXYEAR) ->
  exists tr',
    _reset_tracker now tr = (Return tt, tr')
    /\ monthly_calls_used tr' = 0
    /\ (month now = 12 ->
        reset_at tr'
        = Datetime.mk (year now + 1) 1 1 0 0 0 (microsecond now))
    /\ (month now <> 12 ->
        reset_at tr'
        = Datetime.mk (year now) (month now + 1) 1 0 0 0 (microsecond now))
    /\ ltb now (reset_at tr') = true.
Proof.
  intros Hv Hd Hm Hy.
  destruct (valid_fields now Hv) as (Hyr & Hmo & Hday & Hus).
  unfold _reset_tracker, bind, get, modify, lift. rewrite Hd, Hm.
  destruct (month now =? 12) eqn:E.
  - apply Z.eqb_eq in E. specialize (Hy E). unfold MAXYEAR in Hy.
    assert (Hmk : make (year now + 1) 1 1 0 0 0 (microsecond now)
                  = Return (Datetime.mk (year now + 1) 1 1 0 0 0
                                        (microsecond now))).
    { unfold make, valid, MINYEAR, MAXYEAR, days_in_month; cbn.
      replace (1 <=? year now + 1) with true by lia.
      replace (year now + 1 <=? 9999) with true by lia.
      replace (0 <=? microsecond now) with true by lia.
      replace (microsecond now <=? 999999) with true by lia.
      reflexivity. }
    rewrite Hmk. eexists; split; [reflexivity|]. cbn.
    repeat split; try congruence.
    unfold ltb, Datetime.compare, fields; cbn.
    replace (year now ?= year now + 1) with Lt
      by (symmetry; apply Z.compare_lt_iff; lia).
    reflexivity.
  - apply Z.eqb_neq in E.
    assert (Hmk : make (year now) (month now + 1) 1 0 0 0 (microsecond now)
                  = Return (Datetime.mk (year now) (month now + 1) 1 0 0 0
                                        (microsecond now))).
    { unfold make, valid, MINYEAR, MAXYEAR; cbn.
      replace (1 <=? year now) with true by lia.
      replace (year now <=? 9999) with true by lia.
      replace (1 <=? month now + 1) with true by lia.
      replace (month now + 1 <=? 12) with true by lia.
      replace (0 <=? microsecond now) with true by lia.
      replace (microsecond now <=? 999999) with true by lia.
      replace (1 <=? days_in_month (year now) (month now + 1)) with true;
        [reflexivity|].
      unfold days_in_month.
      repeat match goal with
             | |- context [if ?b then _ else _] => destruct b
             end; reflexivity. }
    rewrite Hmk. eexists; split; [reflexivity|]. cbn.
    repeat split; try congruence.
    unfold ltb, Datetime.compare, fields; cbn.
    rewrite Z.compare_refl.
    replace (month now ?= month now + 1) with Lt
      by (symmetry; apply Z.compare_lt_iff; lia).
    reflexivity.
Qed.

Lemma monthly_rollover_witness :
  exists tr',
    _reset_tracker Examples.december Examples.metals_tracker = (Return tt, tr')
    /\ monthly_calls_used tr' = 0
    /\ (month Examples.december = 12 ->
        reset_at tr'
        = Datetime.mk (year Examples.december + 1) 1 1 0 0 0
                      (microsecond Examples.december))
    /\ (month Examples.december <> 12 ->
        reset_at tr'
        = Datetime.mk (year Examples.december) (month Examples.december + 1)
                      1 0 0 0 (microsecond Examples.december))
    /\ ltb Examples.december (reset_at tr') = true.
Proof.
  apply (monthly_rollover Examples.metals_tracker Examples.december).
  - reflexivity.
  - reflexivity.
  - reflexivity.
  - intros _. unfold MAXYEAR. simpl. lia.
Defined.

(** In December of the last year a [datetime] can hold there is no next
    January: the rollover raises [ValueError]. *)
Example december_9999 :
  fst (_reset_tracker (Datetime.mk 9999 12 17 10 30 5 42)
                      Examples.metals_tracker)
  = Raise (ValueError "field out of range").
Proof. reflexivity. Qed.

(** The December rollover of the example provider, through
    [check_and_increment]. *)
Example december_rollover_run :
  RateLimiter.working
    (db (snd (check_and_increment
                (mkClock Examples.december 1734431405 1734431405)
                "metals-api" Examples.metals_state)))
  !! "metals-api"
  = Some (mkTracker "metals-api" None (Some 50) 0 1
                    (Datetime.mk 2025 1 1 0 0 0 42)
                    (Some Examples.december)).
Proof. vm_compute. reflexivity. Qed.

End RateLimiterProperties.

(** ** Price cache *)

Section PriceCacheProperties.

Import PriceCache.

Context {Env : Type}.
Variable settings : Settings.

(** The lookup reads the latest row and never changes the state. *)
Lemma get_cached_price_reads (clk : Clock) (m : string) (st : @State Env) :
  get_cached_price settings clk m st
  = (Return
       (match latest_price m (store st) with
        | Some latest =>
            Some (mkCached (price_per_oz latest) (fetched_at latest)
                           (age_minutes clk latest)
                           (age_minutes clk latest
                            >=? get_cache_duration_minutes settings clk))
        | None => None
        end), st).
Proof.
  unfold get_cached_price, bind, get, ret.
  destruct (latest_price m (store st)); reflexivity.
Qed.

(** For a row that is not from the future, the age in whole minutes is
    below a window of [W] minutes exactly when the exact age is. *)
Lemma age_minutes_exact (clk : Clock) (row : SpotPrice) (W : Z) :
  0 <= sub_micros (utcnow clk) (fetched_at row) ->
  age_minutes clk row < W
  <-> sub_micros (utcnow clk) (fetched_at row) < W * 60000000.
Proof.
  intros Hage. unfold age_minutes, total_seconds, int_trunc.
  set (us := sub_micros (utcnow clk) (fetched_at row)) in *.
  cbn. rewrite !Z.mul_1_r.
  change (Z.pos (1 * 1000000 * 60)) with 60000000.
  rewrite Z.quot_div_nonneg by lia.
  split; intros H.
  - apply Z.nle_gt. intros Hle.
    assert (W <= us / 60000000) by (apply Z.div_le_lower_bound; lia). lia.
  - apply Z.div_lt_upper_bound; lia.
Qed.

(** The state after the fetch function was called has one more entry in
    the log, whatever else happens afterwards. *)
Lemma fetch_path_log (clk : Clock) (m : string)
    (fetch_func : string -> M (@Store Env) Q) (st : @State Env)
    (h : exn -> M (@State Env) Price)
    (Hh : forall e s, fetch_log (snd (h e s)) = fetch_log s) :
  fetch_log
    (snd (try_except
            (bind (call_fetch fetch_func m)
                  (fun fresh_price =>
                     bind (store_price clk m fresh_price)
                          (fun _ => ret (mkPrice fresh_price (utcnow_after clk)
                                                 0 false false false))))
            h st))
  = (fetch_log st ++ [m])%list.
Proof.
  unfold try_except, bind, call_fetch, store_price, get, put, ret, raise.
  destruct (fetch_func m (store st)) as [[fresh|e] sto]; cbn.
  - destruct (commit_error sto) as [e|]; cbn.
    + rewrite Hh. reflexivity.
    + reflexivity.
  - rewrite Hh. reflexivity.
Qed.

(** C6: when the latest cached price of a symbol is younger than the
    freshness window, [get_or_fetch_price] returns its price and fetch
    time as they are, tagged as coming from the cache, and leaves the
    state, fetch log included, as it was: the fetch function is not
    invoked.  When there is no cached price, or its age has reached the
    window, the fetch function is invoked exactly once, on that symbol. *)
Theorem get_or_fetch_price_freshness
    (clk : Clock) (m : string) (fetch_func : string -> M (@Store Env) Q)
    (st : @State Env) :
  (forall latest,
      latest_price m (store st) = Some latest ->
      age_minutes clk latest < get_cache_duration_minutes settings clk ->
      get_or_fetch_price settings clk m fetch_func st
      = (Return (mkPrice (price_per_oz latest) (fetched_at latest)
                         (age_minutes clk latest) false true false), st))
  /\ (latest_price m (store st) = None
      \/ (exists latest,
             latest_price m (store st) = Some latest
             /\ get_cache_duration_minutes settings clk
                <= age_minutes clk latest) ->
      fetch_log (snd (get_or_fetch_price settings clk m fetch_func st))
      = (fetch_log st ++ [m])%list).
Proof.
  split.
  - intros latest Hl Hage.
    unfold get_or_fetch_price, bind. rewrite get_cached_price_reads, Hl.
    cbn. destruct (age_minutes clk latest >=? _) eqn:E; [lia|]. reflexivity.
  - intros H.
    unfold get_or_fetch_price, bind at 1. rewrite get_cached_price_reads.
    destruct H as [Hn | (latest & Hl & Hage)].
    + rewrite Hn. cbn [valid_cache].
      apply fetch_path_log. intros e s. reflexivity.
    + rewrite Hl. cbn [valid_cache c_is_stale].
      destruct (age_minutes clk latest >=? _) eqn:E; [|lia].
      apply fetch_path_log. intros e s. reflexivity.
Qed.

(** C4: when the fetch function is invoked and raises, a prior cached
    price (which is stale, or the function would not have been invoked)
    is returned with the stale-fallback tag and nothing is raised; with no
    prior cached price the exception of the fetch function reaches the
    caller. *)
Theorem get_or_fetch_price_fallback
    (clk : Clock) (m : string) (fetch_func : string -> M (@Store Env) Q)
    (st : @State Env) (e : exn) (sto : @Store Env) :
  fetch_func m (store st) = (Raise e, sto) ->
  (forall latest,
      latest_price m (store st) = Some latest ->
      get_cache_duration_minutes settings clk <= age_minutes clk latest ->
      fst (get_or_fetch_price settings clk m fetch_func st)
      = Return (mkPrice (price_per_oz latest) (fetched_at latest)
                        (age_minutes clk latest) true true true))
  /\ (latest_price m (store st) = None ->
      fst (get_or_fetch_price settings clk m fetch_func st) = Raise e).
Proof.
  intros Hf. split.
  - intros latest Hl Hage.
    unfold get_or_fetch_price, bind at 1. rewrite get_cached_price_reads, Hl.
    cbn [valid_cache c_is_stale].
    destruct (age_minutes clk latest >=? _) eqn:E; [|lia].
    unfold try_except, bind, call_fetch. rewrite Hf. reflexivity.
  - intros Hn.
    unfold get_or_fetch_price, bind at 1. rewrite get_cached_price_reads, Hn.
    cbn [valid_cache].
    unfold try_except, bind, call_fetch. rewrite Hf. reflexivity.
Qed.

End PriceCacheProperties.

(** The policy picks the short window on a Tuesday morning in New York,
    the medium one on a Tuesday evening and the long one on a Saturday. *)
Example cache_window_selection :
  PriceCache.get_cache_duration_minutes Examples.cache_settings
    (PriceCache.mkClock (Datetime.mk 2024 12 17 15 0 0 0)
                        (Datetime.mk 2024 12 17 10 0 0 0)
                        (Datetime.mk 2024 12 17 15 0 0 0)) = 15
  /\ PriceCache.get_cache_duration_minutes Examples.cache_settings
       (PriceCache.mkClock (Datetime.mk 2024 12 18 1 0 0 0)
                           (Datetime.mk 2024 12 17 20 0 0 0)
                           (Datetime.mk 2024 12 18 1 0 0 0)) = 60
  /\ PriceCache.get_cache_duration_minutes Examples.cache_settings
       (PriceCache.mkClock (Datetime.mk 2024 12 21 15 0 0 0)
                           (Datetime.mk 2024 12 21 10 0 0 0)
                           (Datetime.mk 2024 12 21 15 0 0 0)) = 240.
Proof. repeat split; vm_compute; reflexivity. Qed.

Lemma get_or_fetch_price_freshness_witness :
  PriceCache.get_or_fetch_price Examples.cache_settings Examples.tuesday_clock
    "gold" Examples.failing_fetch Examples.fresh_cache
  = (Return (PriceCache.mkPrice
               (PriceCache.price_per_oz Examples.gold_at_1500)
               (PriceCache.fetched_at Examples.gold_at_1500)
               (PriceCache.age_minutes Examples.tuesday_clock
                                       Examples.gold_at_1500)
               false true false),
     Examples.fresh_cache)
  /\ PriceCache.fetch_log
       (snd (PriceCache.get_or_fetch_price
               Examples.cache_settings Examples.tuesday_clock
               "gold" Examples.working_fetch Examples.stale_cache))
     = ["gold"]
  /\ PriceCache.fetch_log
       (snd (PriceCache.get_or_fetch_price
               Examples.cache_settings Examples.tuesday_clock
               "gold" Examples.working_fetch Examples.empty_cache))
     = ["gold"].
Proof.
  split; [|split].
  - apply (proj1 (get_or_fetch_price_freshness
                    Examples.cache_settings Examples.tuesday_clock "gold"
                    Examples.failing_fetch Examples.fresh_cache)).
    + reflexivity.
    + vm_compute. reflexivity.
  - apply (proj2 (get_or_fetch_price_freshness
                    Examples.cache_settings Examples.tuesday_clock "gold"
                    Examples.working_fetch Examples.stale_cache)).
    right. exists Examples.gold_at_1300. split.
    + reflexivity.
    + vm_compute. discriminate.
  - apply (proj2 (get_or_fetch_price_freshness
                    Examples.cache_settings Examples.tuesday_clock "gold"
                    Examples.working_fetch Examples.empty_cache)).
    left. reflexivity.
Defined.

Lemma get_or_fetch_price_fallback_witness :
  fst (PriceCache.get_or_fetch_price
         Examples.cache_settings Examples.tuesday_clock
         "gold" Examples.failing_fetch Examples.stale_cache)
  = Return (PriceCache.mkPrice
              (PriceCache.price_per_oz Examples.gold_at_1300)
              (PriceCache.fetched_at Examples.gold_at_1300)
              (PriceCache.age_minutes Examples.tuesday_clock
                                      Examples.gold_at_1300)
              true true true)
  /\ fst (PriceCache.get_or_fetch_price
            Examples.cache_settings Examples.tuesday_clock
            "gold" Examples.failing_fetch Examples.empty_cache)
     = Raise Examples.unreachable.
Proof.
  split.
  - apply (proj1 (get_or_fetch_price_fallback
                    Examples.cache_settings Examples.tuesday_clock "gold"
                    Examples.failing_fetch Examples.stale_cache
                    Examples.unreachable
                    (PriceCache.store Examples.stale_cache) eq_refl)).
    + reflexivity.
    + vm_compute. discriminate.
  - apply (proj2 (get_or_fetch_price_fallback
                    Examples.cache_settings Examples.tuesday_clock "gold"
                    Examples.failing_fetch Examples.empty_cache
                    Examples.unreachable
                    (PriceCache.store Examples.empty_cache) eq_refl)).
    reflexivity.
Defined.

(** ** Listing normaliser *)

Section EbayProperties.

Import Ebay.
Local Open Scope Q_scope.




(** The loop takes the first pattern whose match is in range ... *)
Lemma extract_from_accepts (pattern : string) (factor : Q)
    (rest : list (string * Q)) (title_lower : string) (m : Re.Match)
    (weight : Q) :
  Re.search pattern title_lower = Return (Some m) ->
  match_weight pattern factor m = Return weight ->
  out_of_range weight = false ->
  extract_from ((pattern, factor) :: rest) title_lower
  = Return (Some (round weight 4), false).
Proof. intros Hs Hw Hr. cbn. rewrite Hs, Hw, Hr. reflexivity. Qed.

(** ... and goes on to the next one after no match or a match out of
    range. *)
Lemma extract_from_skips (pattern : string) (factor : Q)
    (rest : list (string * Q)) (title_lower : string) :
  Re.search pattern title_lower = Return None
  \/ (exists m weight,
         Re.search pattern title_lower = Return (Some m)
         /\ match_weight pattern factor m = Return weight
         /\ out_of_range weight = true) ->
  extract_from ((pattern, factor) :: rest) title_lower
  = extract_from rest title_lower.
Proof.
  intros [Hs | (m & weight & Hs & Hw & Hr)]; cbn.
  - rewrite Hs. reflexivity.
  - rewrite Hs, Hw, Hr. reflexivity.
Qed.

(** The three patterns compile, with one, two and one group. *)
Example weight_patterns_compile :
  map (fun p => option_map snd (Re.compile (fst p))) WEIGHT_PATTERNS
  = [Some 1%nat; Some 2%nat; Some 1%nat].
Proof. vm_compute. reflexivity. Qed.


(** C2: what the extraction gives for the three titles.  The title with a
    fraction gets 10, not 0.1: the first pattern finds "10 oz" inside
    "1/10 oz" and its value is in range, so the fraction pattern is never
    tried.  The gram title gets 0.9999 and the title without a weight
    gets none, with the flag set. *)
Theorem extract_weight_titles :
  (exists w, _extract_weight "1/10 oz gold eagle" = Return (Some w, false)
             /\ w == 10)
  /\ (exists w, _extract_weight "31.1g silver bar" = Return (Some w, false)
                /\ w == 9999 # 10000)
  /\ _extract_weight "no weight here" = Return (None, true).
Proof.
  split; [|split].
  - eexists; split; [vm_compute; reflexivity | reflexivity].
  - eexists; split; [vm_compute; reflexivity | reflexivity].
  - vm_compute. reflexivity.
Qed.

(** The first pattern matches the denominator of the fraction. *)
Example first_pattern_on_fraction :
  match Re.search "(\d+(?:\.\d+)?)\s*(?:troy\s*)?(?:oz|ounce)(?:s)?"
                  "1/10 oz gold eagle" with
  | Return (Some m) => Re.group m 1
  | _ => None
  end = Some "10"%string.
Proof. vm_compute. reflexivity. Qed.

(** Left to itself, the fraction pattern gives the tenth of an ounce. *)
Example fraction_pattern_alone :
  exists w,
    extract_from [("(\d+)/(\d+)\s*(?:troy\s*)?(?:oz|ounce)(?:s)?"%string, 1)]
                 "1/10 oz gold eagle" = Return (Some w, false)
    /\ w == 1 # 10.
Proof. eexists; split; [vm_compute; reflexivity | reflexivity]. Qed.

(** C9: a listing can leave the parser with a weight that is present, not
    flagged, and zero: the range check is made before the rounding to
    four decimals, which takes a weight below 0.00005 to 0. *)
Theorem parse_item_zero_weight :
  exists l w,
    _parse_item Examples.dust_item "gold bullion" = Some l
    /\ weight_oz l = Some w
    /\ weight_extraction_failed l = false
    /\ w == 0.
Proof.
  eexists; eexists. split; [vm_compute; reflexivity|].
  split; [reflexivity|]. split; reflexivity.
Qed.

(** A dictionary whose keys are distinct and are the ids of its values
    stays so when a listing is put under its id. *)
Lemma dict_set_keys (l : Listing) (d : list (string * Listing)) :
  NoDup (map fst d) ->
  Forall (fun kv => external_id (snd kv) = fst kv) d ->
  NoDup (map fst (dict_set (external_id l) l d))
  /\ Forall (fun kv => external_id (snd kv) = fst kv)
            (dict_set (external_id l) l d)
  /\ (forall k, k ∈ map fst (dict_set (external_id l) l d)
                -> k = external_id l \/ k ∈ map fst d).
Proof.
  induction d as [|[k' v'] d IH]; intros Hnd Hall.
  - cbn. repeat split.
    + apply NoDup_singleton.
    + constructor; [reflexivity | constructor].
    + intros k Hk. apply list_elem_of_singleton in Hk. auto.
  - cbn in Hnd. apply NoDup_cons in Hnd as [Hnotin Hnd].
    inversion Hall as [|? ? Hkv Hall']; subst. cbn in Hkv.
    cbn [dict_set]. destruct (String.eqb k' (external_id l)) eqn:E.
    + apply String.eqb_eq in E. cbn. repeat split.
      * apply NoDup_cons; auto.
      * constructor; [cbn; congruence | exact Hall'].
      * intros k Hk. right. exact Hk.
    + destruct (IH Hnd Hall') as (IH1 & IH2 & IH3). cbn. repeat split.
      * apply NoDup_cons. split; [|exact IH1].
        intros Hin. destruct (IH3 _ Hin) as [->|Hin'].
        -- rewrite String.eqb_refl in E. discriminate.
        -- contradiction.
      * constructor; [exact Hkv | exact IH2].
      * intros k Hk. apply elem_of_cons in Hk as [->|Hk].
        -- right. left.
        -- destruct (IH3 _ Hk) as [->|Hin']; [left; reflexivity|].
           right. right. exact Hin'.
Qed.

(** The listings of a scrape carry distinct ids. *)
Lemma dedup_NoDup (all_listings : list Listing) :
  NoDup (map external_id (dedup all_listings)).
Proof.
  unfold dedup.
  assert (H : forall (ls : list Listing) (d : list (string * Listing)),
             NoDup (map fst d) ->
             Forall (fun kv => external_id (snd kv) = fst kv) d ->
             let d' := fold_left (fun d l => dict_set (external_id l) l d)
                                 ls d in
             NoDup (map fst d')
             /\ Forall (fun kv => external_id (snd kv) = fst kv) d').
  { induction ls as [|l ls IH]; intros d Hnd Hall; cbn; [auto|].
    destruct (dict_set_keys l d Hnd Hall) as (H1 & H2 & _).
    apply IH; assumption. }
  destruct (H all_listings [] (NoDup_nil_2 (A:=string)) (Forall_nil_2 _)) as [Hnd Hall].
  set (d := fold_left _ all_listings []) in *.
  replace (map external_id (map snd d)) with (map fst d); [exact Hnd|].
  clear Hnd. induction Hall as [|[k v] d' Hkv _ IH]; cbn in *; congruence.
Qed.

(** Of two raw records with the same id, the later one is kept. *)
Example dedup_last_wins :
  dedup [mkListing "ebay" "42" "1 oz gold bar" 1900 "gold" (Some 1%Q)
                   false "https://www.ebay.com/itm/42";
         mkListing "ebay" "7" "10 oz silver bar" 290 "silver" (Some 10%Q)
                   false "https://www.ebay.com/itm/7";
         mkListing "ebay" "42" "1 oz gold bar" 1850 "gold" (Some 1%Q)
                   false "https://www.ebay.com/itm/42"]
  = [mkListing "ebay" "42" "1 oz gold bar" 1850 "gold" (Some 1%Q)
               false "https://www.ebay.com/itm/42";
     mkListing "ebay" "7" "10 oz silver bar" 290 "silver" (Some 10%Q)
               false "https://www.ebay.com/itm/7"].
Proof. reflexivity. Qed.

End EbayProperties.

(** ** Resilient fetcher *)

Section BaseScraperProperties.

Import BaseScraper.

Variable self : Scraper.
Variables endpoint method : string.

Hypothesis Hmethod : supported method.

Lemma supported_call :
  (if String.eqb (Str.upper method) "GET" then http_call
   else if String.eqb (Str.upper method) "POST" then http_call
   else raise (ValueError ("Unsupported HTTP method: " ++ method)))
  = http_call.
Proof.
  destruct Hmethod as [-> | ->]; reflexivity.
Qed.

(** Run one attempt down to the network, the clock and the audit table. *)
Ltac run_attempt :=
  unfold attempt_once; rewrite supported_call;
  cbv beta iota delta [try_except bind http_call get put elapsed_ms
                       _log_api_call modify raise_for_status ret raise].

Lemma attempt_server_error (st : State) (r : Response) (d : Q)
    (rest : list (Outcome * Q)) (start_time : Q) (attempt : Z) :
  network st = (Responded r, d) :: rest ->
  audit_store_ok st = true ->
  500 <= status_code r < 600 ->
  attempt_once self endpoint method start_time attempt st
  = (Return (Again (http_error_text r)), received self endpoint st r d rest start_time).
Proof.
  intros Hn Ha Hs.
  run_attempt.
  rewrite Hn. cbn. rewrite Ha. cbn.
  replace (400 <=? status_code r) with true by lia.
  replace (status_code r <? 600) with true by lia.
  cbn.
  replace (status_code r <? 500) with false by lia.
  rewrite andb_false_r. reflexivity.
Qed.

Lemma attempt_success (st : State) (r : Response) (d : Q)
    (rest : list (Outcome * Q)) (start_time : Q) (attempt : Z) :
  network st = (Responded r, d) :: rest ->
  audit_store_ok st = true ->
  status_code r < 400 ->
  attempt_once self endpoint method start_time attempt st
  = (Return (Done r), received self endpoint st r d rest start_time).
Proof.
  intros Hn Ha Hs.
  run_attempt.
  rewrite Hn. cbn. rewrite Ha. cbn.
  replace (400 <=? status_code r) with false by lia.
  reflexivity.
Qed.

Lemma attempt_client_error (st : State) (r : Response) (d : Q)
    (rest : list (Outcome * Q)) (start_time : Q) (attempt : Z) :
  network st = (Responded r, d) :: rest ->
  audit_store_ok st = true ->
  400 <= status_code r < 500 ->
  let ms := int_trunc ((clock st + d - start_time) * 1000) in
  attempt_once self endpoint method start_time attempt st
  = (Raise (APIConnectionError (api_name self) (http_error_text r) attempt),
     mkState rest (clock st + d)%Q
             (api_call_logs st
                ++ [response_log self endpoint r ms; client_error_log self endpoint r ms])
             true (sleeps st)).
Proof.
  intros Hn Ha Hs ms.
  run_attempt.
  rewrite Hn. cbn. rewrite Ha. cbn.
  assert (E1 : (400 <=? status_code r) = true) by lia.
  assert (E2 : (status_code r <? 600) = true) by lia.
  assert (E3 : (status_code r <? 500) = true) by lia.
  rewrite E1, E2. cbn. rewrite E1, E3. cbn.
  rewrite <- app_assoc. reflexivity.
Qed.

Lemma attempts_retry (st st1 : State) (msg : string) (start_time : Q)
    (n : nat) (attempt : Z) (last_error : option string) :
  attempt_once self endpoint method start_time attempt st
  = (Return (Again msg), st1) ->
  attempt < retry_attempts self - 1 ->
  attempts self endpoint method start_time (S n) attempt last_error st
  = attempts self endpoint method start_time n (attempt + 1) (Some msg)
             (backed_off st1 (inject_Z (2 ^ attempt))).
Proof.
  intros Ha Hlt. cbn [attempts]. unfold bind at 1. rewrite Ha.
  replace (attempt <? retry_attempts self - 1) with true by lia.
  unfold bind at 1. reflexivity.
Qed.

(** C3, as the code has it: a request with a supported method and a
    working audit table, allowed at least four attempts, that meets three
    server errors and then a success returns that response after four
    attempts, with four audit records, one per attempt, and backoffs of
    1, 2 and 4 seconds.  A request whose first response is a client error
    fails at once with [APIConnectionError], makes no further attempt and
    no backoff, and writes two audit records: the record of the response
    and a record of the failure with its error text. *)
Theorem make_request_audit (st : State) :
  audit_store_ok st = true ->
  (forall r1 r2 r3 r4 d1 d2 d3 d4 rest,
      4 <= retry_attempts self ->
      network st = (Responded r1, d1) :: (Responded r2, d2)
                   :: (Responded r3, d3) :: (Responded r4, d4) :: rest ->
      500 <= status_code r1 < 600 ->
      500 <= status_code r2 < 600 ->
      500 <= status_code r3 < 600 ->
      status_code r4 < 400 ->
      exists st' t1 t2 t3 t4,
        make_request self endpoint method st = (Return r4, st')
        /\ network st' = rest
        /\ sleeps st' = (sleeps st ++ [1; 2; 4]%Q)%list
        /\ api_call_logs st'
           = (api_call_logs st
              ++ [response_log self endpoint r1 t1; response_log self endpoint r2 t2;
                  response_log self endpoint r3 t3; response_log self endpoint r4 t4])%list
        /\ log_success (response_log self endpoint r1 t1) = false
        /\ log_success (response_log self endpoint r2 t2) = false
        /\ log_success (response_log self endpoint r3 t3) = false
        /\ log_success (response_log self endpoint r4 t4) = true)
  /\ (forall r d rest,
        1 <= retry_attempts self ->
        network st = (Responded r, d) :: rest ->
        400 <= status_code r < 500 ->
        exists st' t,
          make_request self endpoint method st
          = (Raise (APIConnectionError (api_name self)
                                       (http_error_text r) 0), st')
          /\ network st' = rest
          /\ sleeps st' = sleeps st
          /\ api_call_logs st'
             = (api_call_logs st
                ++ [response_log self endpoint r t; client_error_log self endpoint r t])%list).
Proof.
  intros Ha. split.
  - intros r1 r2 r3 r4 d1 d2 d3 d4 rest Hn Hnet H1 H2 H3 H4.
    unfold make_request, bind at 1, get.
    destruct (Z.to_nat (retry_attempts self)) as [|[|[|[|n]]]] eqn:En;
      try lia.
    erewrite attempts_retry;
      [| apply attempt_server_error; eauto | lia].
    erewrite attempts_retry;
      [| apply attempt_server_error; cbn; eauto | lia].
    erewrite attempts_retry;
      [| apply attempt_server_error; cbn; eauto | lia].
    cbn [attempts]. unfold bind at 1.
    erewrite attempt_success; [| cbn; reflexivity | reflexivity | exact H4].
    do 5 eexists. split; [reflexivity|]. cbn.
    split; [reflexivity|]. split.
    { rewrite <- !app_assoc. reflexivity. }
    split.
    { rewrite <- !app_assoc. reflexivity. }
    unfold response_log; cbn.
    repeat split; lia.
  - intros r d rest Hn Hnet Hs.
    unfold make_request, bind at 1, get.
    destruct (Z.to_nat (retry_attempts self)) as [|n] eqn:En; [lia|].
    cbn [attempts]. unfold bind at 1.
    rewrite (attempt_client_error st r d rest (clock st) 0 Hnet Ha Hs).
    do 2 eexists. split; [reflexivity|]. cbn. auto.
Qed.

End BaseScraperProperties.

(** C3, the claim as stated, fails on a client error: the request that
    meets a 404 does not end with exactly one audit record (it ends with
    two). *)
Lemma make_request_client_error_records :
  ~ (exists e st',
        BaseScraper.make_request Examples.ebay_scraper "" "GET"
                                 Examples.not_found_network
        = (Raise e, st')
        /\ length (BaseScraper.api_call_logs st') = 1%nat).
Proof.
  intros (e & st' & Hrun & Hlen).
  vm_compute in Hrun. inversion Hrun; subst. discriminate Hlen.
Qed.

Lemma make_request_audit_witness :
  (exists st' t1 t2 t3 t4,
      BaseScraper.make_request Examples.ebay_scraper "" "GET"
                               Examples.flaky_network
      = (Return Examples.r200, st')
      /\ BaseScraper.network st' = []
      /\ BaseScraper.api_call_logs st'
         = [BaseScraper.response_log Examples.ebay_scraper "" Examples.r500 t1;
            BaseScraper.response_log Examples.ebay_scraper "" Examples.r503 t2;
            BaseScraper.response_log Examples.ebay_scraper "" Examples.r502 t3;
            BaseScraper.response_log Examples.ebay_scraper "" Examples.r200 t4])
  /\ (exists st' t,
         BaseScraper.make_request Examples.ebay_scraper "" "GET"
                                  Examples.not_found_network
         = (Raise (APIConnectionError "ebay" "HTTP 404: Not Found" 0), st')
         /\ BaseScraper.network st' = []
         /\ BaseScraper.api_call_logs st'
            = [BaseScraper.response_log Examples.ebay_scraper ""
                                        Examples.r404 t;
               BaseScraper.client_error_log Examples.ebay_scraper ""
                                            Examples.r404 t]).
Proof.
  split.
  - destruct (make_request_audit Examples.ebay_scraper "" "GET"
                (or_introl eq_refl) Examples.flaky_network eq_refl)
      as [Hretry _].
    destruct (Hretry Examples.r500 Examples.r503 Examples.r502 Examples.r200
                     (1 # 10)%Q (1 # 10)%Q (1 # 10)%Q (1 # 10)%Q [])
      as (st' & t1 & t2 & t3 & t4 & Hrun & Hnet & _ & Hlogs & _);
      [ vm_compute; discriminate | reflexivity
      | cbn; lia | cbn; lia | cbn; lia | cbn; lia | ].
    exists st', t1, t2, t3, t4. auto.
  - destruct (make_request_audit Examples.ebay_scraper "" "GET"
                (or_introl eq_refl) Examples.not_found_network eq_refl)
      as [_ Hclient].
    destruct (Hclient Examples.r404 (1 # 10)%Q [])
      as (st' & t & Hrun & Hnet & _ & Hlogs);
      [ vm_compute; discriminate | reflexivity | cbn; lia | ].
    exists st', t. auto.
Defined.

(** ** Scan orchestrator *)

Section MainProperties.

Import Ebay Main.

(** Run one pass of the loop down to the store and the local variables. *)
Ltac run_pass :=
  cbv beta iota delta [process_listing upsert_listing try_except bind get
                       put ret raise modify set_row incr_deals_found
                       commit rollback errors_append].


Lemma Qle_bool_false (x y : Q) : Qle_bool x y = false <-> (y < x)%Q.
Proof.
  split; intros H.
  - apply Qnot_le_lt. intros Hle. apply Qle_bool_iff in Hle. congruence.
  - destruct (Qle_bool x y) eqn:E; [|reflexivity].
    apply Qle_bool_iff in E. apply Qlt_not_le in H. contradiction.
Qed.

Lemma is_deal_iff (spread : option Q) :
  is_deal spread = true <-> exists s, spread = Some s /\ (0 < s)%Q.
Proof.
  destruct spread as [s|]; cbn.
  - rewrite andb_true_iff, !negb_true_iff, Qle_bool_false. split.
    + intros [_ H]. eauto.
    + intros (s' & [= <-] & H). split; [|exact H].
      destruct (Qeq_bool s 0) eqn:E; [|reflexivity].
      apply Qeq_bool_iff in E. rewrite E in H. inversion H.
  - split; [discriminate | intros (s & [=] & _)].
Qed.



(** What one pass of the loop leaves behind: it never raises, uses up one
    commit, adds an entry to the error list exactly when that commit
    fails, and counts the listing if it is a deal. *)
Lemma process_listing_effect (clk : Clock) (spot : gmap string Q)
    (l : Listing) (st : State) :
  fst (process_listing clk spot l st) = Return tt
  /\ commits (world (snd (process_listing clk spot l st)))
     = drop 1 (commits (world st))
  /\ errors (locals (snd (process_listing clk spot l st)))
     = (errors (locals st)
        ++ commit_errors (take 1 (commits (world st))))%list
  /\ listings_found (locals (snd (process_listing clk spot l st)))
     = listings_found (locals st)
  /\ deals_found (locals (snd (process_listing clk spot l st)))
     = deals_found (locals st) + (if counts_as_deal spot l then 1 else 0).
Proof.
  unfold counts_as_deal.
  run_pass.
  destruct (listing_spread spot l) as [spread|];
    [destruct (is_deal spread)|];
    cbn; destruct (commits (world st)) as [|[e|] cs]; cbn;
    rewrite ?app_nil_r, ?Z.add_0_r; repeat split; reflexivity.
Qed.

Lemma commit_errors_app (a b : list (option exn)) :
  commit_errors (a ++ b) = (commit_errors a ++ commit_errors b)%list.
Proof.
  induction a as [|[e|] a IH]; cbn; [reflexivity| |exact IH].
  rewrite IH. reflexivity.
Qed.

Lemma process_listings_effect (clk : Clock) (spot : gmap string Q)
    (ls : list Listing) :
  forall st : State,
  fst (process_listings clk spot ls st) = Return tt
  /\ commits (world (snd (process_listings clk spot ls st)))
     = drop (length ls) (commits (world st))
  /\ errors (locals (snd (process_listings clk spot ls st)))
     = (errors (locals st)
        ++ commit_errors (take (length ls) (commits (world st))))%list
  /\ listings_found (locals (snd (process_listings clk spot ls st)))
     = listings_found (locals st)
  /\ deals_found (locals (snd (process_listings clk spot ls st)))
     = deals_found (locals st) + count_deals spot ls.
Proof.
  induction ls as [|l ls IH]; intros st.
  - cbn. rewrite app_nil_r, drop_0. unfold count_deals; cbn.
    repeat split; try reflexivity. lia.
  - cbn [process_listings]. unfold bind.
    destruct (process_listing_effect clk spot l st)
      as (Hr & Hc & He & Hl & Hd).
    destruct (process_listing clk spot l st) as [r st1]. cbn in *. subst r.
    destruct (IH st1) as (Hr' & Hc' & He' & Hl' & Hd').
    split; [exact Hr'|]. split; [|split; [|split]].
    + rewrite Hc', Hc, drop_drop. reflexivity.
    + rewrite He', He, Hc, <- app_assoc, <- commit_errors_app.
      f_equal. f_equal.
      destruct (commits (world st)) as [|c cs]; cbn;
        rewrite ?take_nil, ?drop_0; reflexivity.
    + congruence.
    + rewrite Hd', Hd. unfold count_deals. cbn [List.filter].
      destruct (counts_as_deal spot l); cbn [length]; lia.
Qed.



(** A pass whose commit goes through leaves the listing stored, with the
    price of the listing and the time of the pass. *)
Lemma process_listing_stored (clk : Clock) (spot : gmap string Q)
    (l : Listing) (st : State) :
  commit_succeeds (commits (world st)) 0 ->
  exists row,
    persisted (db (world (snd (process_listing clk spot l st))))
      !! external_id l = Some row
    /\ working (db (world (snd (process_listing clk spot l st))))
         !! external_id l = Some row
    /\ price (data row) = price l
    /\ fetched_at row = utcnow clk
    /\ spread_percentage row
       = spread_after spot l (working (db (world st)) !! external_id l).
Proof.
  intros Hok.
  run_pass.
  destruct (commits (world st)) as [|[e|] cs] eqn:Ec.
  2: { exfalso. apply (Hok e). reflexivity. }
  all: unfold spread_after;
    destruct (listing_spread spot l) as [spread|];
    [destruct (is_deal spread)| ];
    cbn; rewrite ?Ec; cbn; rewrite ?lookup_insert_eq;
    destruct (working (db (world st)) !! external_id l);
    eexists; repeat split; reflexivity.
Qed.

(** A pass over another listing leaves a stored row as it is. *)
Lemma process_listing_keeps (clk : Clock) (spot : gmap string Q)
    (l : Listing) (st : State) (k : string) (row : ListingRow) :
  external_id l <> k ->
  persisted (db (world st)) !! k = Some row ->
  working (db (world st)) !! k = Some row ->
  persisted (db (world (snd (process_listing clk spot l st)))) !! k = Some row
  /\ working (db (world (snd (process_listing clk spot l st)))) !! k
     = Some row.
Proof.
  intros Hne Hp Hw.
  run_pass.
  destruct (listing_spread spot l) as [spread|];
    [destruct (is_deal spread)| ];
    cbn; destruct (commits (world st)) as [|[e|] cs]; cbn;
    rewrite ?lookup_insert_ne by exact Hne; auto.
Qed.

Lemma process_listings_keep (clk : Clock) (spot : gmap string Q)
    (k : string) (row : ListingRow) (ls : list Listing) :
  forall st : State,
  k ∉ map external_id ls ->
  persisted (db (world st)) !! k = Some row ->
  working (db (world st)) !! k = Some row ->
  persisted (db (world (snd (process_listings clk spot ls st)))) !! k
  = Some row.
Proof.
  induction ls as [|l ls IH]; intros st Hk Hp Hw; [exact Hp|].
  cbn [process_listings]. unfold bind.
  destruct (process_listing_effect clk spot l st) as (Hr & _).
  destruct (process_listing_keeps clk spot l st k row) as [Hp1 Hw1]; auto.
  { intros E. apply Hk. cbn. rewrite E. left. }
  destruct (process_listing clk spot l st) as [r st1]. cbn in *. subst r.
  apply IH; auto. intros Hin. apply Hk. right. exact Hin.
Qed.

Lemma process_listings_stored (clk : Clock) (spot : gmap string Q)
    (ls : list Listing) :
  forall (st : State) (i : nat) (l : Listing),
  NoDup (map external_id ls) ->
  ls !! i = Some l ->
  commit_succeeds (commits (world st)) i ->
  exists row,
    persisted (db (world (snd (process_listings clk spot ls st))))
      !! external_id l = Some row
    /\ price (data row) = price l
    /\ fetched_at row = utcnow clk.
Proof.
  induction ls as [|l0 ls IH]; intros st i l Hnd Hi Hok; [discriminate|].
  cbn in Hnd. apply NoDup_cons in Hnd as [Hnotin Hnd].
  cbn [process_listings]. unfold bind.
  destruct (process_listing_effect clk spot l0 st) as (Hr & Hc & _).
  destruct i as [|i]; cbn in Hi.
  - inversion Hi; subst l0.
    destruct (process_listing_stored clk spot l st Hok)
      as (row & Hp & Hw & Hprice & Hat & _).
    destruct (process_listing clk spot l st) as [r st1]. cbn in *. subst r.
    exists row. split; [|auto].
    apply process_listings_keep; auto.
  - destruct (process_listing clk spot l0 st) as [r st1]. cbn in *. subst r.
    apply (IH st1 i l Hnd Hi).
    intros e. rewrite Hc, lookup_drop. apply Hok.
Qed.

(** C8: a scan's result says it failed exactly when its error list is not
    empty.  When the spot prices and the listings have been obtained, a
    failure while a listing is processed is caught on the spot: the loop
    goes through every listing (each uses up one commit), the error list
    holds one entry per failed listing after the entry for missing spot
    prices, the counts of listings and of deals are returned all the
    same, and every listing whose commit went through is stored with its
    price, wherever in the batch the failures were. *)
Theorem perform_scan_best_effort
    (get_spot_prices : M World (gmap string Q))
    (scrape : M World (list Listing)) (clk : Clock) (w : World) :
  let out := perform_scan get_spot_prices scrape clk w in
  (success (fst out) = false <-> r_errors (fst out) <> [])
  /\ (forall spot w1 ls w2,
        get_spot_prices w = (Return spot, w1) ->
        scrape w1 = (Return ls, w2) ->
        r_listings_found (fst out) = Z.of_nat (length ls)
        /\ r_deals_found (fst out) = count_deals spot ls
        /\ r_errors (fst out)
           = (spot_errors spot
              ++ commit_errors (take (length ls) (commits w2)))%list
        /\ commits (snd out) = drop (length ls) (commits w2)
        /\ (NoDup (map external_id ls) ->
            forall i l, ls !! i = Some l ->
                        commit_succeeds (commits w2) i ->
                        exists row,
                          persisted (db (snd out)) !! external_id l
                          = Some row
                          /\ price (data row) = price l
                          /\ fetched_at row = utcnow clk)).
Proof.
  intros out. split.
  - unfold out, perform_scan.
    destruct (try_except _ _ _) as [r st]. cbn.
    destruct (errors (locals st)); split; congruence.
  - intros spot w1 ls w2 Hs Hl.
    unfold out, perform_scan.
    cbv beta iota delta [try_except bind on_world world locals].
    rewrite Hs. cbv beta iota.
    set (st1 := (if negb (truthyQ (spot !! "gold"))
                    || negb (truthyQ (spot !! "silver"))
                 then errors_append "Failed to fetch spot prices"
                 else ret tt) (mkState w1 (mkLocals [] 0 0))).
    assert (Hst1 : st1 = (Return tt,
                          mkState w1 (mkLocals (spot_errors spot) 0 0))).
    { unfold st1, spot_errors.
      destruct (_ || _); reflexivity. }
    rewrite Hst1. cbv beta iota. rewrite Hl. cbv beta iota.
    unfold set_listings_found, modify. cbv beta iota.
    match goal with
    | |- context [process_listings clk spot ls ?s] =>
        destruct (process_listings_effect clk spot ls s)
          as (Hr & Hc & He & Hf & Hd);
        pose proof (process_listings_stored clk spot ls s) as Hstored;
        destruct (process_listings clk spot ls s) as [r st2]
    end.
    cbn in *. subst r. cbn.
    repeat split; auto.
    intros Hnd i l Hi Hok. apply (Hstored i l Hnd Hi Hok).
Qed.

End MainProperties.


Lemma perform_scan_best_effort_witness :
  let out := Main.perform_scan (ret Examples.spot_2000) (ret Examples.batch)
                               Examples.scan_clock Examples.shaky_world in
  Main.success (fst out) = false
  /\ Main.r_listings_found (fst out) = 3
  /\ Main.r_deals_found (fst out) = 1
  /\ Main.r_errors (fst out)
     = ["Listing processing error: database is locked"]
  /\ Main.commits (snd out) = []
  /\ (exists row,
         Main.persisted (Main.db (snd out)) !! "225103" = Some row
         /\ Ebay.price (Main.data row) = 60%Q).
Proof.
  intros out.
  destruct (perform_scan_best_effort
              (ret Examples.spot_2000) (ret Examples.batch)
              Examples.scan_clock Examples.shaky_world)
    as [Hflag Hbatch].
  destruct (Hbatch Examples.spot_2000 Examples.shaky_world Examples.batch
                   Examples.shaky_world eq_refl eq_refl)
    as (Hfound & Hdeals & Herrors & Hcommits & Hstored).
  fold out in Hflag, Hfound, Hdeals, Herrors, Hcommits, Hstored.
  split; [apply Hflag; rewrite Herrors; vm_compute; discriminate|].
  split; [exact Hfound|]. split; [exact Hdeals|].
  split; [exact Herrors|]. split; [exact Hcommits|].
  destruct (Hstored ltac:(compute_done) 2%nat
              (Ebay.mkListing "ebay" "225103" "Silver round, weight unknown"
                              60 "silver" None true
                              "https://www.ebay.com/itm/225103"))
    as (row & Hrow & Hprice & _).
  - vm_compute. reflexivity.
  - intros e. vm_compute. discriminate.
  - exists row. split; [exact Hrow | exact Hprice].
Defined.

(** * Further properties *)

(** ** Dates *)

Section DatetimeProperties.

Lemma lex_refl (a : list Z) : lex a a = Eq.
Proof. induction a as [|x a IH]; cbn; [|rewrite Z.compare_refl]; auto. Qed.

Lemma lex_lt_trans (a : list Z) :
  forall b c, lex a b = Lt -> lex b c = Lt -> lex a c = Lt.
Proof.
  induction a as [|x a IH]; intros [|y b] [|z c]; cbn; try discriminate; auto.
  intros H1 H2.
  destruct (Z.compare_spec x y) as [Exy|Exy|Exy]; try discriminate;
    destruct (Z.compare_spec y z) as [Eyz|Eyz|Eyz]; try discriminate.
  - subst. rewrite Z.compare_refl. eauto.
  - subst. apply Z.compare_lt_iff in Eyz. rewrite Eyz. reflexivity.
  - subst. apply Z.compare_lt_iff in Exy. rewrite Exy. reflexivity.
  - assert (E : x < z) by lia. apply Z.compare_lt_iff in E.
    rewrite E. reflexivity.
Qed.

Lemma geb_refl (a : datetime) : geb a a = true.
Proof. unfold geb, Datetime.compare. rewrite lex_refl. reflexivity. Qed.

Lemma ltb_trans (a b c : datetime) :
  ltb a b = true -> ltb b c = true -> ltb a c = true.
Proof.
  unfold ltb, Datetime.compare. intros H1 H2.
  destruct (lex (fields a) (fields b)) eqn:E1; try discriminate.
  destruct (lex (fields b) (fields c)) eqn:E2; try discriminate.
  rewrite (lex_lt_trans _ _ _ E1 E2). reflexivity.
Qed.

(** A time that is later than one that has reached a deadline has
    reached the deadline too. *)
Lemma geb_ltb_trans (now old new : datetime) :
  geb now old = true -> ltb now new = true -> geb new old = true.
Proof.
  intros H1 H2. rewrite geb_ltb in *.
  destruct (ltb new old) eqn:E; [|reflexivity].
  rewrite (ltb_trans _ _ _ H2 E) in H1. discriminate.
Qed.

(** The day after is later. *)
Lemma next_day_later (d r : datetime) :
  next_day d = Return r -> ltb d r = true.
Proof.
  unfold next_day. intros H.
  destruct (day d <? _); [|destruct (month d <? 12);
                            [|destruct (year d <? MAXYEAR); [|discriminate]]];
    inversion H; subst; unfold ltb, Datetime.compare, fields; cbn;
    rewrite ?Z.compare_refl.
  - replace (day d ?= day d + 1) with Lt
      by (symmetry; apply Z.compare_lt_iff; lia). reflexivity.
  - replace (month d ?= month d + 1) with Lt
      by (symmetry; apply Z.compare_lt_iff; lia). reflexivity.
  - replace (year d ?= year d + 1) with Lt
      by (symmetry; apply Z.compare_lt_iff; lia). reflexivity.
Qed.

Lemma valid_all_fields (d : datetime) :
  valid d = true ->
  1 <= year d <= 9999 /\ 1 <= month d <= 12
  /\ 1 <= day d <= days_in_month (year d) (month d)
  /\ 0 <= hour d <= 23 /\ 0 <= minute d <= 59 /\ 0 <= second d <= 59
  /\ 0 <= microsecond d <= 999999.
Proof.
  unfold valid, MINYEAR, MAXYEAR. intros H.
  repeat (apply andb_prop in H; destruct H as [H ?]). lia.
Qed.

Lemma leap_year_length (y : Z) :
  days_before_year (y + 1)
  = days_before_year y + 365 + (if is_leap y then 1 else 0).
Proof.
  unfold days_before_year, is_leap.
  replace (y + 1 - 1) with y by lia.
  destruct (y mod 4 =? 0) eqn:E4; destruct (y mod 100 =? 0) eqn:E100;
    destruct (y mod 400 =? 0) eqn:E400; cbn;
    apply Z.eqb_eq in E4 || apply Z.eqb_neq in E4;
    apply Z.eqb_eq in E100 || apply Z.eqb_neq in E100;
    apply Z.eqb_eq in E400 || apply Z.eqb_neq in E400;
    Z.div_mod_to_equations; lia.
Qed.

(** The ordinal of the day after is one more: the calendar step and the
    day count agree. *)
Lemma toordinal_next_day (d r : datetime) :
  valid d = true -> next_day d = Return r ->
  toordinal r = toordinal d + 1.
Proof.
  intros Hv H. destruct (valid_all_fields d Hv) as (Hy & Hm & Hd & _).
  unfold next_day in H.
  destruct (day d <? days_in_month (year d) (month d)) eqn:Ed.
  { inversion H; subst. unfold toordinal; cbn. lia. }
  assert (Hlast : day d = days_in_month (year d) (month d)) by lia.
  destruct (month d <? 12) eqn:Em.
  { inversion H; subst. unfold toordinal; cbn. rewrite Hlast.
    unfold days_before_month, days_in_month.
    assert (Hcases : month d = 1 \/ month d = 2 \/ month d = 3
                     \/ month d = 4 \/ month d = 5 \/ month d = 6
                     \/ month d = 7 \/ month d = 8 \/ month d = 9
                     \/ month d = 10 \/ month d = 11) by lia.
    destruct (is_leap (year d));
      decompose [or] Hcases;
      match goal with E : month d = _ |- _ => rewrite E end;
      simpl; lia. }
  destruct (year d <? MAXYEAR); [|discriminate].
  inversion H; subst. unfold toordinal; cbn.
  assert (Hm12 : month d = 12) by lia.
  rewrite Hlast, Hm12, leap_year_length.
  unfold days_before_month, days_in_month. simpl.
  destruct (is_leap (year d)); simpl; lia.
Qed.

Lemma lex_lt_split (a : list Z) :
  forall b c, length a = length b ->
              lex a c = Lt -> lex a b = Lt \/ lex b c = Lt.
Proof.
  induction a as [|x a IH]; intros [|y b] [|z c] Hlen; cbn;
    try discriminate; auto.
  injection Hlen as Hlen. intros H.
  destruct (Z.compare_spec x z) as [Exz|Exz|Exz]; try discriminate.
  - subst z.
    destruct (Z.compare_spec x y) as [Exy|Exy|Exy]; auto.
    + subst y. rewrite Z.compare_refl. eauto.
    + right. apply Z.compare_lt_iff in Exy. rewrite Exy. reflexivity.
  - destruct (Z.compare_spec x y) as [Exy|Exy|Exy]; auto.
    + subst y. right. apply Z.compare_lt_iff in Exz. rewrite Exz.
      reflexivity.
    + right. assert (E : y < z) by lia. apply Z.compare_lt_iff in E.
      rewrite E. reflexivity.
Qed.

(** The order on datetimes is a weak order: what is earlier than [c] is
    earlier than [b], or [b] is earlier than [c]. *)
Lemma ltb_split (a b c : datetime) :
  ltb a c = true -> ltb a b = true \/ ltb b c = true.
Proof.
  unfold ltb, Datetime.compare. intros H.
  destruct (lex (fields a) (fields c)) eqn:E; try discriminate.
  destruct (lex_lt_split (fields a) (fields b) (fields c) eq_refl E)
    as [-> | ->]; auto.
Qed.

Lemma geb_trans (a b c : datetime) :
  geb a b = true -> geb b c = true -> geb a c = true.
Proof.
  rewrite !geb_ltb. intros H1 H2.
  destruct (ltb a c) eqn:E; [|reflexivity].
  destruct (ltb_split a b c E) as [H | H]; rewrite H in *; discriminate.
Qed.

(** On one day, the order of two datetimes is the order of their times
    of day. *)
Lemma same_day_ltb (a b : datetime) :
  valid a = true -> valid b = true ->
  year a = year b -> month a = month b -> day a = day b ->
  ltb a b = (micros_of_day a <? micros_of_day b).
Proof.
  intros Ha Hb Hy Hm Hd.
  destruct (valid_all_fields a Ha) as (_ & _ & _ & Hah & Hami & Has & Haus).
  destruct (valid_all_fields b Hb) as (_ & _ & _ & Hbh & Hbmi & Hbs & Hbus).
  unfold ltb, Datetime.compare, fields, micros_of_day; cbn.
  rewrite Hy, Hm, Hd, !Z.compare_refl.
  destruct (Z.compare_spec (hour a) (hour b));
    [destruct (Z.compare_spec (minute a) (minute b));
     [destruct (Z.compare_spec (second a) (second b));
      [destruct (Z.compare_spec (microsecond a) (microsecond b))| |]| |]| |];
    symmetry; lia.
Qed.

(** A well-formed time is not before the midnight of its day, nor before
    the midnight that begins its month. *)
Lemma geb_midnight (now : datetime) :
  valid now = true ->
  geb now (replace_time now 0 0 0 (microsecond now)) = true
  /\ geb now (Datetime.mk (year now) (month now) 1 0 0 0
                          (microsecond now)) = true.
Proof.
  intros Hv.
  destruct (valid_all_fields now Hv) as (_ & _ & Hd & Hh & Hmi & Hs & _).
  unfold geb, Datetime.compare, fields, replace_time; cbn.
  rewrite !Z.compare_refl.
  split.
  - destruct (Z.compare_spec (hour now) 0); try lia;
      destruct (Z.compare_spec (minute now) 0); try lia;
      destruct (Z.compare_spec (second now) 0); try lia; reflexivity.
  - destruct (Z.compare_spec (day now) 1); try lia; try reflexivity.
    destruct (Z.compare_spec (hour now) 0); try lia;
      destruct (Z.compare_spec (minute now) 0); try lia;
      destruct (Z.compare_spec (second now) 0); try lia; reflexivity.
Qed.

End DatetimeProperties.

(** ** Rate limiter: rollover, invariants, spacing *)

Section RateLimiterInvariants.

Import RateLimiter.

(** The midnight after the clock's day exists and is later than the
    clock. *)
Lemma next_midnight (now : datetime) :
  year now < MAXYEAR ->
  exists r,
    next_day (replace_time now 0 0 0 (microsecond now)) = Return r
    /\ ltb now r = true
    /\ hour r = 0 /\ minute r = 0 /\ second r = 0
    /\ microsecond r = microsecond now.
Proof.
  intros Hy. unfold next_day. cbn.
  destruct (day now <? _) eqn:E1;
    [|destruct (month now <? 12) eqn:E2;
      [|destruct (year now <? MAXYEAR) eqn:E3; [|lia]]];
    eexists; (split; [reflexivity|]); cbn; (split; [|auto]);
    unfold ltb, Datetime.compare, fields; cbn; rewrite ?Z.compare_refl.
  - replace (day now ?= day now + 1) with Lt
      by (symmetry; apply Z.compare_lt_iff; lia). reflexivity.
  - replace (month now ?= month now + 1) with Lt
      by (symmetry; apply Z.compare_lt_iff; lia). reflexivity.
  - replace (year now ?= year now + 1) with Lt
      by (symmetry; apply Z.compare_lt_iff; lia). reflexivity.
Qed.

(** The first of the month after the clock's exists and is later than
    the clock. *)
Lemma next_month_start (now : datetime) :
  rollable now ->
  exists r,
    (if month now =? 12
     then make (year now + 1) 1 1 0 0 0 (microsecond now)
     else make (year now) (month now + 1) 1 0 0 0 (microsecond now))
    = Return r
    /\ ltb now r = true.
Proof.
  intros [Hv Hy]. unfold MAXYEAR in Hy.
  destruct (valid_all_fields now Hv) as (Hyr & Hmo & _ & _ & _ & _ & Hus).
  assert (Hok : forall y m, 1 <= y <= 9999 -> 1 <= m <= 12 ->
                 valid (Datetime.mk y m 1 0 0 0 (microsecond now)) = true).
  { intros y m Hyy Hmm. unfold valid, MINYEAR, MAXYEAR; cbn.
    repeat (apply andb_true_intro; split); try lia.
    unfold days_in_month.
    repeat match goal with
           | |- context [if ?b then _ else _] => destruct b
           end; reflexivity. }
  destruct (month now =? 12) eqn:E; unfold make.
  - rewrite Hok by lia. eexists; split; [reflexivity|].
    unfold ltb, Datetime.compare, fields; cbn.
    replace (year now ?= year now + 1) with Lt
      by (symmetry; apply Z.compare_lt_iff; lia). reflexivity.
  - rewrite Hok by lia. eexists; split; [reflexivity|].
    unfold ltb, Datetime.compare, fields; cbn. rewrite Z.compare_refl.
    replace (month now ?= month now + 1) with Lt
      by (symmetry; apply Z.compare_lt_iff; lia). reflexivity.
Qed.

(** X1: The rollover of a daily-limited provider sets the daily counter to 0
    and moves [reset_at] to exactly one day after the midnight of the
    clock's day (the microseconds of the clock kept), which is later than
    the clock and between one second and 24 hours ahead of it. *)
Theorem daily_rollover (tr : RateLimitTracker) (now : datetime) :
  rollable now ->
  truthyZ (daily_limit tr) = true ->
  exists tr',
    _reset_tracker now tr = (Return tt, tr')
    /\ daily_calls_used tr' = 0
    /\ ltb now (reset_at tr') = true
    /\ sub_micros (reset_at tr')
                  (replace_time now 0 0 0 (microsecond now))
       = 86400000000
    /\ 1000000 <= sub_micros (reset_at tr') now <= 86400000000.
Proof.
  intros [Hv Hy] Hd.
  destruct (valid_all_fields now Hv) as (_ & _ & _ & Hh & Hmi & Hs & Hus).
  set (mid := replace_time now 0 0 0 (microsecond now)).
  assert (Hvm : valid mid = true).
  { unfold valid in *. cbn.
    repeat (apply andb_prop in Hv; destruct Hv as [Hv ?]).
    repeat (apply andb_true_intro; split); auto. }
  destruct (next_midnight now Hy)
    as (r & Hr & Hlt & Hrh & Hrm & Hrs & Hrus).
  fold mid in Hr.
  unfold _reset_tracker, bind, get, modify, lift. rewrite Hd.
  cbn [plus_days]. fold mid. rewrite Hr.
  eexists; split; [reflexivity|]. cbn.
  pose proof (toordinal_next_day mid r Hvm Hr) as Hord.
  assert (Hom : toordinal mid = toordinal now) by reflexivity.
  split; [reflexivity|]. split; [exact Hlt|]. split.
  - unfold sub_micros. rewrite Hord, Hrh, Hrm, Hrs, Hrus. cbn. lia.
  - unfold sub_micros. rewrite Hord, Hom, Hrh, Hrm, Hrs, Hrus. lia.
Qed.

Lemma daily_rollover_witness :
  exists tr',
    _reset_tracker Examples.december Examples.ebay_tracker = (Return tt, tr')
    /\ daily_calls_used tr' = 0
    /\ ltb Examples.december (reset_at tr') = true
    /\ sub_micros (reset_at tr')
                  (replace_time Examples.december 0 0 0
                                (microsecond Examples.december))
       = 86400000000
    /\ 1000000 <= sub_micros (reset_at tr') Examples.december
       <= 86400000000.
Proof.
  apply (daily_rollover Examples.ebay_tracker Examples.december).
  - split; [reflexivity | vm_compute; reflexivity].
  - reflexivity.
Defined.

(** What the rollover does to a tracker that has a limit. *)
Lemma reset_tracker_active (tr : RateLimitTracker) (now : datetime) (L : Z) :
  rollable now ->
  active_limit tr = Some L ->
  exists tr',
    _reset_tracker now tr = (Return tt, tr')
    /\ active_limit tr' = Some L
    /\ active_used tr' = 0
    /\ daily_limit tr' = daily_limit tr
    /\ monthly_limit tr' = monthly_limit tr
    /\ ltb now (reset_at tr') = true.
Proof.
  intros Hroll HL. unfold active_limit in HL.
  unfold _reset_tracker, bind, get, modify, lift.
  destruct (truthyZ (daily_limit tr)) eqn:Hd.
  - destruct (next_midnight now (proj2 Hroll)) as (r & Hr & Hlt & _).
    cbn [plus_days]. rewrite Hr.
    eexists; split; [reflexivity|].
    unfold active_limit, active_used; cbn. rewrite Hd. auto.
  - destruct (truthyZ (monthly_limit tr)) eqn:Hm; [|discriminate].
    destruct (next_month_start now Hroll) as (r & Hr & Hlt).
    rewrite Hr.
    eexists; split; [reflexivity|].
    unfold active_limit, active_used; cbn. rewrite Hd, Hm. auto.
Qed.

(** The state an allowed call leaves behind. *)
Lemma call_allowed (clk : Clock) (api : string) (st : State)
    (tr tr1 : RateLimitTracker) :
  working (db st) !! api = Some tr ->
  check_quota api (utcnow clk) tr = (Return tt, tr1) ->
  let slept := burst_sleep (last_call_time st !! api) (time clk) in
  let rows := <[api := set_last_call_at (Some (utcnow clk)) tr1]>
                (<[api := tr1]> (working (db st))) in
  check_and_increment clk api st
  = (Return true,
     mkState (mkSession rows rows)
             (<[api := time_after clk]> (last_call_time st))
             (match slept with
              | Some d => sleeps st ++ [d]
              | None => sleeps st
              end)).
Proof.
  intros Hw Hq. cbv zeta.
  unfold check_and_increment, bind at 1, get. rewrite Hw.
  cbv beta iota delta [try_except bind on_tracker get put ret commit].
  rewrite Hq. cbn. rewrite lookup_insert_eq. reflexivity.
Qed.

(** The state a refused call leaves behind: nothing is committed, and
    the burst protection is not reached. *)
Lemma call_refused (clk : Clock) (api : string) (st : State)
    (tr tr1 : RateLimitTracker) (e : exn) :
  working (db st) !! api = Some tr ->
  check_quota api (utcnow clk) tr = (Raise e, tr1) ->
  check_and_increment clk api st
  = (Raise e,
     mkState (mkSession (persisted (db st))
                        (match e with
                         | APIRateLimitError _ _ _ =>
                             <[api := tr1]> (working (db st))
                         | _ => persisted (db st)
                         end))
             (last_call_time st) (sleeps st)).
Proof.
  intros Hw Hq.
  unfold check_and_increment, bind at 1, get. rewrite Hw.
  cbv beta iota delta [try_except bind on_tracker get put ret commit].
  rewrite Hq. destruct e; reflexivity.
Qed.

(** The quota decision on a tracker that has a positive limit. *)
Lemma check_quota_active (api : string) (now : datetime)
    (tr : RateLimitTracker) (L : Z) :
  rollable now ->
  active_limit tr = Some L ->
  0 < L ->
  0 <= active_used tr <= L ->
  exists r tr1,
    check_quota api now tr = (r, tr1)
    /\ active_limit tr1 = Some L
    /\ 0 <= active_used tr1 <= L
    /\ geb (reset_at tr1) (reset_at tr) = true
    /\ (r = Return tt
        \/ r = Raise (APIRateLimitError api L (isoformat (reset_at tr1)))).
Proof.
  intros Hroll HL Hpos Hu.
  assert (Hstep : forall t : RateLimitTracker,
             active_limit t = Some L -> 0 <= active_used t <= L ->
             exists r t1,
               (tracker <- get ;;
                if truthyZ (daily_limit tracker) then
                  let limit := default 0 (daily_limit tracker) in
                  if daily_calls_used tracker >=? limit then
                    raise (APIRateLimitError
                             api limit (isoformat (reset_at tracker)))
                  else modify (set_daily_calls_used
                                 (daily_calls_used tracker + 1))
                else if truthyZ (monthly_limit tracker) then
                  let limit := default 0 (monthly_limit tracker) in
                  if monthly_calls_used tracker >=? limit then
                    raise (APIRateLimitError
                             api limit (isoformat (reset_at tracker)))
                  else modify (set_monthly_calls_used
                                 (monthly_calls_used tracker + 1))
                else ret tt)%py t = (r, t1)
               /\ active_limit t1 = Some L
               /\ 0 <= active_used t1 <= L
               /\ reset_at t1 = reset_at t
               /\ (r = Return tt
                   \/ r = Raise (APIRateLimitError
                                   api L (isoformat (reset_at t1))))).
  { intros t HLt Hut. unfold bind, get.
    unfold active_limit in HLt. unfold active_used in Hut.
    destruct (truthyZ (daily_limit t)) eqn:Hd.
    - rewrite HLt. cbn [default from_option id].
      destruct (daily_calls_used t >=? L) eqn:E.
      + do 2 eexists. split; [reflexivity|].
        unfold active_limit, active_used. rewrite Hd. auto.
      + do 2 eexists. split; [reflexivity|].
        unfold active_limit, active_used; cbn. rewrite Hd.
        repeat split; auto; lia.
    - destruct (truthyZ (monthly_limit t)) eqn:Hm; [|discriminate].
      rewrite HLt. cbn [default from_option id].
      destruct (monthly_calls_used t >=? L) eqn:E.
      + do 2 eexists. split; [reflexivity|].
        unfold active_limit, active_used. rewrite Hd, Hm. auto.
      + do 2 eexists. split; [reflexivity|].
        unfold active_limit, active_used; cbn. rewrite Hd, Hm.
        repeat split; auto; lia. }
  unfold check_quota, bind at 1, get at 1. cbv beta iota.
  destruct (geb now (reset_at tr)) eqn:Hdue.
  - destruct (reset_tracker_active tr now L Hroll HL)
      as (tr0 & Hrun & HL0 & Hu0 & _ & _ & Hlt).
    unfold bind at 1. rewrite Hrun. cbv beta iota.
    destruct (Hstep tr0 HL0) as (r & t1 & Hrun1 & HL1 & Hu1 & Hr1 & Hres);
      [lia|].
    exists r, t1. split; [exact Hrun1|]. repeat split; auto; try lia.
    rewrite Hr1. eapply geb_ltb_trans; eauto.
  - unfold bind at 1, ret at 1. cbv beta iota.
    destruct (Hstep tr HL Hu) as (r & t1 & Hrun1 & HL1 & Hu1 & Hr1 & Hres).
    exists r, t1. split; [exact Hrun1|]. repeat split; auto; try lia.
    rewrite Hr1. apply geb_refl.
Qed.

(** X2: Whatever the clock shows and whatever the call comes to, a tracker
    with a positive limit keeps its limit, its counter stays between 0
    and the limit, and its [reset_at] never moves backwards. *)
Theorem check_and_increment_keeps_quota
    (clk : Clock) (api : string) (st : State) (tr : RateLimitTracker)
    (L : Z) :
  rollable (utcnow clk) ->
  working (db st) !! api = Some tr ->
  active_limit tr = Some L ->
  0 < L ->
  0 <= active_used tr <= L ->
  exists tr',
    working (db (snd (check_and_increment clk api st))) !! api = Some tr'
    /\ active_limit tr' = Some L
    /\ 0 <= active_used tr' <= L
    /\ geb (reset_at tr') (reset_at tr) = true.
Proof.
  intros Hroll Hw HL Hpos Hu.
  destruct (check_quota_active api (utcnow clk) tr L Hroll HL Hpos Hu)
    as (r & tr1 & Hq & HL1 & Hu1 & Hr1 & [-> | ->]).
  - rewrite (call_allowed clk api st tr tr1 Hw Hq). cbn.
    rewrite lookup_insert_eq. eexists; split; [reflexivity|].
    unfold active_limit, active_used in *; cbn. auto.
  - rewrite (call_refused clk api st tr tr1 _ Hw Hq). cbn.
    rewrite lookup_insert_eq. exists tr1. auto.
Qed.

Lemma check_and_increment_keeps_quota_witness :
  exists tr',
    working (db (snd (check_and_increment
                        Examples.clock_c "ebay" Examples.ebay_state)))
      !! "ebay" = Some tr'
    /\ active_limit tr' = Some 2
    /\ 0 <= active_used tr' <= 2
    /\ geb (reset_at tr') (reset_at Examples.ebay_tracker) = true.
Proof.
  apply (check_and_increment_keeps_quota
           Examples.clock_c "ebay" Examples.ebay_state
           Examples.ebay_tracker 2).
  - split; [reflexivity | vm_compute; reflexivity].
  - reflexivity.
  - reflexivity.
  - lia.
  - vm_compute. split; discriminate.
Defined.

(** X3: A call that is refused for its quota commits nothing and never
    reaches the burst protection: the [APIRateLimitError] is raised
    before any sleep, and the committed rows, the recorded last-call
    times and the sleeps made are as before the call. *)
Theorem refused_call_leaves_no_trace
    (clk : Clock) (api api' : string) (st : State) (limit : Z)
    (reset : string) :
  fst (check_and_increment clk api st)
  = Raise (APIRateLimitError api' limit reset) ->
  let st' := snd (check_and_increment clk api st) in
  persisted (db st') = persisted (db st)
  /\ last_call_time st' = last_call_time st
  /\ sleeps st' = sleeps st.
Proof.
  intros Hraise.
  destruct (working (db st) !! api) as [tr|] eqn:Hw.
  - destruct (check_quota api (utcnow clk) tr) as [[[]|e'] tr1] eqn:Hq.
    + rewrite (call_allowed clk api st tr tr1 Hw Hq) in Hraise.
      discriminate.
    + rewrite (call_refused clk api st tr tr1 e' Hw Hq). cbn. auto.
  - unfold check_and_increment, bind, get in Hraise.
    rewrite Hw in Hraise. discriminate.
Qed.

(** X4: The burst protection of an allowed call.  The time recorded for the
    call is the clock's second reading, made after the sleep if there is
    one.  The call sleeps at most once, for a time above 0, and only
    when a previous call time other than 0 is recorded for the provider
    and the first reading is less than 0.2 seconds after it: a call made
    0.2 seconds or more after the previous one does not sleep. *)
Theorem burst_protection_spacing
    (clk : Clock) (api : string) (st : State) :
  fst (check_and_increment clk api st) = Return true ->
  is_Some (working (db st) !! api) ->
  let st' := snd (check_and_increment clk api st) in
  last_call_time st' !! api = Some (time_after clk)
  /\ (sleeps st' = sleeps st
      \/ exists last_call d,
           last_call_time st !! api = Some last_call
           /\ ~ (last_call == 0)%Q
           /\ (time clk - last_call < 2 # 10)%Q
           /\ (0 < d)%Q
           /\ sleeps st' = (sleeps st ++ [d])%list)
  /\ (forall last_call,
        last_call_time st !! api = Some last_call ->
        (last_call + (2 # 10) <= time clk)%Q ->
        sleeps st' = sleeps st).
Proof.
  intros Hok [tr Hw].
  destruct (check_quota api (utcnow clk) tr) as [[[]|e'] tr1] eqn:Hq.
  - rewrite (call_allowed clk api st tr tr1 Hw Hq). cbn.
    rewrite lookup_insert_eq. split; [reflexivity|].
    unfold burst_sleep, truthyQ.
    destruct (last_call_time st !! api) as [lc|] eqn:Hlast;
      [|split; [left; reflexivity | discriminate]].
    destruct (Qeq_bool lc 0) eqn:Ez; cbn;
      [split; [left; reflexivity | reflexivity]|].
    destruct (Qle_bool (2 # 10) (time clk - lc)) eqn:El; cbn;
      [split; [left; reflexivity | reflexivity]|].
    assert (Hlt : (time clk - lc < 2 # 10)%Q).
    { apply Qnot_le_lt. intros Hle. apply Qle_bool_iff in Hle.
      congruence. }
    split.
    + right. exists lc, ((2 # 10) - (time clk - lc))%Q.
      split; [reflexivity|]. split.
      { intros Hz. apply Qeq_bool_iff in Hz. congruence. }
      split; [exact Hlt|]. split; [lra | reflexivity].
    + intros last_call [= <-] Hle. exfalso. lra.
  - rewrite (call_refused clk api st tr tr1 e' Hw Hq) in Hok.
    discriminate.
Qed.

Lemma refused_call_leaves_no_trace_witness :
  let st' := snd (check_and_increment Examples.clock_b "ebay"
                                      Examples.ebay_used_up) in
  persisted (db st') = persisted (db Examples.ebay_used_up)
  /\ last_call_time st' = last_call_time Examples.ebay_used_up
  /\ sleeps st' = sleeps Examples.ebay_used_up.
Proof.
  apply (refused_call_leaves_no_trace
           Examples.clock_b "ebay" "ebay" Examples.ebay_used_up
           2 "2025-01-01T00:00:00").
  vm_compute. reflexivity.
Defined.

Lemma burst_protection_spacing_witness :
  let st' := snd (check_and_increment Examples.clock_b' "ebay"
                                      Examples.ebay_used_up) in
  last_call_time st' !! "ebay" = Some (time_after Examples.clock_b')
  /\ exists d,
       (0 < d)%Q
       /\ sleeps st' = (sleeps Examples.ebay_used_up ++ [d])%list.
Proof.
  destruct (burst_protection_spacing
              Examples.clock_b' "ebay" Examples.ebay_used_up)
    as (Hrec & [Hsame | (lc & d & _ & _ & _ & Hd & Hsleeps)] & _).
  - vm_compute. reflexivity.
  - eexists. vm_compute. reflexivity.
  - vm_compute in Hsame. discriminate.
  - split; [exact Hrec|]. exists d. split; [exact Hd | exact Hsleeps].
Defined.

(** X5: Before [reset_at], [get_status] changes nothing and reports the
    limit, the counter and what is left of the limit; at or after
    [reset_at] it rolls the tracker over, commits that, and reports a
    counter of 0 with the whole limit left.  (For a tracker whose other
    counter is 0, as the trackers of [init_db] are.) *)
Theorem get_status_reports
    (clk : Clock) (api : string) (st : State) (tr : RateLimitTracker)
    (L : Z) :
  working (db st) !! api = Some tr ->
  active_limit tr = Some L ->
  inactive_used tr = 0 ->
  (ltb (utcnow clk) (reset_at tr) = true ->
   get_status clk api st
   = (Return (Some (mkStatus api L (active_used tr) (L - active_used tr)
                             (round ((inject_Z (active_used tr)
                                      / inject_Z L) * 100) 2)
                             (reset_at tr) (last_call_at tr))), st))
  /\ (geb (utcnow clk) (reset_at tr) = true ->
      rollable (utcnow clk) ->
      exists s st' tr',
        get_status clk api st = (Return (Some s), st')
        /\ st_limit s = L /\ st_calls_used s = 0
        /\ st_calls_remaining s = L
        /\ ltb (utcnow clk) (st_reset_at s) = true
        /\ persisted (db st') !! api = Some tr'
        /\ active_used tr' = 0
        /\ reset_at tr' = st_reset_at s).
Proof.
  intros Hw HL Hin.
  assert (Hlim : forall t, active_limit t = Some L ->
                  orZ (daily_limit t) (monthly_limit t) = Some L
                  /\ L <> 0).
  { intros t Ht. unfold active_limit, orZ in *.
    destruct (truthyZ (daily_limit t)) eqn:Hd.
    - split; [exact Ht|]. rewrite Ht in Hd. cbn in Hd.
      destruct (L =? 0) eqn:E; [discriminate | lia].
    - destruct (truthyZ (monthly_limit t)) eqn:Hm; [|discriminate].
      split; [exact Ht|]. rewrite Ht in Hm. cbn in Hm.
      destruct (L =? 0) eqn:E; [discriminate | lia]. }
  assert (Hused : forall t, inactive_used t = 0 ->
                   or_int (daily_calls_used t) (monthly_calls_used t)
                   = active_used t).
  { intros t Ht. unfold inactive_used, active_used, or_int in *.
    destruct (truthyZ (daily_limit t)).
    - rewrite Ht. destruct (daily_calls_used t =? 0) eqn:E; lia.
    - rewrite Ht. reflexivity. }
  split.
  - intros Hbefore.
    unfold get_status, bind at 1, get at 1. rewrite Hw.
    rewrite geb_ltb, Hbefore. cbn [negb].
    cbv beta iota delta [bind ret get]. rewrite Hw.
    destruct (Hlim tr HL) as [-> Hnz]. rewrite (Hused tr Hin).
    replace (L =? 0) with false by lia. reflexivity.
  - intros Hdue Hroll.
    destruct (reset_tracker_active tr (utcnow clk) L Hroll HL)
      as (tr1 & Hrun & HL1 & Hu1 & Hdl & Hml & Hlt).
    assert (Hin1 : inactive_used tr1 = 0).
    { unfold _reset_tracker, bind, get, modify, lift in Hrun.
      unfold inactive_used in *.
      destruct (truthyZ (daily_limit tr)) eqn:Hd.
      - cbn [plus_days] in Hrun.
        destruct (next_day _); [|discriminate].
        inversion Hrun; subst tr1; cbn. rewrite Hd. exact Hin.
      - destruct (truthyZ (monthly_limit tr)) eqn:Hm;
          [|unfold active_limit in HL; rewrite Hd, Hm in HL; discriminate].
        destruct (if month (utcnow clk) =? 12 then _ else _);
          [|discriminate].
        inversion Hrun; subst tr1; cbn. rewrite Hd. exact Hin. }
    unfold get_status, bind at 1, get at 1. rewrite Hw. rewrite Hdue.
    cbv beta iota delta [bind ret get on_tracker modify commit].
    rewrite Hrun. cbn. rewrite lookup_insert_eq.
    destruct (Hlim tr1 HL1) as [-> Hnz]. rewrite (Hused tr1 Hin1), Hu1.
    replace (L =? 0) with false by lia.
    do 3 eexists. split; [reflexivity|]. cbn.
    rewrite lookup_insert_eq.
    repeat split; auto. lia.
Qed.

Lemma get_status_reports_witness :
  (ltb (utcnow Examples.clock_a) (reset_at Examples.ebay_tracker) = true ->
   get_status Examples.clock_a "ebay" Examples.ebay_state
   = (Return (Some (mkStatus "ebay" 2 (active_used Examples.ebay_tracker)
                             (2 - active_used Examples.ebay_tracker)
                             (round ((inject_Z (active_used
                                                  Examples.ebay_tracker)
                                      / inject_Z 2) * 100) 2)
                             (reset_at Examples.ebay_tracker)
                             (last_call_at Examples.ebay_tracker))),
      Examples.ebay_state))
  /\ (geb (utcnow Examples.clock_a) (reset_at Examples.ebay_tracker) = true ->
      rollable (utcnow Examples.clock_a) ->
      exists s st' tr',
        get_status Examples.clock_a "ebay" Examples.ebay_state
        = (Return (Some s), st')
        /\ st_limit s = 2 /\ st_calls_used s = 0
        /\ st_calls_remaining s = 2
        /\ ltb (utcnow Examples.clock_a) (st_reset_at s) = true
        /\ persisted (db st') !! "ebay" = Some tr'
        /\ active_used tr' = 0
        /\ reset_at tr' = st_reset_at s).
Proof.
  apply (get_status_reports Examples.clock_a "ebay" Examples.ebay_state
                            Examples.ebay_tracker 2);
    reflexivity.
Defined.

End RateLimiterInvariants.

(** ** Price cache: window policy, store and lookup, retention *)

Section PriceCacheFurther.

Import PriceCache.

Context {Env : Type}.
Variable settings : Settings.

(** X6: The window is the weekend duration on Saturday and Sunday, the
    market-hours duration from 9:30:00 to 16:00:00 local time (both ends
    included) on the other days, and the off-hours duration otherwise. *)
Theorem cache_window_policy (clk : Clock) :
  valid (now_et clk) = true ->
  get_cache_duration_minutes settings clk
  = if 5 <=? weekday (now_et clk) then CACHE_WEEKEND settings
    else if (34200000000 <=? micros_of_day (now_et clk))
            && (micros_of_day (now_et clk) <=? 57600000000)
         then CACHE_MARKET_HOURS settings
         else CACHE_OFF_HOURS settings.
Proof.
  intros Hv.
  destruct (valid_all_fields _ Hv) as (Hy & Hm & Hd & _).
  assert (Hvt : forall h mi, 0 <= h <= 23 -> 0 <= mi <= 59 ->
                 valid (replace_time (now_et clk) h mi 0 0) = true).
  { intros h mi Hh Hmi. unfold valid, MINYEAR, MAXYEAR; cbn.
    repeat (apply andb_true_intro; split); lia. }
  unfold get_cache_duration_minutes, is_market_hours.
  replace (weekday (now_et clk) >=? 5) with (5 <=? weekday (now_et clk))
    by lia.
  destruct (5 <=? weekday (now_et clk)); [reflexivity|].
  rewrite !geb_ltb.
  rewrite (same_day_ltb (now_et clk) (replace_time (now_et clk) 9 30 0 0))
    by (auto; apply Hvt; lia).
  rewrite (same_day_ltb (replace_time (now_et clk) 16 0 0 0) (now_et clk))
    by (auto; apply Hvt; lia).
  change (micros_of_day (replace_time (now_et clk) 9 30 0 0))
    with 34200000000.
  change (micros_of_day (replace_time (now_et clk) 16 0 0 0))
    with 57600000000.
  replace (negb (micros_of_day (now_et clk) <? 34200000000))
    with (34200000000 <=? micros_of_day (now_et clk)) by lia.
  replace (negb (57600000000 <? micros_of_day (now_et clk)))
    with (micros_of_day (now_et clk) <=? 57600000000) by lia.
  reflexivity.
Qed.

(** The latest of a list with one more row at its end. *)
Lemma latest_of_snoc (m : string) (new : SpotPrice) (rows : list SpotPrice) :
  forall best,
  latest_of m (rows ++ [new]) best
  = if String.eqb (metal_type new) m then
      match latest_of m rows best with
      | Some b => if ltb (fetched_at b) (fetched_at new)
                  then Some new else Some b
      | None => Some new
      end
    else latest_of m rows best.
Proof.
  induction rows as [|row rows IH]; intros best; cbn.
  - destruct (String.eqb (metal_type new) m); [|reflexivity].
    destruct best as [b|]; [|reflexivity].
    destruct (ltb _ _); reflexivity.
  - destruct (String.eqb (metal_type row) m); [|apply IH].
    destruct best as [b|]; [|apply IH].
    destruct (ltb (fetched_at b) (fetched_at row)); apply IH.
Qed.

(** X7: Store, then look up: once a price is stored, it is the latest price
    of its metal, provided the prices the metal had were fetched earlier;
    the latest price of any other metal is as before. *)
Theorem store_price_then_latest
    (clk : Clock) (m : string) (price : Q) (st : @State Env) :
  commit_error (store st) = None ->
  fetched_before (utcnow_after clk) (latest_price m (store st)) ->
  let st' := snd (store_price clk m price st) in
  fst (store_price clk m price st) = Return tt
  /\ latest_price m (store st')
     = Some (mkSpotPrice m price (utcnow_after clk))
  /\ (forall m', m' <> m ->
                 latest_price m' (store st') = latest_price m' (store st))
  /\ fetch_log st' = fetch_log st.
Proof.
  intros Hc Hold.
  unfold store_price, bind, get, put. rewrite Hc. cbn.
  split; [reflexivity|]. split; [|split; [|reflexivity]].
  - unfold latest_price in *. cbn [store spot_prices].
    rewrite latest_of_snoc. cbn [metal_type fetched_at].
    rewrite String.eqb_refl.
    destruct (latest_of m (spot_prices (store st)) None) as [b|];
      [|reflexivity].
    cbn [fetched_before] in Hold. rewrite Hold. reflexivity.
  - intros m' Hne. unfold latest_price. cbn. rewrite latest_of_snoc. cbn.
    destruct (String.eqb m m') eqn:E; [|reflexivity].
    apply String.eqb_eq in E. congruence.
Qed.

(** X8: Fetch, then serve from the cache: when there is no cached price or a
    stale one, the fetch function returns a price and the store takes it,
    the result is that price tagged as fresh (not from the cache, age 0),
    and a later lookup inside the window returns the same price from the
    cache without invoking the fetch function. *)
Theorem fetch_then_served_from_cache
    (clk clk2 : Clock) (m : string)
    (fetch_func fetch_func2 : string -> M (@Store Env) Q)
    (st : @State Env) (price : Q) (sto : @Store Env) :
  (forall latest,
      latest_price m (store st) = Some latest ->
      get_cache_duration_minutes settings clk <= age_minutes clk latest) ->
  fetch_func m (store st) = (Return price, sto) ->
  commit_error sto = None ->
  fetched_before (utcnow_after clk) (latest_price m sto) ->
  age_minutes clk2 (mkSpotPrice m price (utcnow_after clk))
  < get_cache_duration_minutes settings clk2 ->
  let st1 := snd (get_or_fetch_price settings clk m fetch_func st) in
  fst (get_or_fetch_price settings clk m fetch_func st)
  = Return (mkPrice price (utcnow_after clk) 0 false false false)
  /\ spot_prices (store st1)
     = (spot_prices sto ++ [mkSpotPrice m price (utcnow_after clk)])%list
  /\ get_or_fetch_price settings clk2 m fetch_func2 st1
     = (Return (mkPrice price (utcnow_after clk)
                        (age_minutes
                           clk2 (mkSpotPrice m price (utcnow_after clk)))
                        false true false), st1).
Proof.
  intros Hstale Hf Hc Hold Hage.
  assert (Hrun : get_or_fetch_price settings clk m fetch_func st
                 = (Return (mkPrice price (utcnow_after clk) 0
                                    false false false),
                    mkState
                      (mkStore (spot_prices sto
                                  ++ [mkSpotPrice m price (utcnow_after clk)])
                               None (env sto))
                      (fetch_log st ++ [m]))).
  { unfold get_or_fetch_price, bind at 1.
    rewrite get_cached_price_reads.
    assert (Hv : valid_cache
                   match latest_price m (store st) with
                   | Some latest =>
                       Some (mkCached (price_per_oz latest)
                               (fetched_at latest) (age_minutes clk latest)
                               (age_minutes clk latest
                                >=? get_cache_duration_minutes settings clk))
                   | None => None
                   end = None).
    { destruct (latest_price m (store st)) as [l|]; [|reflexivity].
      cbn. specialize (Hstale l eq_refl).
      destruct (_ >=? _) eqn:E; [reflexivity | lia]. }
    rewrite Hv.
    cbv beta iota delta [try_except bind call_fetch store_price get put ret].
    rewrite Hf. cbn. rewrite Hc. reflexivity. }
  rewrite Hrun. cbn [fst snd].
  split; [reflexivity|]. split; [reflexivity|].
  unfold get_or_fetch_price, bind at 1.
  rewrite get_cached_price_reads.
  unfold latest_price. cbn [store spot_prices].
  rewrite latest_of_snoc. cbn [metal_type]. rewrite String.eqb_refl.
  unfold latest_price in Hold.
  destruct (latest_of m (spot_prices sto) None) as [b|];
    cbn [fetched_before] in Hold.
  - cbn [fetched_at]. rewrite Hold. cbn.
    destruct (_ >=? _) eqn:E; [lia|]. reflexivity.
  - cbn. destruct (_ >=? _) eqn:E; [lia|]. reflexivity.
Qed.

(** X9: When the fetch function returns a price but the store refuses it,
    the outcome is that of a failed fetch: a stale cached price is
    returned as fallback, and with no cached price the store's exception
    reaches the caller.  No row is added; the fetch has been made. *)
Theorem store_failure_falls_back
    (clk : Clock) (m : string) (fetch_func : string -> M (@Store Env) Q)
    (st : @State Env) (price : Q) (sto : @Store Env) (e : exn) :
  fetch_func m (store st) = (Return price, sto) ->
  commit_error sto = Some e ->
  (forall latest,
      latest_price m (store st) = Some latest ->
      get_cache_duration_minutes settings clk <= age_minutes clk latest ->
      get_or_fetch_price settings clk m fetch_func st
      = (Return (mkPrice (price_per_oz latest) (fetched_at latest)
                         (age_minutes clk latest) true true true),
         mkState sto (fetch_log st ++ [m])))
  /\ (latest_price m (store st) = None ->
      get_or_fetch_price settings clk m fetch_func st
      = (Raise e, mkState sto (fetch_log st ++ [m]))).
Proof.
  intros Hf Hc. split.
  - intros latest Hl Hage.
    unfold get_or_fetch_price, bind at 1.
    rewrite get_cached_price_reads, Hl. cbn [valid_cache c_is_stale].
    destruct (age_minutes clk latest >=? _) eqn:E; [|lia].
    cbv beta iota delta [try_except bind call_fetch store_price get put
                         ret raise].
    rewrite Hf. cbn. rewrite Hc. reflexivity.
  - intros Hn.
    unfold get_or_fetch_price, bind at 1.
    rewrite get_cached_price_reads, Hn. cbn [valid_cache].
    cbv beta iota delta [try_except bind call_fetch store_price get put
                         ret raise].
    rewrite Hf. cbn. rewrite Hc. reflexivity.
Qed.

(** The latest price of the rows that a cutoff keeps. *)
Lemma latest_of_filter (m : string) (cutoff : datetime)
    (rows : list SpotPrice) :
  forall best,
  latest_of m (List.filter (fun row => negb (older_than cutoff row)) rows)
            (if_recent cutoff best)
  = if_recent cutoff (latest_of m rows best).
Proof.
  induction rows as [|row rows IH]; intros best; [reflexivity|].
  cbn [List.filter latest_of].
  destruct (older_than cutoff row) eqn:Eold; cbn [negb].
  - (* the row is deleted *)
    destruct (String.eqb (metal_type row) m); [|apply IH].
    destruct best as [b|].
    + destruct (ltb (fetched_at b) (fetched_at row)) eqn:Eb; [|apply IH].
      rewrite <- IH. f_equal. cbn. rewrite Eold.
      unfold older_than in *.
      rewrite (ltb_trans _ _ _ Eb Eold). reflexivity.
    + rewrite <- IH. cbn. rewrite Eold. reflexivity.
  - (* the row is kept *)
    cbn [latest_of].
    destruct (String.eqb (metal_type row) m); [|apply IH].
    destruct best as [b|]; cbn [if_recent].
    + destruct (older_than cutoff b) eqn:Ebo.
      * assert (Eb : ltb (fetched_at b) (fetched_at row) = true).
        { unfold older_than in *.
          destruct (ltb_split _ (fetched_at row) _ Ebo) as [H|H];
            [exact H | congruence]. }
        rewrite Eb, <- IH. cbn. rewrite Eold. reflexivity.
      * destruct (ltb (fetched_at b) (fetched_at row)); rewrite <- IH;
          cbn; rewrite ?Eold, ?Ebo; reflexivity.
    + rewrite <- IH. cbn. rewrite Eold. reflexivity.
Qed.

(** X10: The retention sweep and the cache: after a sweep the latest price of
    a metal is the one it had, unless that one was fetched before the
    cutoff, in which case the metal has no price left; the number
    returned is the number of rows that are gone, and no row that is left
    was fetched before the cutoff. *)
Theorem cleanup_keeps_recent_latest
    (clk : Clock) (days_to_keep : Z) (st : @State Env) (cutoff : datetime) :
  cutoff_of (utcnow clk) days_to_keep = Return cutoff ->
  commit_error (store st) = None ->
  exists deleted st',
    cleanup_old_prices clk days_to_keep st = (Return deleted, st')
    /\ (forall m, latest_price m (store st')
                  = if_recent cutoff (latest_price m (store st)))
    /\ Z.of_nat (length (spot_prices (store st')))
       = Z.of_nat (length (spot_prices (store st))) - deleted
    /\ 0 <= deleted
    /\ Forall (fun row => older_than cutoff row = false)
              (spot_prices (store st')).
Proof.
  intros Hcut Hc.
  unfold cleanup_old_prices, bind, lift, get, put, ret.
  rewrite Hcut, Hc. do 2 eexists. split; [reflexivity|]. cbn.
  split; [|split; [|split]].
  - intros m. unfold latest_price. cbn.
    apply (latest_of_filter m cutoff (spot_prices (store st)) None).
  - lia.
  - pose proof (filter_length_le
                  (fun row => negb (older_than cutoff row))
                  (spot_prices (store st))). lia.
  - apply List.Forall_forall. intros row Hin.
    apply filter_In in Hin. destruct Hin as [_ H].
    apply negb_true_iff in H. exact H.
Qed.

End PriceCacheFurther.

Lemma cache_window_policy_witness :
  PriceCache.get_cache_duration_minutes
    Examples.cache_settings Examples.tuesday_clock
  = 15.
Proof.
  exact (cache_window_policy Examples.cache_settings Examples.tuesday_clock
                             eq_refl).
Defined.

Lemma store_price_then_latest_witness :
  fst (PriceCache.store_price Examples.tuesday_clock "gold" 2700
                              Examples.fresh_cache) = Return tt
  /\ PriceCache.latest_price
       "gold"
       (PriceCache.store
          (snd (PriceCache.store_price Examples.tuesday_clock "gold" 2700
                                       Examples.fresh_cache)))
     = Some (PriceCache.mkSpotPrice "gold" 2700
                                    (Datetime.mk 2024 12 17 15 10 1 0))
  /\ PriceCache.latest_price
       "silver"
       (PriceCache.store
          (snd (PriceCache.store_price Examples.tuesday_clock "gold" 2700
                                       Examples.fresh_cache)))
     = None.
Proof.
  destruct (store_price_then_latest
              Examples.tuesday_clock "gold" 2700 Examples.fresh_cache
              eq_refl eq_refl) as (H1 & H2 & H3 & _).
  split; [exact H1 | split; [exact H2 |]].
  rewrite (H3 "silver"); [reflexivity | discriminate].
Defined.

Lemma fetch_then_served_from_cache_witness :
  fst (PriceCache.get_or_fetch_price
         Examples.cache_settings Examples.tuesday_clock "gold"
         Examples.working_fetch Examples.stale_cache)
  = Return (PriceCache.mkPrice 2700 (Datetime.mk 2024 12 17 15 10 1 0)
                               0 false false false)
  /\ PriceCache.get_or_fetch_price
       Examples.cache_settings Examples.tuesday_clock_later "gold"
       Examples.failing_fetch
       (snd (PriceCache.get_or_fetch_price
               Examples.cache_settings Examples.tuesday_clock "gold"
               Examples.working_fetch Examples.stale_cache))
     = (Return (PriceCache.mkPrice 2700 (Datetime.mk 2024 12 17 15 10 1 0)
                                   4 false true false),
        snd (PriceCache.get_or_fetch_price
               Examples.cache_settings Examples.tuesday_clock "gold"
               Examples.working_fetch Examples.stale_cache)).
Proof.
  assert (Hstale : forall latest,
             PriceCache.latest_price
               "gold" (PriceCache.store Examples.stale_cache) = Some latest ->
             PriceCache.get_cache_duration_minutes
               Examples.cache_settings Examples.tuesday_clock
             <= PriceCache.age_minutes Examples.tuesday_clock latest).
  { intros latest H. injection H as <-. vm_compute. discriminate. }
  destruct (fetch_then_served_from_cache
              Examples.cache_settings
              Examples.tuesday_clock Examples.tuesday_clock_later "gold"
              Examples.working_fetch Examples.failing_fetch
              Examples.stale_cache 2700
              (PriceCache.store Examples.stale_cache)
              Hstale eq_refl eq_refl eq_refl eq_refl) as (H1 & _ & H3).
  split; [exact H1 | exact H3].
Defined.

Lemma store_failure_falls_back_witness :
  PriceCache.get_or_fetch_price
    Examples.cache_settings Examples.tuesday_clock "gold"
    Examples.working_fetch Examples.refusing_cache
  = (Return (PriceCache.mkPrice 2640 (Datetime.mk 2024 12 17 13 0 0 0)
                                130 true true true),
     PriceCache.mkState Examples.refusing_store ["gold"])
  /\ PriceCache.get_or_fetch_price
       Examples.cache_settings Examples.tuesday_clock "gold"
       Examples.working_fetch Examples.refusing_empty_cache
     = (Raise Examples.locked,
        PriceCache.mkState Examples.refusing_empty_store ["gold"]).
Proof.
  split.
  - apply (proj1 (store_failure_falls_back
                    Examples.cache_settings Examples.tuesday_clock "gold"
                    Examples.working_fetch Examples.refusing_cache
                    2700 Examples.refusing_store Examples.locked
                    eq_refl eq_refl) Examples.gold_at_1300).
    + reflexivity.
    + vm_compute. discriminate.
  - apply (proj2 (store_failure_falls_back
                    Examples.cache_settings Examples.tuesday_clock "gold"
                    Examples.working_fetch Examples.refusing_empty_cache
                    2700 Examples.refusing_empty_store Examples.locked
                    eq_refl eq_refl)).
    reflexivity.
Defined.

Lemma cleanup_keeps_recent_latest_witness :
  exists deleted st',
    PriceCache.cleanup_old_prices Examples.next_tuesday_clock 7
                                  Examples.fresh_cache
    = (Return deleted, st')
    /\ (forall m,
           PriceCache.latest_price m (PriceCache.store st')
           = PriceCache.if_recent
               (Datetime.mk 2024 12 17 14 10 0 0)
               (PriceCache.latest_price
                  m (PriceCache.store Examples.fresh_cache)))
    /\ Z.of_nat (length (PriceCache.spot_prices (PriceCache.store st')))
       = 2 - deleted.
Proof.
  destruct (cleanup_keeps_recent_latest
              Examples.next_tuesday_clock 7 Examples.fresh_cache
              (Datetime.mk 2024 12 17 14 10 0 0) eq_refl eq_refl)
    as (deleted & st' & H1 & H2 & H3 & _).
  exists deleted, st'. split; [exact H1 | split; [exact H2 | exact H3]].
Defined.

(** ** Database initialisation and the limiter *)

Section DatabaseProperties.

Import RateLimiter Database.

Variable settings : Database.Settings.

(** What [init_db] leaves when nothing fails. *)
Lemma init_db_rows (run : Run) (rows : gmap string RateLimitTracker) :
  engine_error run = None ->
  commit_error run = None ->
  init_db settings run rows
  = (Return tt,
     let rows1 := match rows !! "ebay" with
                  | Some _ => rows
                  | None => <["ebay" := new_ebay_tracker
                                          settings (utcnow_ebay run)]> rows
                  end in
     match rows1 !! "metals-api" with
     | Some _ => rows1
     | None => <["metals-api" := new_metals_tracker
                                   settings (utcnow_metals run)]> rows1
     end).
Proof.
  intros He Hc. unfold init_db, bind, get, put. rewrite He, Hc.
  reflexivity.
Qed.

(** X11: Initialisation never touches a tracker that exists: every row that
    was there is there unchanged, with its counters; both providers have
    a row afterwards, and no other row appears.  Running it again changes
    nothing. *)
Theorem init_db_keeps_existing (run run2 : Run)
    (rows : gmap string RateLimitTracker) :
  engine_error run = None ->
  commit_error run = None ->
  engine_error run2 = None ->
  commit_error run2 = None ->
  exists rows',
    init_db settings run rows = (Return tt, rows')
    /\ (forall api tr, rows !! api = Some tr -> rows' !! api = Some tr)
    /\ is_Some (rows' !! "ebay")
    /\ is_Some (rows' !! "metals-api")
    /\ (forall api, api <> "ebay" -> api <> "metals-api" ->
                    rows' !! api = rows !! api)
    /\ init_db settings run2 rows' = (Return tt, rows').
Proof.
  intros He Hc He2 Hc2.
  eexists. split; [apply init_db_rows; assumption|].
  cbv zeta.
  destruct (rows !! "ebay") as [te|] eqn:Ee.
  - destruct (rows !! "metals-api") as [tm|] eqn:Em.
    + repeat split; eauto.
      rewrite init_db_rows by assumption. cbv zeta. rewrite Ee, Em.
      reflexivity.
    + repeat split.
      * intros api tr H. rewrite lookup_insert_ne; [exact H|].
        intros <-. congruence.
      * rewrite lookup_insert_ne by discriminate. eauto.
      * rewrite lookup_insert_eq. eauto.
      * intros api _ H. rewrite lookup_insert_ne by congruence. reflexivity.
      * rewrite init_db_rows by assumption. cbv zeta.
        rewrite lookup_insert_ne by discriminate. rewrite Ee.
        rewrite lookup_insert_eq. reflexivity.
  - rewrite lookup_insert_ne by discriminate.
    destruct (rows !! "metals-api") as [tm|] eqn:Em.
    + repeat split.
      * intros api tr H. rewrite lookup_insert_ne; [exact H|].
        intros <-. congruence.
      * rewrite lookup_insert_eq. eauto.
      * rewrite lookup_insert_ne by discriminate. eauto.
      * intros api H _. rewrite lookup_insert_ne by congruence. reflexivity.
      * rewrite init_db_rows by assumption. cbv zeta.
        rewrite lookup_insert_eq.
        rewrite lookup_insert_ne by discriminate. rewrite Em.
        reflexivity.
    + repeat split.
      * intros api tr H.
        rewrite !lookup_insert_ne; [exact H | |]; intros <-; congruence.
      * rewrite lookup_insert_ne by discriminate.
        rewrite lookup_insert_eq. eauto.
      * rewrite lookup_insert_eq. eauto.
      * intros api H1 H2. rewrite !lookup_insert_ne by congruence.
        reflexivity.
      * rewrite init_db_rows by assumption. cbv zeta.
        rewrite lookup_insert_ne by discriminate.
        rewrite lookup_insert_eq.
        rewrite lookup_insert_eq. reflexivity.
Qed.

(** X12: A tracker is born due: on an empty table, the first call for either
    provider after initialisation rolls the tracker over (its reset time
    is the start of the day, or of the month, of the initialisation), is
    allowed, and leaves the counter at 1 with the reset time in the
    future. *)
Theorem first_call_after_init (run : Run) (clk : Clock) (api : string)
    (rows : gmap string RateLimitTracker) :
  engine_error run = None ->
  commit_error run = None ->
  rows !! "ebay" = None ->
  rows !! "metals-api" = None ->
  0 < EBAY_DAILY_LIMIT settings ->
  0 < METALS_API_MONTHLY_LIMIT settings ->
  valid (utcnow_ebay run) = true ->
  valid (utcnow_metals run) = true ->
  geb (utcnow clk) (utcnow_ebay run) = true ->
  geb (utcnow clk) (utcnow_metals run) = true ->
  rollable (utcnow clk) ->
  api = "ebay" \/ api = "metals-api" ->
  exists rows' st' tr',
    init_db settings run rows = (Return tt, rows')
    /\ check_and_increment clk api (fresh_limiter rows')
       = (Return true, st')
    /\ persisted (db st') !! api = Some tr'
    /\ active_used tr' = 1
    /\ ltb (utcnow clk) (reset_at tr') = true
    /\ last_call_at tr' = Some (utcnow clk).
Proof.
  intros He Hc Ee Em HLe HLm Hve Hvm Hge Hgm Hroll Hapi.
  pose proof (init_db_rows run rows He Hc) as Hinit.
  cbv zeta in Hinit. rewrite Ee in Hinit.
  rewrite lookup_insert_ne in Hinit by discriminate.
  rewrite Em in Hinit.
  set (rows' := <["metals-api" := _]> (<["ebay" := _]> rows)) in Hinit.
  assert (Hdue : forall tr L,
             rows' !! api = Some tr ->
             active_limit tr = Some L -> 0 < L ->
             geb (utcnow clk) (reset_at tr) = true ->
             exists tr1,
               check_quota api (utcnow clk) tr = (Return tt, tr1)
               /\ active_used tr1 = 1
               /\ ltb (utcnow clk) (reset_at tr1) = true).
  { intros tr L _ HL Hpos Hdue.
    destruct (reset_tracker_active tr (utcnow clk) L Hroll HL)
      as (tr0 & Hr & HL0 & Hu0 & Hd0 & Hm0 & Hlt0).
    unfold check_quota, bind at 1, get. rewrite Hdue.
    unfold bind at 1. rewrite Hr.
    unfold active_limit, active_used in *.
    unfold bind, get, modify.
    destruct (truthyZ (daily_limit tr0)) eqn:Td.
    - rewrite HL0. cbn [default from_option id]. rewrite Hu0.
      destruct (0 >=? L) eqn:EL; [lia|].
      eexists. split; [reflexivity|]. cbn. rewrite Td. cbn.
      split; [reflexivity | exact Hlt0].
    - destruct (truthyZ (monthly_limit tr0)) eqn:Tm; [|discriminate].
      rewrite HL0. cbn [default from_option id]. rewrite Hu0.
      destruct (0 >=? L) eqn:EL; [lia|].
      eexists. split; [reflexivity|]. cbn. rewrite Td. cbn.
      split; [reflexivity | exact Hlt0]. }
  assert (Htr : exists tr L,
             rows' !! api = Some tr /\ active_limit tr = Some L /\ 0 < L
             /\ geb (utcnow clk) (reset_at tr) = true).
  { destruct Hapi as [-> | ->].
    - exists (new_ebay_tracker settings (utcnow_ebay run)),
             (EBAY_DAILY_LIMIT settings).
      subst rows'. rewrite lookup_insert_ne by discriminate.
      rewrite lookup_insert_eq. split; [reflexivity|].
      split; [|split; [exact HLe|]].
      + unfold active_limit, new_ebay_tracker, truthyZ; cbn.
        destruct (EBAY_DAILY_LIMIT settings =? 0) eqn:E; [lia|reflexivity].
      + cbn [new_ebay_tracker reset_at].
        apply (geb_trans _ (utcnow_ebay run)); [exact Hge|].
        apply (proj1 (geb_midnight _ Hve)).
    - exists (new_metals_tracker settings (utcnow_metals run)),
             (METALS_API_MONTHLY_LIMIT settings).
      subst rows'. rewrite lookup_insert_eq. split; [reflexivity|].
      split; [|split; [exact HLm|]].
      + unfold active_limit, new_metals_tracker, truthyZ; cbn.
        destruct (METALS_API_MONTHLY_LIMIT settings =? 0) eqn:E;
          [lia|reflexivity].
      + cbn [new_metals_tracker reset_at].
        apply (geb_trans _ (utcnow_metals run)); [exact Hgm|].
        apply (proj2 (geb_midnight _ Hvm)). }
  destruct Htr as (tr & L & Hrow & HL & Hpos & Hdue0).
  destruct (Hdue tr L Hrow HL Hpos Hdue0) as (tr1 & Hq & Hu1 & Hlt1).
  exists rows'. eexists. exists (set_last_call_at (Some (utcnow clk)) tr1).
  split; [exact Hinit|].
  split.
  - apply (call_allowed clk api (fresh_limiter rows') tr tr1);
      [exact Hrow | exact Hq].
  - cbn [db persisted]. rewrite lookup_insert_eq.
    split; [reflexivity|].
    split; [|split; [exact Hlt1 | reflexivity]].
    unfold active_used in *. exact Hu1.
Qed.

End DatabaseProperties.

Lemma init_db_keeps_existing_witness :
  exists rows',
    Database.init_db Examples.limits Examples.first_run
                     {["metals-api" := Examples.metals_tracker]}
    = (Return tt, rows')
    /\ rows' !! "metals-api" = Some Examples.metals_tracker
    /\ is_Some (rows' !! "ebay")
    /\ Database.init_db Examples.limits Examples.first_run rows'
       = (Return tt, rows').
Proof.
  destruct (init_db_keeps_existing
              Examples.limits Examples.first_run Examples.first_run
              {["metals-api" := Examples.metals_tracker]}
              eq_refl eq_refl eq_refl eq_refl)
    as (rows' & H1 & H2 & H3 & _ & _ & H6).
  exists rows'. split; [exact H1|]. split; [|split; [exact H3 | exact H6]].
  apply H2. reflexivity.
Defined.

Lemma first_call_after_init_witness :
  exists rows' st' tr',
    Database.init_db Examples.limits Examples.first_run ∅ = (Return tt, rows')
    /\ RateLimiter.check_and_increment
         Examples.clock_a "metals-api" (Database.fresh_limiter rows')
       = (Return true, st')
    /\ RateLimiter.persisted (RateLimiter.db st') !! "metals-api" = Some tr'
    /\ RateLimiter.active_used tr' = 1
    /\ ltb (RateLimiter.utcnow Examples.clock_a) (RateLimiter.reset_at tr')
       = true
    /\ RateLimiter.last_call_at tr'
       = Some (RateLimiter.utcnow Examples.clock_a).
Proof.
  apply (first_call_after_init
           Examples.limits Examples.first_run Examples.clock_a "metals-api" ∅);
    try reflexivity.
  - split; [reflexivity | reflexivity].
  - right. reflexivity.
Defined.

(** ** Resilient fetcher: retries, giving up, and the audit table *)

Section BaseScraperFurther.

Import BaseScraper.

Variable self : Scraper.
Variables endpoint method : string.

(** One attempt that meets a transient outcome. *)
Lemma attempt_transient (st : State) (o : Outcome) (d : Q)
    (rest : list (Outcome * Q)) (start_time : Q) (attempt : Z) :
  supported method ->
  network st = (o, d) :: rest ->
  audit_store_ok st = true ->
  transient o = true ->
  exists st1 logs,
    attempt_once self endpoint method start_time attempt st
    = (Return (Again (error_text self o)), st1)
    /\ network st1 = rest
    /\ audit_store_ok st1 = true
    /\ sleeps st1 = sleeps st
    /\ api_call_logs st1 = (api_call_logs st ++ logs)%list
    /\ map log_content logs
       = map (fun r => (api_name self, endpoint, Some (status_code r),
                        false, None))
             (responses [(o, d)]).
Proof.
  intros Hm Hn Ha Ht.
  destruct o as [r | | msg | e]; [| | | discriminate].
  - cbn in Ht. apply andb_prop in Ht. destruct Ht as [H1 H2].
    exists (received self endpoint st r d rest start_time),
           [response_log self endpoint r
              (int_trunc ((clock st + d - start_time) * 1000))].
    split; [apply attempt_server_error; auto; lia|].
    cbn. repeat split; try reflexivity.
    unfold log_content, response_log; cbn.
    replace (status_code r <? 400) with false by lia. reflexivity.
  - exists (mkState rest (clock st + d)%Q (api_call_logs st)
                    (audit_store_ok st) (sleeps st)), [].
    split.
    + unfold attempt_once. rewrite (supported_call method Hm).
      cbv beta iota delta [try_except bind http_call get put ret raise].
      rewrite Hn. reflexivity.
    + cbn. rewrite app_nil_r. auto.
  - exists (mkState rest (clock st + d)%Q (api_call_logs st)
                    (audit_store_ok st) (sleeps st)), [].
    split.
    + unfold attempt_once. rewrite (supported_call method Hm).
      cbv beta iota delta [try_except bind http_call get put ret raise].
      rewrite Hn. reflexivity.
    + cbn. rewrite app_nil_r. auto.
Qed.

(** A run of transient outcomes, each followed by its backoff. *)
Lemma attempts_through (start_time : Q) (os : list (Outcome * Q)) :
  forall (st : State) (a n : nat) (last_error : option string)
         (rest : list (Outcome * Q)),
  supported method ->
  audit_store_ok st = true ->
  network st = (os ++ rest)%list ->
  Forall (fun od => transient (fst od) = true) os ->
  Z.of_nat a + Z.of_nat (length os) <= retry_attempts self - 1 ->
  exists st1 logs,
    attempts self endpoint method start_time (length os + n)
             (Z.of_nat a) last_error st
    = attempts self endpoint method start_time n
               (Z.of_nat a + Z.of_nat (length os))
               (match last os with
                | Some od => Some (error_text self (fst od))
                | None => last_error
                end) st1
    /\ network st1 = rest
    /\ audit_store_ok st1 = true
    /\ sleeps st1 = (sleeps st ++ backoff_delays a (length os))%list
    /\ api_call_logs st1 = (api_call_logs st ++ logs)%list
    /\ map log_content logs
       = map (fun r => (api_name self, endpoint, Some (status_code r),
                        false, None))
             (responses os).
Proof.
  induction os as [|[o d] os IH]; intros st a n last_error rest Hm Ha Hn Ht Hlen.
  - exists st, []. cbn. rewrite Z.add_0_r, !app_nil_r.
    repeat split; auto.
  - apply Forall_cons in Ht. destruct Ht as [Ho Hos]. cbn in Ho.
    cbn [length] in Hlen.
    destruct (attempt_transient st o d (os ++ rest) start_time (Z.of_nat a)
                                Hm Hn Ha Ho)
      as (st1 & logs1 & Hat & Hn1 & Ha1 & Hs1 & Hl1 & Hc1).
    change (length ((o, d) :: os) + n)%nat with (S (length os + n)).
    rewrite (attempts_retry self endpoint method st st1 _ start_time
                            (length os + n) (Z.of_nat a) last_error Hat)
      by lia.
    destruct (IH (backed_off st1 (inject_Z (2 ^ Z.of_nat a))) (S a) n
                 (Some (error_text self o)) rest Hm Ha1 Hn1 Hos
                 ltac:(lia))
      as (st2 & logs2 & Hrun & Hn2 & Ha2 & Hs2 & Hl2 & Hc2).
    exists st2, (logs1 ++ logs2)%list.
    replace (Z.of_nat a + 1) with (Z.of_nat (S a)) by lia.
    rewrite Hrun.
    split.
    { cbn [length]. f_equal; [lia|]. rewrite last_cons.
      destruct (last os); reflexivity. }
    split; [exact Hn2|]. split; [exact Ha2|].
    split.
    { rewrite Hs2. cbn [backed_off sleeps]. rewrite Hs1.
      unfold backoff_delays. cbn [seq map]. rewrite <- app_assoc.
      reflexivity. }
    split.
    { rewrite Hl2. cbn [backed_off api_call_logs]. rewrite Hl1.
      rewrite <- app_assoc. reflexivity. }
    rewrite map_app, Hc1, Hc2.
    unfold responses. cbn [omap list_omap fst].
    destruct o; cbn; reflexivity.
Qed.

(** An error text is never empty. *)
Lemma error_text_truthy (o : Outcome) :
  transient o = true -> Str.truthy (Some (error_text self o)) = true.
Proof.
  destruct o; intros H; try discriminate; reflexivity.
Qed.

(** X13: Recovery: when the network fails transiently [k] times (timeouts,
    failed connections, server errors, in any mix) and then answers with
    a status below 400, and [k + 1] attempts are allowed, the request
    returns that answer after backoffs of 1, 2, ..., 2^(k-1) seconds.
    The audit table gets one record for each response received, the last
    one alone marked a success; timeouts and failed connections leave no
    record. *)
Theorem make_request_recovers (st : State) (os : list (Outcome * Q))
    (r : Response) (d : Q) (rest : list (Outcome * Q)) :
  supported method ->
  audit_store_ok st = true ->
  network st = (os ++ (Responded r, d) :: rest)%list ->
  Forall (fun od => transient (fst od) = true) os ->
  status_code r < 400 ->
  Z.of_nat (length os) < retry_attempts self ->
  exists st' logs ms,
    make_request self endpoint method st = (Return r, st')
    /\ network st' = rest
    /\ sleeps st' = (sleeps st ++ backoff_delays 0 (length os))%list
    /\ api_call_logs st'
       = (api_call_logs st ++ logs
            ++ [response_log self endpoint r ms])%list
    /\ map log_content logs
       = map (fun r => (api_name self, endpoint, Some (status_code r),
                        false, None))
             (responses os)
    /\ log_success (response_log self endpoint r ms) = true.
Proof.
  intros Hm Ha Hn Ht Hs Hlen.
  unfold make_request, bind at 1, get.
  replace (Z.to_nat (retry_attempts self))
    with (length os + S (Z.to_nat (retry_attempts self) - length os - 1))%nat
    by lia.
  destruct (attempts_through (clock st) os st 0
              (S (Z.to_nat (retry_attempts self) - length os - 1)) None
              ((Responded r, d) :: rest) Hm Ha Hn Ht ltac:(lia))
    as (st1 & logs & Hrun & Hn1 & Ha1 & Hs1 & Hl1 & Hc1).
  change 0 with (Z.of_nat 0) at 1. rewrite Hrun.
  cbn [attempts]. unfold bind at 1.
  rewrite (attempt_success self endpoint method Hm st1 r d rest (clock st)
                           _ Hn1 Ha1 Hs).
  eexists. exists logs. eexists. split; [reflexivity|].
  cbn [received network sleeps api_call_logs].
  split; [reflexivity|]. split; [exact Hs1|].
  split; [rewrite Hl1, <- app_assoc; reflexivity|].
  split; [exact Hc1|].
  unfold response_log; cbn. lia.
Qed.

(** X14: Giving up: when every one of the allowed attempts meets a transient
    failure, the request raises [APIConnectionError] with the text of the
    last failure and the number of attempts allowed as its retry count.
    It has slept 1, 2, ..., 2^(n-2) seconds, one backoff less than
    attempts, and the audit table has one record for each response
    received followed by one record of the failure, without a status. *)
Theorem make_request_gives_up (st : State) (os : list (Outcome * Q))
    (o : Outcome) (d : Q) (rest : list (Outcome * Q)) :
  supported method ->
  audit_store_ok st = true ->
  network st = (os ++ (o, d) :: rest)%list ->
  Forall (fun od => transient (fst od) = true) os ->
  transient o = true ->
  retry_attempts self = Z.of_nat (length os) + 1 ->
  exists st' logs ms,
    make_request self endpoint method st
    = (Raise (APIConnectionError (api_name self) (error_text self o)
                                 (retry_attempts self)), st')
    /\ network st' = rest
    /\ sleeps st' = (sleeps st ++ backoff_delays 0 (length os))%list
    /\ api_call_logs st'
       = (api_call_logs st ++ logs
            ++ [mkLog (api_name self) endpoint None false
                      (Some (error_text self o)) (Some ms)])%list
    /\ map log_content logs
       = map (fun r => (api_name self, endpoint, Some (status_code r),
                        false, None))
             (responses (os ++ [(o, d)])).
Proof.
  intros Hm Ha Hn Ht Ho Hlen.
  unfold make_request, bind at 1, get.
  replace (Z.to_nat (retry_attempts self)) with (length os + 1)%nat by lia.
  destruct (attempts_through (clock st) os st 0 1 None
              ((o, d) :: rest) Hm Ha Hn Ht ltac:(lia))
    as (st1 & logs & Hrun & Hn1 & Ha1 & Hs1 & Hl1 & Hc1).
  change 0 with (Z.of_nat 0) at 1. rewrite Hrun.
  destruct (attempt_transient st1 o d rest (clock st)
              (Z.of_nat 0 + Z.of_nat (length os)) Hm Hn1 Ha1 Ho)
    as (st2 & logs2 & Hat & Hn2 & Ha2 & Hs2 & Hl2 & Hc2).
  cbn [attempts]. unfold bind at 1. rewrite Hat.
  replace (Z.of_nat 0 + Z.of_nat (length os) <? retry_attempts self - 1)
    with false by (symmetry; apply Z.ltb_ge; lia).
  cbv beta iota delta [bind ret elapsed_ms get _log_api_call modify raise].
  rewrite Ha2, (error_text_truthy o Ho).
  cbn [default from_option id].
  eexists. exists (logs ++ logs2)%list. eexists.
  split; [reflexivity|].
  cbn [network sleeps api_call_logs].
  split; [exact Hn2|]. split; [rewrite Hs2; exact Hs1|].
  split.
  { rewrite Hl2, Hl1, <- !app_assoc. reflexivity. }
  rewrite map_app, Hc1, Hc2. unfold responses.
  rewrite omap_app, map_app. reflexivity.
Qed.

(** An attempt with a method the scraper does not support. *)
Lemma attempt_unsupported (st : State) (start_time : Q) (attempt : Z) :
  ~ supported method ->
  attempt_once self endpoint method start_time attempt st
  = (Return (Again ("Unsupported HTTP method: " ++ method)), st).
Proof.
  intros Hm. unfold attempt_once, supported in *.
  destruct (String.eqb (Str.upper method) "GET") eqn:E1.
  { apply String.eqb_eq in E1. tauto. }
  destruct (String.eqb (Str.upper method) "POST") eqn:E2.
  { apply String.eqb_eq in E2. tauto. }
  reflexivity.
Qed.

Lemma attempts_unsupported (start_time : Q) (n : nat) :
  forall (st : State) (a : nat) (last_error : option string),
  ~ supported method ->
  audit_store_ok st = true ->
  Z.of_nat a + Z.of_nat n = retry_attempts self ->
  (n = 0%nat -> last_error = Some ("Unsupported HTTP method: " ++ method)) ->
  exists st' ms,
    attempts self endpoint method start_time n (Z.of_nat a) last_error st
    = (Raise (APIConnectionError
                (api_name self) ("Unsupported HTTP method: " ++ method)
                (retry_attempts self)), st')
    /\ network st' = network st
    /\ sleeps st' = (sleeps st ++ backoff_delays a (n - 1))%list
    /\ api_call_logs st'
       = (api_call_logs st
            ++ [mkLog (api_name self) endpoint None false
                      (Some ("Unsupported HTTP method: " ++ method)%string)
                      (Some ms)])%list.
Proof.
  induction n as [|n IH]; intros st a last_error Hm Ha Hlen Hlast.
  - rewrite (Hlast eq_refl).
    cbv beta iota delta [attempts bind ret elapsed_ms get _log_api_call
                         modify raise].
    rewrite Ha. cbn [Str.truthy String.append default from_option id].
    do 2 eexists. split; [reflexivity|]. cbn.
    rewrite app_nil_r. auto.
  - cbn [attempts]. unfold bind at 1. rewrite attempt_unsupported by exact Hm.
    destruct n as [|n].
    + replace (Z.of_nat a <? retry_attempts self - 1) with false by lia.
      unfold bind at 1, ret at 1.
      destruct (IH st (S a) (Some ("Unsupported HTTP method: " ++ method))
                   Hm Ha ltac:(lia) ltac:(auto))
        as (st' & ms & Hrun & H1 & H2 & H3).
      replace (Z.of_nat a + 1) with (Z.of_nat (S a)) by lia.
      exists st', ms. rewrite Hrun. split; [reflexivity|].
      split; [exact H1|]. split; [|exact H3].
      rewrite H2. reflexivity.
    + replace (Z.of_nat a <? retry_attempts self - 1) with true by lia.
      unfold bind at 1, sleep, modify.
      destruct (IH (mkState (network st)
                            (clock st + inject_Z (2 ^ Z.of_nat a))%Q
                            (api_call_logs st) (audit_store_ok st)
                            (sleeps st ++ [inject_Z (2 ^ Z.of_nat a)]))
                   (S a) (Some ("Unsupported HTTP method: " ++ method))
                   Hm Ha ltac:(lia) ltac:(discriminate))
        as (st' & ms & Hrun & H1 & H2 & H3).
      replace (Z.of_nat a + 1) with (Z.of_nat (S a)) by lia.
      exists st', ms. rewrite Hrun. split; [reflexivity|].
      split; [exact H1|]. split; [|exact H3].
      rewrite H2. cbn [sleeps]. rewrite <- app_assoc.
      replace (S (S n) - 1)%nat with (S (S n - 1)) by lia.
      reflexivity.
Qed.

(** X15: A method other than GET and POST never reaches the network, yet it
    is retried like a transient failure: with [n >= 1] attempts allowed
    the request sleeps 1, 2, ..., 2^(n-2) seconds and then raises
    [APIConnectionError] naming the method, having written the one record
    of the failure. *)
Theorem make_request_unsupported_method (st : State) :
  ~ supported method ->
  audit_store_ok st = true ->
  1 <= retry_attempts self ->
  exists st' ms,
    make_request self endpoint method st
    = (Raise (APIConnectionError
                (api_name self) ("Unsupported HTTP method: " ++ method)
                (retry_attempts self)), st')
    /\ network st' = network st
    /\ sleeps st'
       = (sleeps st
            ++ backoff_delays 0 (Z.to_nat (retry_attempts self) - 1))%list
    /\ api_call_logs st'
       = (api_call_logs st
            ++ [mkLog (api_name self) endpoint None false
                      (Some ("Unsupported HTTP method: " ++ method)%string)
                      (Some ms)])%list.
Proof.
  intros Hm Ha Hn.
  unfold make_request, bind at 1, get.
  change 0 with (Z.of_nat 0) at 1.
  apply attempts_unsupported; auto; lia.
Qed.

End BaseScraperFurther.

(** *** A failing audit table *)

Section AuditStore.

Import BaseScraper.

Variable self : Scraper.
Variables endpoint method : string.

(** One attempt, with the audit table refusing inserts and with it in
    any state: same outcome, network, clock and sleeps; the refusing
    table is as it was. *)
Lemma attempt_once_audit (start_time : Q) (attempt : Z)
    (n : list (Outcome * Q)) (c : Q) (l1 l2 : list APICallLog) (b : bool)
    (s : list Q) :
  exists r n' c' l2',
    attempt_once self endpoint method start_time attempt
                 (mkState n c l1 false s)
    = (r, mkState n' c' l1 false s)
    /\ attempt_once self endpoint method start_time attempt
                    (mkState n c l2 b s)
       = (r, mkState n' c' l2' b s).
Proof.
  unfold attempt_once.
  destruct (String.eqb (Str.upper method) "GET");
    [|destruct (String.eqb (Str.upper method) "POST")].
  1, 2:
    (cbv beta iota delta [try_except bind http_call get put elapsed_ms
                          _log_api_call modify raise_for_status ret raise];
     cbn [network clock api_call_logs audit_store_ok sleeps];
     destruct n as [|[o d] rest]; [do 4 eexists; split; reflexivity|];
     destruct o as [r | | msg | e]; [ | | | destruct e];
     destruct b;
     cbv beta iota;
     cbn [network clock api_call_logs audit_store_ok sleeps];
     repeat (match goal with
             | |- context [if ?c then _ else _] => destruct c
             end;
             cbv beta iota;
             cbn [network clock api_call_logs audit_store_ok sleeps]);
     do 4 eexists; split; reflexivity).
  do 4 eexists; split; reflexivity.
Qed.

(** One pass of the loop. *)
Lemma attempts_step (start_time : Q) (k : nat) (attempt : Z)
    (last_error : option string) (st : State) :
  attempts self endpoint method start_time (S k) attempt last_error st
  = match attempt_once self endpoint method start_time attempt st with
    | (Return (Done r), st1) => (Return r, st1)
    | (Return (Again msg), st1) =>
        attempts self endpoint method start_time k (attempt + 1) (Some msg)
                 (if attempt <? retry_attempts self - 1
                  then backed_off st1 (inject_Z (2 ^ attempt))
                  else st1)
    | (Raise e, st1) => (Raise e, st1)
    end.
Proof.
  cbn [attempts]. unfold bind at 1.
  destruct (attempt_once self endpoint method start_time attempt st)
    as [[[r | msg] | e] st1]; try reflexivity.
  unfold bind at 1.
  destruct (attempt <? retry_attempts self - 1); reflexivity.
Qed.

Lemma attempts_audit (start_time : Q) (k : nat) :
  forall (attempt : Z) (last_error : option string)
         (n : list (Outcome * Q)) (c : Q) (l1 l2 : list APICallLog)
         (b : bool) (s : list Q),
  exists r n' c' l2' s',
    attempts self endpoint method start_time k attempt last_error
             (mkState n c l1 false s)
    = (r, mkState n' c' l1 false s')
    /\ attempts self endpoint method start_time k attempt last_error
                (mkState n c l2 b s)
       = (r, mkState n' c' l2' b s').
Proof.
  induction k as [|k IH]; intros attempt last_error n c l1 l2 b s.
  - cbv beta iota delta [attempts bind elapsed_ms get ret _log_api_call
                         modify raise].
    cbn. destruct b; do 5 eexists; split; reflexivity.
  - rewrite !attempts_step.
    destruct (attempt_once_audit start_time attempt n c l1 l2 b s)
      as (r & n' & c' & l2' & H1 & H2).
    rewrite H1, H2.
    destruct r as [[resp | msg] | e].
    + do 5 eexists. split; reflexivity.
    + destruct (attempt <? retry_attempts self - 1); apply IH.
    + do 5 eexists. split; reflexivity.
Qed.

(** X16: A failing audit table never shows: with the table refusing every
    insert, a request has the outcome it has with the table working,
    whether a response or an exception, makes the same calls to the
    network and sleeps the same; the table is left as it was. *)
Theorem audit_failure_is_silent (st : State) :
  let run := make_request self endpoint method
                          (with_audit_store false st) in
  let run_ok := make_request self endpoint method
                             (with_audit_store true st) in
  fst run = fst run_ok
  /\ network (snd run) = network (snd run_ok)
  /\ clock (snd run) = clock (snd run_ok)
  /\ sleeps (snd run) = sleeps (snd run_ok)
  /\ api_call_logs (snd run) = api_call_logs st.
Proof.
  unfold make_request, with_audit_store, bind, get. cbn [clock].
  destruct (attempts_audit (clock st) (Z.to_nat (retry_attempts self)) 0
              None (network st) (clock st) (api_call_logs st)
              (api_call_logs st) true (sleeps st))
    as (r & n' & c' & l2' & s' & H1 & H2).
  cbv zeta. rewrite H1, H2. cbn. auto.
Qed.

End AuditStore.

Lemma make_request_recovers_witness :
  exists st' logs ms,
    BaseScraper.make_request Examples.ebay_scraper "" "GET"
                             Examples.patchy_network
    = (Return Examples.r200, st')
    /\ BaseScraper.network st' = []
    /\ BaseScraper.sleeps st' = [1; 2; 4]%Q
    /\ BaseScraper.api_call_logs st'
       = (logs ++ [BaseScraper.response_log Examples.ebay_scraper ""
                                            Examples.r200 ms])%list
    /\ map BaseScraper.log_content logs
       = [("ebay", "", Some 503, false, None)].
Proof.
  destruct (make_request_recovers
              Examples.ebay_scraper "" "GET" Examples.patchy_network
              [(BaseScraper.TimedOut, 10);
               (BaseScraper.ConnectionFailed "connection refused", 1 # 100);
               (BaseScraper.Responded Examples.r503, 1 # 10)]%Q
              Examples.r200 (1 # 10)%Q [])
    as (st' & logs & ms & H1 & H2 & H3 & H4 & H5 & _).
  - left. reflexivity.
  - reflexivity.
  - reflexivity.
  - repeat constructor.
  - reflexivity.
  - reflexivity.
  - exists st', logs, ms.
    split; [exact H1|]. split; [exact H2|]. split; [exact H3|].
    split; [exact H4 | exact H5].
Defined.

Lemma make_request_gives_up_witness :
  exists st' logs ms,
    BaseScraper.make_request Examples.default_scraper "" "GET"
                             Examples.down_network
    = (Raise (APIConnectionError "ebay"
                                 "Connection error: connection refused" 3),
       st')
    /\ BaseScraper.network st' = []
    /\ BaseScraper.sleeps st' = [1; 2]%Q
    /\ BaseScraper.api_call_logs st'
       = (logs ++ [BaseScraper.mkLog
                     "ebay" "" None false
                     (Some "Connection error: connection refused")
                     (Some ms)])%list
    /\ map BaseScraper.log_content logs
       = [("ebay", "", Some 502, false, None)].
Proof.
  destruct (make_request_gives_up
              Examples.default_scraper "" "GET" Examples.down_network
              [(BaseScraper.TimedOut, 10);
               (BaseScraper.Responded Examples.r502, 1 # 10)]%Q
              (BaseScraper.ConnectionFailed "connection refused")
              (1 # 100)%Q [])
    as (st' & logs & ms & H1 & H2 & H3 & H4 & H5).
  - left. reflexivity.
  - reflexivity.
  - reflexivity.
  - repeat constructor.
  - reflexivity.
  - reflexivity.
  - exists st', logs, ms.
    split; [exact H1|]. split; [exact H2|]. split; [exact H3|].
    split; [exact H4 | exact H5].
Defined.

Lemma make_request_unsupported_method_witness :
  exists st' ms,
    BaseScraper.make_request Examples.default_scraper "" "DELETE"
                             Examples.down_network
    = (Raise (APIConnectionError "ebay" "Unsupported HTTP method: DELETE" 3),
       st')
    /\ BaseScraper.network st' = BaseScraper.network Examples.down_network
    /\ BaseScraper.sleeps st' = [1; 2]%Q
    /\ BaseScraper.api_call_logs st'
       = [BaseScraper.mkLog "ebay" "" None false
                            (Some "Unsupported HTTP method: DELETE")
                            (Some ms)].
Proof.
  apply (make_request_unsupported_method
           Examples.default_scraper "" "DELETE" Examples.down_network).
  - intros [H | H]; discriminate H.
  - reflexivity.
  - discriminate.
Defined.

(** ** Regular expressions: what a match consumed and captured *)

Section RegexSoundness.

Import Re.

Variable P : nat -> list ascii -> Prop.





End RegexSoundness.

(** ** Listing normaliser: weights, items and duplicates *)

Section RoundingBounds.

Local Open Scope Q_scope.

(** Rounding never crosses an integer bound from below. *)
Lemma round_le_bound (x : Q) (n : nat) (b : Z) :
  x <= inject_Z b -> round x n <= inject_Z b.
Proof.
  intros Hx. unfold round.
  set (scale := (10 ^ Z.of_nat n)%Z).
  assert (Hs : (0 < scale)%Z) by (apply Z.pow_pos_nonneg; lia).
  assert (HsQ : 0 < inject_Z scale).
  { change 0 with (inject_Z 0). rewrite <- Zlt_Qlt. exact Hs. }
  set (y := x * inject_Z scale).
  assert (Hy : y <= inject_Z (b * scale)).
  { unfold y. rewrite inject_Z_mult.
    apply Qmult_le_compat_r; [exact Hx | apply Qlt_le_weak, HsQ]. }
  assert (Hr : (round_half_even y <= b * scale)%Z).
  { unfold round_half_even.
    assert (Hf : inject_Z (Qfloor y) <= y) by apply Qfloor_le.
    assert (Hfb : (Qfloor y <= b * scale)%Z).
    { rewrite Zle_Qle. eapply Qle_trans; eassumption. }
    assert (Hhalf : 1 # 2 <= y - inject_Z (Qfloor y) ->
                    (Qfloor y + 1 <= b * scale)%Z).
    { intros Hh.
      destruct (Z.eq_dec (Qfloor y) (b * scale)%Z) as [E|E]; [|lia].
      exfalso. rewrite <- E in Hy. lra. }
    destruct (y - inject_Z (Qfloor y) ?= 1 # 2) eqn:E.
    - destruct (Z.even _); [exact Hfb|].
      apply Hhalf. apply Qeq_alt in E. rewrite E. apply Qle_refl.
    - exact Hfb.
    - apply Hhalf. apply Qgt_alt in E. apply Qlt_le_weak, E. }
  apply Qle_shift_div_r; [exact HsQ|].
  rewrite <- inject_Z_mult, <- Zle_Qle. exact Hr.
Qed.

End RoundingBounds.

Section WeightExtraction.

Import Re Ebay.





















End WeightExtraction.

Section Deduplication.

Import Ebay.

(** The dictionary the deduplication builds from the listings [ls]. *)
Lemma dict_set_entries (k : string) (v : Listing)
    (d : list (string * Listing)) (k' : string) (v' : Listing) :
  NoDup (map fst d) ->
  (k', v') ∈ dict_set k v d
  <-> (k' = k /\ v' = v) \/ (k' <> k /\ (k', v') ∈ d).
Proof.
  induction d as [|[k0 v0] d IH]; intros Hnd.
  - cbn. rewrite list_elem_of_singleton. split.
    + intros H. inversion H. auto.
    + intros [[-> ->] | [_ H]]; [reflexivity|]. inversion H.
  - cbn in Hnd. apply NoDup_cons in Hnd as [Hnotin Hnd].
    cbn [dict_set]. destruct (String.eqb k0 k) eqn:E.
    + apply String.eqb_eq in E. subst k0.
      rewrite !elem_of_cons. split.
      * intros [H | H]; [inversion H; auto|].
        right. split; [|auto].
        intros ->. apply Hnotin.
        apply (list_elem_of_fmap_2 fst) in H. exact H.
      * intros [[-> ->] | [Hne [H | H]]]; [auto | | auto].
        inversion H. congruence.
    + apply String.eqb_neq in E.
      rewrite !elem_of_cons, (IH Hnd). split.
      * intros [H | [H | [Hne H]]]; [inversion H; subst; auto | auto | auto].
      * intros [H | [Hne [H | H]]]; auto.
Qed.

Lemma dict_invariant (ls : list Listing) :
  let d := fold_left (fun d l => dict_set (external_id l) l d) ls [] in
  NoDup (map fst d)
  /\ Forall (fun kv => external_id (snd kv) = fst kv) d
  /\ forall l,
       l ∈ map snd d
       <-> exists pre post,
             ls = (pre ++ l :: post)%list
             /\ Forall (fun l' => external_id l' <> external_id l) post.
Proof.
  induction ls as [|x ls IH] using rev_ind.
  - cbn. split; [apply NoDup_nil_2|]. split; [constructor|].
    intros l. split.
    + intros H. inversion H.
    + intros (pre & post & H & _). destruct pre; discriminate.
  - rewrite fold_left_app. cbn [fold_left].
    set (d := fold_left (fun d l => dict_set (external_id l) l d) ls [])
      in *.
    cbv zeta in IH. destruct IH as (Hnd & Hall & Hin).
    destruct (dict_set_keys x d Hnd Hall) as (Hnd' & Hall' & _).
    cbv zeta. split; [exact Hnd'|]. split; [exact Hall'|].
    intros l. rewrite list_elem_of_fmap. split.
    + intros ([k v] & -> & Hkv). cbn [snd].
      apply (dict_set_entries _ _ _ _ _ Hnd) in Hkv.
      destruct Hkv as [[-> ->] | [Hne Hkv]].
      * exists ls, []. split; [reflexivity | constructor].
      * assert (Hk : external_id v = k).
        { rewrite List.Forall_forall in Hall.
          apply (Hall (k, v)). apply list_elem_of_In. exact Hkv. }
        assert (Hv : v ∈ map snd d).
        { apply list_elem_of_fmap. exists (k, v). auto. }
        apply Hin in Hv. destruct Hv as (pre & post & -> & Hpost).
        exists pre, (post ++ [x])%list. split.
        -- rewrite <- app_assoc. reflexivity.
        -- apply Forall_app. split; [exact Hpost|].
           constructor; [congruence | constructor].
    + intros (pre & post & Heq & Hpost).
      induction post as [|y post' _] using rev_ind.
      * apply app_inj_tail in Heq. destruct Heq as [-> ->].
        exists (external_id l, l). split; [reflexivity|].
        apply (dict_set_entries _ _ _ _ _ Hnd). auto.
      * rewrite app_comm_cons, app_assoc in Heq.
        apply app_inj_tail in Heq. destruct Heq as [-> ->].
        apply Forall_app in Hpost. destruct Hpost as [Hpost' Hy].
        inversion Hy as [|? ? Hne _]; subst.
        assert (Hl : l ∈ map snd d).
        { apply Hin. exists pre, post'. auto. }
        apply list_elem_of_fmap in Hl. destruct Hl as ([k v] & -> & Hkv).
        cbn [snd] in *.
        assert (Hk : external_id v = k).
        { rewrite List.Forall_forall in Hall.
          apply (Hall (k, v)). apply list_elem_of_In. exact Hkv. }
        exists (k, v). split; [reflexivity|].
        apply (dict_set_entries _ _ _ _ _ Hnd). right.
        split; [congruence | exact Hkv].
Qed.

(** X19: Deduplication keeps, for every id, the listing scraped last: a
    listing is in the result exactly when it occurs among the scraped
    ones with no listing of the same id after it.  The ids of the result
    are distinct. *)
Theorem dedup_keeps_last (all_listings : list Listing) :
  NoDup (map external_id (dedup all_listings))
  /\ forall l,
       l ∈ dedup all_listings
       <-> exists pre post,
             all_listings = (pre ++ l :: post)%list
             /\ Forall (fun l' => external_id l' <> external_id l) post.
Proof.
  split; [apply dedup_NoDup|].
  unfold dedup. apply dict_invariant.
Qed.

End Deduplication.


(** ** Scan orchestrator: spreads, rescans and failed commits *)

Section RoundingOrder.

Local Open Scope Q_scope.

Lemma round_half_even_mono (x y : Q) :
  x <= y -> (round_half_even x <= round_half_even y)%Z.
Proof.
  intros Hxy.
  pose proof (Qfloor_resp_le _ _ Hxy) as Hf.
  pose proof (Qfloor_le x) as Hx1. pose proof (Qlt_floor x) as Hx2.
  pose proof (Qfloor_le y) as Hy1. pose proof (Qlt_floor y) as Hy2.
  rewrite inject_Z_plus in Hx2, Hy2.
  unfold round_half_even.
  destruct (Z.eq_dec (Qfloor x) (Qfloor y)) as [E | E].
  - rewrite E in *.
    destruct (Qcompare_spec (x - inject_Z (Qfloor y)) (1 # 2));
      destruct (Qcompare_spec (y - inject_Z (Qfloor y)) (1 # 2));
      try destruct (Z.even (Qfloor y)); try lia; exfalso; lra.
  - assert (Hlt : (Qfloor x + 1 <= Qfloor y)%Z) by lia.
    destruct (x - inject_Z (Qfloor x) ?= 1 # 2);
      destruct (y - inject_Z (Qfloor y) ?= 1 # 2);
      try destruct (Z.even (Qfloor x)); try destruct (Z.even (Qfloor y));
      lia.
Qed.

(** Rounding keeps the order. *)
Lemma round_mono (x y : Q) (n : nat) : x <= y -> round x n <= round y n.
Proof.
  intros Hxy. unfold round.
  set (scale := (10 ^ Z.of_nat n)%Z).
  assert (Hs : (0 < scale)%Z) by (apply Z.pow_pos_nonneg; lia).
  assert (HsQ : 0 < inject_Z scale).
  { change 0 with (inject_Z 0). rewrite <- Zlt_Qlt. exact Hs. }
  assert (Hm : (round_half_even (x * inject_Z scale)
                <= round_half_even (y * inject_Z scale))%Z).
  { apply round_half_even_mono.
    apply Qmult_le_compat_r; [exact Hxy | apply Qlt_le_weak, HsQ]. }
  apply Qle_shift_div_l; [exact HsQ|].
  unfold Qdiv. rewrite <- Qmult_assoc, (Qmult_comm (/ _)).
  rewrite Qmult_inv_r, Qmult_1_r; [|lra].
  rewrite <- Zle_Qle. exact Hm.
Qed.

End RoundingOrder.

Section ScanFurther.

Import Ebay Main.

Ltac run_listing :=
  cbv beta iota delta [process_listing upsert_listing try_except bind get
                       put ret raise modify set_row incr_deals_found
                       commit rollback errors_append].

(** When a spread is computed, the weight and the spot price are
    positive and the spread is the rounded percentage. *)
Lemma calculate_spread_some (p : Q) (w : option Q) (r s : Q) :
  calculate_spread p w r = Some s ->
  exists wv,
    w = Some wv /\ (0 < wv)%Q /\ (0 < wv * r)%Q
    /\ s = round (((wv * r - p) / (wv * r)) * 100) 2.
Proof.
  unfold calculate_spread. intros H.
  destruct w as [wv|]; [|discriminate]. cbn [default from_option id] in H.
  destruct (negb (truthyQ (Some wv)) || Qle_bool wv 0) eqn:E1;
    [discriminate|].
  destruct (Qle_bool (wv * r) 0) eqn:E2; [discriminate|].
  apply orb_false_elim in E1. destruct E1 as [_ E1].
  apply Qle_bool_false in E1. apply Qle_bool_false in E2.
  inversion H. eauto.
Qed.

(** X20: The sign of a spread tells the side of the spot value the price is
    on: a positive spread, the only kind counted as a deal, means a
    price strictly below the metal's worth, and a price at or above it
    never gives a positive spread.  No price that is not negative gives
    a spread above 100. *)
Theorem calculate_spread_sign (p : Q) (w : option Q) (r s : Q) :
  calculate_spread p w r = Some s ->
  exists wv,
    w = Some wv
    /\ (0 < wv)%Q /\ (0 < r)%Q
    /\ ((0 < s)%Q -> (p < wv * r)%Q)
    /\ ((wv * r <= p)%Q -> (s <= 0)%Q)
    /\ ((0 <= p)%Q -> (s <= 100)%Q)
    /\ (is_deal (Some s) = true -> (p < wv * r)%Q).
Proof.
  intros H.
  destruct (calculate_spread_some p w r s H) as (wv & -> & Hw & Hv & ->).
  exists wv. split; [reflexivity|]. split; [exact Hw|].
  assert (Hr : (0 < r)%Q).
  { destruct (Qlt_le_dec 0 r) as [Hr | Hr]; [exact Hr|]. exfalso. nra. }
  split; [exact Hr|].
  assert (Hdown : (wv * r <= p)%Q ->
                  (round ((wv * r - p) / (wv * r) * 100) 2 <= 0)%Q).
  { intros Hp. apply (round_le_bound _ 2 0).
    change (inject_Z 0) with 0%Q.
    assert (((wv * r - p) / (wv * r) <= 0)%Q).
    { apply Qle_shift_div_r; [exact Hv | lra]. }
    lra. }
  assert (Hup : (0 < round ((wv * r - p) / (wv * r) * 100) 2)%Q ->
                (p < wv * r)%Q).
  { intros Hs. destruct (Qlt_le_dec p (wv * r)) as [Hlt | Hge];
      [exact Hlt|]. apply Hdown in Hge. lra. }
  split; [exact Hup|]. split; [exact Hdown|]. split.
  - intros Hp. apply (round_le_bound _ 2 100).
    change (inject_Z 100) with 100%Q.
    assert (((wv * r - p) / (wv * r) <= 1)%Q).
    { apply Qle_shift_div_r; [exact Hv | lra]. }
    lra.
  - intros Hd. apply is_deal_iff in Hd. destruct Hd as (s' & Hs' & Hpos).
    inversion Hs'; subst s'. apply Hup, Hpos.
Qed.

(** A lower price never gives a lower spread. *)
Lemma calculate_spread_monotone (p1 p2 : Q) (w : option Q)
    (r s1 s2 : Q) :
  (p1 <= p2)%Q ->
  calculate_spread p1 w r = Some s1 ->
  calculate_spread p2 w r = Some s2 ->
  (s2 <= s1)%Q.
Proof.
  intros Hp H1 H2.
  destruct (calculate_spread_some p1 w r s1 H1) as (wv & -> & Hw & Hv & ->).
  destruct (calculate_spread_some p2 (Some wv) r s2 H2)
    as (wv' & Hwv & _ & _ & ->).
  inversion Hwv; subst wv'.
  apply round_mono.
  apply Qmult_le_compat_r; [|lra].
  unfold Qdiv. apply Qmult_le_compat_r; [lra|].
  apply Qlt_le_weak, Qinv_lt_0_compat, Hv.
Qed.

(** What a pass whose commit goes through leaves in the table. *)
Lemma process_listing_row (clk : Clock) (spot : gmap string Q)
    (l : Listing) (st : State) :
  commit_succeeds (commits (world st)) 0 ->
  let row :=
    match working (db (world st)) !! external_id l with
    | Some existing =>
        mkRow (set_price (price l) (data existing)) (utcnow clk)
              (spread_after spot l (Some existing))
    | None => mkRow l (utcnow clk) (spread_after spot l None)
    end in
  let st' := snd (process_listing clk spot l st) in
  persisted (db (world st')) = <[external_id l := row]> (working (db (world st)))
  /\ working (db (world st')) = persisted (db (world st'))
  /\ errors (locals st') = errors (locals st).
Proof.
  intros Hok.
  run_listing.
  destruct (commits (world st)) as [|[e|] cs] eqn:Ec.
  2: { exfalso. apply (Hok e). reflexivity. }
  all: unfold spread_after;
    destruct (listing_spread spot l) as [spread|];
    [destruct (is_deal spread)| ];
    cbn; rewrite ?Ec; cbn;
    destruct (working (db (world st)) !! external_id l);
    rewrite ?insert_insert_eq; repeat split; reflexivity.
Qed.

(** X21: Scanning a listing that is stored already updates its price, its
    time and, when one is computed, its spread, and nothing else: the
    title, the weight, the metal and the URL stay those of the first
    scan, even where the scraped listing has others.  A listing that is
    new is stored as scraped. *)
Theorem rescan_updates_price_only (clk : Clock) (spot : gmap string Q)
    (l : Listing) (st : State) :
  commit_succeeds (commits (world st)) 0 ->
  let st' := snd (process_listing clk spot l st) in
  (forall existing,
      working (db (world st)) !! external_id l = Some existing ->
      exists row,
        persisted (db (world st')) !! external_id l = Some row
        /\ title (data row) = title (data existing)
        /\ weight_oz (data row) = weight_oz (data existing)
        /\ weight_extraction_failed (data row)
           = weight_extraction_failed (data existing)
        /\ metal_type (data row) = metal_type (data existing)
        /\ url (data row) = url (data existing)
        /\ price (data row) = price l
        /\ fetched_at row = utcnow clk
        /\ spread_percentage row = spread_after spot l (Some existing))
  /\ (working (db (world st)) !! external_id l = None ->
      persisted (db (world st')) !! external_id l
      = Some (mkRow l (utcnow clk) (spread_pct spot l))).
Proof.
  intros Hok st'.
  destruct (process_listing_row clk spot l st Hok) as (Hp & _ & _).
  fold st' in Hp. rewrite Hp, lookup_insert_eq. split.
  - intros existing He. rewrite He.
    eexists. split; [reflexivity|]. cbn. repeat split; reflexivity.
  - intros Hn. rewrite Hn. unfold spread_after, spread_pct.
    destruct (listing_spread spot l); reflexivity.
Qed.

(** X22: A listing whose commit fails leaves the table as it was committed
    and an entry in the error list, but it has been counted: the number
    of deals includes it when its spread is positive. *)
Theorem failed_commit_is_counted (clk : Clock) (spot : gmap string Q)
    (l : Listing) (st : State) (e : exn) (rest : list (option exn)) :
  commits (world st) = Some e :: rest ->
  process_listing clk spot l st
  = (Return tt,
     mkState
       (mkWorld (mkSession (persisted (db (world st)))
                           (persisted (db (world st))))
                rest)
       (mkLocals (errors (locals st)
                    ++ ["Listing processing error: " ++ str_exn e])
                 (listings_found (locals st))
                 (deals_found (locals st)
                  + (if counts_as_deal spot l then 1 else 0)))).
Proof.
  intros Hc. unfold counts_as_deal.
  run_listing.
  destruct (listing_spread spot l) as [spread|];
    [destruct (is_deal spread)|];
    cbn; rewrite Hc; cbn; rewrite ?Z.add_0_r; reflexivity.
Qed.

End ScanFurther.

Lemma calculate_spread_sign_witness :
  exists wv,
    Some 1%Q = Some wv
    /\ (0 < wv)%Q /\ (0 < 2000)%Q
    /\ ((0 < 1500 # 100)%Q -> (1700 < wv * 2000)%Q)
    /\ ((wv * 2000 <= 1700)%Q -> (1500 # 100 <= 0)%Q)
    /\ ((0 <= 1700)%Q -> (1500 # 100 <= 100)%Q)
    /\ (Main.is_deal (Some (1500 # 100)%Q) = true -> (1700 < wv * 2000)%Q).
Proof.
  apply (calculate_spread_sign 1700 (Some 1%Q) 2000 (1500 # 100)).
  vm_compute. reflexivity.
Defined.

Lemma rescan_updates_price_only_witness :
  exists row,
    Main.persisted
      (Main.db (Main.world
                  (snd (Main.process_listing
                          Examples.scan_clock Examples.spot_2000
                          Examples.eagle_relisted
                          (Examples.stocked_state [])))))
      !! "225101" = Some row
    /\ Ebay.title (Main.data row) = "1 oz Gold American Eagle"
    /\ Ebay.weight_oz (Main.data row) = Some 1%Q
    /\ Ebay.price (Main.data row) = 1650%Q
    /\ Main.fetched_at row = Datetime.mk 2024 12 17 15 10 2 0
    /\ Main.spread_percentage row
       = Main.spread_after Examples.spot_2000 Examples.eagle_relisted
                           (Some Examples.eagle_row).
Proof.
  destruct (proj1 (rescan_updates_price_only
                     Examples.scan_clock Examples.spot_2000
                     Examples.eagle_relisted (Examples.stocked_state [])
                     ltac:(intros e H; discriminate H))
                  Examples.eagle_row eq_refl)
    as (row & H1 & H2 & H3 & _ & _ & _ & H7 & H8 & H9).
  exists row. repeat split; assumption.
Defined.

Lemma failed_commit_is_counted_witness :
  Main.process_listing Examples.scan_clock Examples.spot_2000
                       Examples.eagle_relisted
                       (Examples.stocked_state [Some Examples.locked])
  = (Return tt,
     Main.mkState
       (Main.mkWorld (Main.mkSession {["225101" := Examples.eagle_row]}
                                     {["225101" := Examples.eagle_row]})
                     [])
       (Main.mkLocals ["Listing processing error: database is locked"] 1 1)).
Proof.
  exact (failed_commit_is_counted
           Examples.scan_clock Examples.spot_2000 Examples.eagle_relisted
           (Examples.stocked_state [Some Examples.locked])
           Examples.locked [] eq_refl).
Defined.

(** ** The deals endpoint *)

Section Deals.

Import Ebay Main.

Lemma insert_desc_elem (x y : ListingRow) (l : list ListingRow) :
  y ∈ insert_desc x l <-> y = x \/ y ∈ l.
Proof.
  induction l as [|r l IH]; cbn.
  - rewrite list_elem_of_singleton, elem_of_nil. tauto.
  - destruct (Qle_bool _ _).
    + rewrite elem_of_cons. tauto.
    + rewrite !elem_of_cons, IH. tauto.
Qed.

Lemma order_by_elem (y : ListingRow) (l : list ListingRow) :
  y ∈ order_by_spread_desc l <-> y ∈ l.
Proof.
  induction l as [|x l IH]; cbn; [tauto|].
  rewrite insert_desc_elem, elem_of_cons, IH. tauto.
Qed.

Lemma insert_desc_sorted (x : ListingRow) (l : list ListingRow) :
  StronglySorted ranks_before l -> StronglySorted ranks_before (insert_desc x l).
Proof.
  induction l as [|r l IH]; intros Hs; cbn.
  - repeat constructor.
  - apply StronglySorted_inv in Hs. destruct Hs as [Hs Hr].
    destruct (Qle_bool (spread_key r) (spread_key x)) eqn:E.
    + apply Qle_bool_iff in E.
      constructor; [constructor; assumption|].
      constructor; [exact E|].
      rewrite List.Forall_forall in Hr |- *. intros b Hb.
      unfold ranks_before in *. specialize (Hr b Hb). lra.
    + apply Qle_bool_false in E.
      constructor; [apply IH, Hs|].
      rewrite Forall_forall. intros b Hb.
      apply insert_desc_elem in Hb. destruct Hb as [-> | Hb].
      * unfold ranks_before. lra.
      * rewrite Forall_forall in Hr. apply Hr, Hb.
Qed.

Lemma order_by_sorted (l : list ListingRow) :
  StronglySorted ranks_before (order_by_spread_desc l).
Proof.
  induction l as [|x l IH]; cbn; [constructor|].
  apply insert_desc_sorted, IH.
Qed.

Lemma sorted_app (l1 l2 : list ListingRow) :
  StronglySorted ranks_before (l1 ++ l2)%list ->
  StronglySorted ranks_before l1
  /\ forall a b, a ∈ l1 -> b ∈ l2 -> ranks_before a b.
Proof.
  induction l1 as [|x l1 IH]; cbn; intros Hs.
  - split; [constructor|]. intros a b Ha. inversion Ha.
  - apply StronglySorted_inv in Hs. destruct Hs as [Hs Hx].
    destruct (IH Hs) as [IH1 IH2].
    apply Forall_app in Hx. destruct Hx as [Hx1 Hx2].
    split; [constructor; assumption|].
    intros a b Ha Hb. apply elem_of_cons in Ha. destruct Ha as [-> | Ha].
    + rewrite Forall_forall in Hx2. apply Hx2, Hb.
    + apply IH2; assumption.
Qed.

(** The rows the query is left with are the rows that qualify. *)
Lemma query_qualifies (threshold : Q) (metal : option string)
    (min_weight : option Q) (rows : list ListingRow) (row : ListingRow) :
  row ∈ match wanted_weight min_weight with
        | Some w =>
            List.filter (weight_at_least w)
              match wanted_metal metal with
              | Some m =>
                  List.filter
                    (fun row => String.eqb (metal_type (data row)) m)
                    (List.filter
                       (fun row => spread_at_least threshold row
                                   && has_weight row) rows)
              | None =>
                  List.filter
                    (fun row => spread_at_least threshold row
                                && has_weight row) rows
              end
        | None =>
            match wanted_metal metal with
            | Some m =>
                List.filter
                  (fun row => String.eqb (metal_type (data row)) m)
                  (List.filter
                     (fun row => spread_at_least threshold row
                                 && has_weight row) rows)
            | None =>
                List.filter
                  (fun row => spread_at_least threshold row
                              && has_weight row) rows
            end
        end
  <-> row ∈ rows /\ qualifies threshold metal min_weight row.
Proof.
  unfold qualifies.
  assert (Hbase :
            row ∈ List.filter (fun row => spread_at_least threshold row
                                          && has_weight row) rows
            <-> row ∈ rows
                /\ (exists s, spread_percentage row = Some s
                              /\ (threshold <= s)%Q)
                /\ (exists w, weight_oz (data row) = Some w)).
  { rewrite list_elem_of_In, filter_In, <- list_elem_of_In.
    unfold spread_at_least, has_weight.
    destruct (spread_percentage row) as [s|];
      destruct (weight_oz (data row)) as [w|]; cbn.
    - rewrite andb_true_r, Qle_bool_iff. split.
      + intros [H1 H2]. eauto 10.
      + intros (H1 & (s' & Hs' & Hle) & _). inversion Hs'; subst. auto.
    - rewrite andb_false_r. split; [intros [_ H]; discriminate|].
      intros (_ & _ & (w & Hw)). discriminate.
    - split; [intros [_ H]; discriminate|].
      intros (_ & (s & Hs & _) & _). discriminate.
    - split; [intros [_ H]; discriminate|].
      intros (_ & (s & Hs & _) & _). discriminate. }
  assert (Hmetal :
            row ∈ match wanted_metal metal with
                  | Some m =>
                      List.filter
                        (fun row => String.eqb (metal_type (data row)) m)
                        (List.filter
                           (fun row => spread_at_least threshold row
                                       && has_weight row) rows)
                  | None =>
                      List.filter
                        (fun row => spread_at_least threshold row
                                    && has_weight row) rows
                  end
            <-> row ∈ rows
                /\ (exists s, spread_percentage row = Some s
                              /\ (threshold <= s)%Q)
                /\ (exists w, weight_oz (data row) = Some w)
                /\ (forall m, wanted_metal metal = Some m
                              -> metal_type (data row) = m)).
  { destruct (wanted_metal metal) as [m|].
    - rewrite list_elem_of_In, filter_In, <- list_elem_of_In, Hbase.
      rewrite String.eqb_eq. split.
      + intros ((H1 & H2 & H3) & H4). repeat split; auto.
        intros m' Hm'. congruence.
      + intros (H1 & H2 & H3 & H4). repeat split; auto.
    - rewrite Hbase. split.
      + intros (H1 & H2 & H3). repeat split; auto. intros m H; discriminate.
      + intros (H1 & H2 & H3 & _). auto. }
  destruct (wanted_weight min_weight) as [mw|].
  - rewrite list_elem_of_In, filter_In, <- list_elem_of_In, Hmetal.
    unfold weight_at_least. split.
    + intros ((H1 & H2 & (w & Hw) & H4) & H5). rewrite Hw in H5.
      apply Qle_bool_iff in H5.
      split; [exact H1|]. split; [exact H2|]. split; [|exact H4].
      exists w. split; [exact Hw|].
      intros m Hm. injection Hm as <-. exact H5.
    + intros (H1 & H2 & (w & Hw & Hmw) & H4).
      split; [eauto 10|]. rewrite Hw. apply Qle_bool_iff. auto.
  - rewrite Hmetal. split.
    + intros (H1 & H2 & (w & Hw) & H4).
      split; [exact H1|]. split; [exact H2|]. split; [|exact H4].
      exists w. split; [exact Hw|]. intros m H; discriminate.
    + intros (H1 & H2 & (w & Hw & _) & H4). eauto 10.
Qed.

(** X23: The deals endpoint returns at most [max_results] listings, best
    spread first.  Each of them is a stored listing that has a weight
    and a spread at or above the threshold, and is of the metal and the
    minimum weight asked for; a listing whose spread is undefined is
    never among them.  A qualifying listing is left out only when the
    limit is reached, and then by listings with spreads at least as
    good. *)
Theorem get_deals_best_first (threshold : Q) (metal : option string)
    (min_weight : option Q) (max_results : Z) (rows : list ListingRow) :
  1 <= max_results ->
  let deals := get_deals threshold metal min_weight max_results rows in
  (forall row, row ∈ deals ->
               row ∈ rows /\ qualifies threshold metal min_weight row)
  /\ Z.of_nat (length deals) <= max_results
  /\ StronglySorted ranks_before deals
  /\ (forall row,
         row ∈ rows -> qualifies threshold metal min_weight row ->
         row ∉ deals ->
         Z.of_nat (length deals) = max_results
         /\ forall d, d ∈ deals -> (spread_key row <= spread_key d)%Q).
Proof.
  intros Hmax deals. subst deals. unfold get_deals. cbv zeta.
  match goal with
  | |- context [order_by_spread_desc ?q] => set (query := q)
  end.
  assert (Hq : forall row,
             row ∈ query
             <-> row ∈ rows /\ qualifies threshold metal min_weight row).
  { intros row. subst query.
    rewrite <- query_qualifies.
    destruct (wanted_weight min_weight), (wanted_metal metal); reflexivity. }
  set (sorted := order_by_spread_desc query).
  set (n := Z.to_nat max_results).
  pose proof (order_by_sorted query) as Hs. fold sorted in Hs.
  rewrite <- (take_drop n sorted) in Hs.
  apply sorted_app in Hs. destruct Hs as [Hs1 Hs2].
  split; [|split; [|split]].
  - intros row Hrow. apply Hq.
    apply (order_by_elem row query). fold sorted.
    apply (elem_of_take _ _ _) in Hrow.
    destruct Hrow as (i & Hi & _).
    apply list_elem_of_lookup. eauto.
  - rewrite length_take. lia.
  - exact Hs1.
  - intros row Hrow Hqual Hnot.
    assert (Hin : row ∈ sorted).
    { apply order_by_elem, Hq. auto. }
    rewrite <- (take_drop n sorted) in Hin.
    apply elem_of_app in Hin. destruct Hin as [Hin | Hin];
      [contradiction|].
    split.
    + rewrite length_take.
      assert (length (drop n sorted) <> 0)%nat.
      { destruct (drop n sorted); [inversion Hin | discriminate]. }
      rewrite length_drop in H. lia.
    + intros d Hd. apply (Hs2 d row Hd Hin).
Qed.

End Deals.

Lemma get_deals_best_first_witness :
  let deals := Main.get_deals 0 (Some "ALL") None 1 Examples.listings_table in
  deals = [Examples.eagle_row]
  /\ (forall row, row ∈ deals ->
                  row ∈ Examples.listings_table
                  /\ Main.qualifies 0 (Some "ALL") None row)
  /\ (Examples.maple_row ∉ deals ->
      Z.of_nat (length deals) = 1
      /\ forall d, d ∈ deals ->
                   (Main.spread_key Examples.maple_row
                    <= Main.spread_key d)%Q).
Proof.
  destruct (get_deals_best_first 0 (Some "ALL") None 1
                                 Examples.listings_table ltac:(lia))
    as (H1 & _ & _ & H4).
  split; [reflexivity|]. split; [exact H1|].
  apply (H4 Examples.maple_row).
  - apply elem_of_cons. left. reflexivity.
  - unfold Main.qualifies. split; [|split].
    + exists 5%Q. split; [reflexivity | discriminate].
    + exists 1%Q. split; [reflexivity|]. intros m H; discriminate H.
    + intros m H. discriminate H.
Defined.

(** ** The scrape and its quota *)

Section ScrapeProperties.

Import RateLimiter Ebay EbayScraper.

Variable self : BaseScraper.Scraper.
Variable items_of : string -> list Item.
Variable clock_at : nat -> Clock.

Lemma scrape_state_eta (st : EbayScraper.State) :
  EbayScraper.mkState (limiter st) (http st) = st.
Proof. destruct st; reflexivity. Qed.

Lemma scrape_terms_refused (max_results : Z) (tr : RateLimitTracker)
    (terms : list string) :
  forall (i : nat) (all_listings : list Listing) (st : EbayScraper.State),
  working (db (limiter st)) !! "ebay" = Some tr ->
  truthyZ (daily_limit tr) = true ->
  default 0 (daily_limit tr) <= daily_calls_used tr ->
  (forall j, ltb (utcnow (clock_at j)) (reset_at tr) = true) ->
  scrape_terms self items_of clock_at terms i max_results all_listings st
  = (Return all_listings, st).
Proof.
  induction terms as [|term terms IH];
    intros i all_listings st Htr Hlim Hused Hclk; [reflexivity|].
  cbn [scrape_terms].
  unfold bind at 1, try_except, bind at 1, on_limiter at 1.
  rewrite (step_exceeded (clock_at i) "ebay" (limiter st) tr Htr Hlim Hused
                         (Hclk i)).
  unfold ret at 1. rewrite scrape_state_eta, app_nil_r.
  apply IH; assumption.
Qed.

(** X24: With the day's quota used up, a scrape makes no request at all: it
    returns no listings, the network has not been contacted and neither
    the limiter nor the audit table has changed, whatever the search
    terms. *)
Theorem scrape_without_quota (search_terms : option (list string))
    (max_results : Z) (st : EbayScraper.State) (tr : RateLimitTracker) :
  working (db (limiter st)) !! "ebay" = Some tr ->
  truthyZ (daily_limit tr) = true ->
  default 0 (daily_limit tr) <= daily_calls_used tr ->
  (forall i, ltb (utcnow (clock_at i)) (reset_at tr) = true) ->
  scrape self items_of clock_at search_terms max_results st
  = (Return [], st).
Proof.
  intros Htr Hlim Hused Hclk. unfold scrape, bind.
  rewrite (scrape_terms_refused max_results tr) by assumption.
  reflexivity.
Qed.

Lemma scrape_terms_counted (max_results : Z) (terms : list string) :
  forall (i : nat) (all_listings : list Listing) (st : EbayScraper.State)
         (tr : RateLimitTracker),
  working (db (limiter st)) !! "ebay" = Some tr ->
  truthyZ (daily_limit tr) = true ->
  daily_calls_used tr + Z.of_nat (length terms)
  <= default 0 (daily_limit tr) ->
  (forall j, ltb (utcnow (clock_at j)) (reset_at tr) = true) ->
  exists all' st' tr',
    scrape_terms self items_of clock_at terms i max_results all_listings st
    = (Return all', st')
    /\ working (db (limiter st')) !! "ebay" = Some tr'
    /\ daily_limit tr' = daily_limit tr
    /\ reset_at tr' = reset_at tr
    /\ daily_calls_used tr'
       = daily_calls_used tr + Z.of_nat (length terms).
Proof.
  induction terms as [|term terms IH];
    intros i all_listings st tr Htr Hlim Hused Hclk.
  - exists all_listings, st, tr. cbn. rewrite Z.add_0_r. auto.
  - cbn [length] in Hused. cbn [scrape_terms].
    destruct (step_allowed (clock_at i) "ebay" (limiter st) tr Htr Hlim
                           ltac:(lia) (Hclk i))
      as (l1 & Hcall & Hrow).
    unfold bind at 1, try_except, bind at 1, on_limiter at 1.
    rewrite Hcall. unfold on_http at 1. cbn [http limiter].
    destruct (_search_ebay self items_of term max_results (http st))
      as [[listings | e] h1].
    + destruct (IH (S i) (all_listings ++ listings)%list
                   (EbayScraper.mkState l1 h1) _ Hrow Hlim
                   ltac:(cbn; lia) Hclk)
        as (all' & st' & tr' & Hrun & H1 & H2 & H3 & H4).
      exists all', st', tr'. split; [exact Hrun|].
      split; [exact H1|]. split; [exact H2|]. split; [exact H3|].
      rewrite H4. cbn. lia.
    + unfold ret at 1.
      destruct (IH (S i) (all_listings ++ [])%list
                   (EbayScraper.mkState l1 h1) _ Hrow Hlim
                   ltac:(cbn; lia) Hclk)
        as (all' & st' & tr' & Hrun & H1 & H2 & H3 & H4).
      exists all', st', tr'. split; [exact Hrun|].
      split; [exact H1|]. split; [exact H2|]. split; [exact H3|].
      rewrite H4. cbn. lia.
Qed.

(** X25: A scrape never raises, and every search term costs one call of the
    day's quota whether its request succeeds or not: with enough quota
    left, the counter has grown by the number of terms, four for a
    scrape that is given none.  The listings returned carry distinct
    ids. *)
Theorem scrape_spends_quota (search_terms : option (list string))
    (max_results : Z) (st : EbayScraper.State) (tr : RateLimitTracker) :
  let terms := match search_terms with
               | None => DEFAULT_SEARCH_TERMS
               | Some terms => terms
               end in
  working (db (limiter st)) !! "ebay" = Some tr ->
  truthyZ (daily_limit tr) = true ->
  daily_calls_used tr + Z.of_nat (length terms)
  <= default 0 (daily_limit tr) ->
  (forall i, ltb (utcnow (clock_at i)) (reset_at tr) = true) ->
  exists listings st' tr',
    scrape self items_of clock_at search_terms max_results st
    = (Return listings, st')
    /\ working (db (limiter st')) !! "ebay" = Some tr'
    /\ daily_calls_used tr'
       = daily_calls_used tr + Z.of_nat (length terms)
    /\ NoDup (map external_id listings).
Proof.
  intros terms Htr Hlim Hused Hclk.
  destruct (scrape_terms_counted max_results terms 0 [] st tr
                                 Htr Hlim Hused Hclk)
    as (all' & st' & tr' & Hrun & H1 & _ & _ & H4).
  exists (dedup all'), st', tr'.
  unfold scrape, bind. fold terms. rewrite Hrun.
  split; [reflexivity|]. split; [exact H1|]. split; [exact H4|].
  apply dedup_NoDup.
Qed.

End ScrapeProperties.

Lemma scrape_without_quota_witness :
  EbayScraper.scrape Examples.default_scraper Examples.no_items
                     (fun _ => Examples.clock_b) None 100
                     Examples.spent_scrape
  = (Return [], Examples.spent_scrape).
Proof.
  apply (scrape_without_quota
           Examples.default_scraper Examples.no_items
           (fun _ => Examples.clock_b) None 100 Examples.spent_scrape
           Examples.ebay_spent_tracker).
  - reflexivity.
  - reflexivity.
  - discriminate.
  - intros i. reflexivity.
Defined.

Lemma scrape_spends_quota_witness :
  exists listings st' tr',
    EbayScraper.scrape Examples.default_scraper Examples.no_items
                       (fun _ => Examples.clock_a)
                       (Some ["gold eagle"; "silver eagle"]) 100
                       Examples.fresh_scrape
    = (Return listings, st')
    /\ RateLimiter.working (RateLimiter.db (EbayScraper.limiter st'))
         !! "ebay" = Some tr'
    /\ RateLimiter.daily_calls_used tr' = 2
    /\ NoDup (map Ebay.external_id listings).
Proof.
  apply (scrape_spends_quota
           Examples.default_scraper Examples.no_items
           (fun _ => Examples.clock_a)
           (Some ["gold eagle"; "silver eagle"]) 100 Examples.fresh_scrape
           Examples.ebay_tracker).
  - reflexivity.
  - reflexivity.
  - discriminate.
  - intros i. reflexivity.
Defined.

(** ** The scan endpoint and its search terms *)

Section ScanTerms.

Import Schemas ScanEndpoint.

Lemma search_terms_of_filter (v : list MetalType) :
  search_terms_of (List.filter (fun m => negb (is_all m)) v)
  = search_terms_of v.
Proof.
  induction v as [|[| |] v IH]; cbn; congruence.
Qed.

Lemma search_terms_of_elem (v : list MetalType) (t : string) :
  t ∈ search_terms_of v
  <-> (GOLD ∈ v /\ (t = "gold bullion" \/ t = "gold eagle"))
      \/ (SILVER ∈ v /\ (t = "silver bullion" \/ t = "silver eagle")).
Proof.
  induction v as [|m v IH].
  - cbn. rewrite !elem_of_nil. tauto.
  - destruct m; cbn [search_terms_of app];
      rewrite ?elem_of_cons, IH, ?elem_of_cons;
      intuition (subst; auto 6; try discriminate).
Qed.

Lemma search_terms_of_length (v : list MetalType) :
  length (search_terms_of v)
  = (2 * length (List.filter (fun m => negb (is_all m)) v))%nat.
Proof.
  induction v as [|[| |] v IH]; cbn in *; lia.
Qed.

(** X26: The terms searched for a scan request.  A request naming gold or
    silver is searched with the two terms of each metal it names, once
    per time it is named, and with nothing else: [all] next to a metal
    adds nothing.  A request naming [all] alone falls through to the
    scraper's default and is searched for both metals.  An empty list of
    metals is refused. *)
Theorem searched_terms_of_request (v : list MetalType) :
  (v = [] ->
   searched_terms v
   = Raise (ValueError "At least one metal type must be specified"))
  /\ (v <> [] ->
      exists terms,
        searched_terms v = Return terms
        /\ terms <> []
        /\ (GOLD ∈ v \/ SILVER ∈ v ->
            terms = search_terms_of v
            /\ length terms
               = (2 * length (List.filter (fun m => negb (is_all m)) v))%nat
            /\ forall t,
                 t ∈ terms
                 <-> (GOLD ∈ v
                      /\ (t = "gold bullion" \/ t = "gold eagle"))
                     \/ (SILVER ∈ v
                         /\ (t = "silver bullion" \/ t = "silver eagle")))
        /\ (GOLD ∉ v -> SILVER ∉ v ->
            terms = EbayScraper.DEFAULT_SEARCH_TERMS)).
Proof.
  split.
  - intros ->. reflexivity.
  - intros Hne.
    unfold searched_terms, validate_metal_types, scan_search_terms.
    destruct v as [|m v]; [congruence|].
    rewrite search_terms_of_filter.
    set (w := m :: v) in *.
    destruct (search_terms_of w) as [|t ts] eqn:E.
    + exists EbayScraper.DEFAULT_SEARCH_TERMS.
      split; [reflexivity|]. split; [discriminate|]. split; [|auto].
      intros [H | H]; exfalso.
      * assert (Hin : "gold bullion" ∈ search_terms_of w)
          by (apply search_terms_of_elem; auto).
        rewrite E in Hin. inversion Hin.
      * assert (Hin : "silver bullion" ∈ search_terms_of w)
          by (apply search_terms_of_elem; auto).
        rewrite E in Hin. inversion Hin.
    + exists (t :: ts).
      split; [reflexivity|]. split; [discriminate|]. split.
      * intros _. rewrite <- E.
        split; [reflexivity|].
        split; [apply search_terms_of_length|].
        intros t'. apply search_terms_of_elem.
      * intros Hg Hs. exfalso.
        assert (Hin : t ∈ search_terms_of w) by (rewrite E; left).
        apply search_terms_of_elem in Hin. tauto.
Qed.

End ScanTerms.

Lemma searched_terms_of_request_witness :
  exists terms,
    ScanEndpoint.searched_terms [Schemas.GOLD; Schemas.ALL] = Return terms
    /\ terms = ["gold bullion"; "gold eagle"]
    /\ ScanEndpoint.searched_terms [Schemas.ALL]
       = Return EbayScraper.DEFAULT_SEARCH_TERMS.
Proof.
  destruct (proj2 (searched_terms_of_request [Schemas.GOLD; Schemas.ALL])
                  ltac:(discriminate))
    as (terms & H1 & _ & H3 & _).
  exists terms. split; [exact H1|]. split.
  - apply H3. left. left.
  - destruct (proj2 (searched_terms_of_request [Schemas.ALL])
                    ltac:(discriminate))
      as (terms' & H1' & _ & _ & H4').
    rewrite H1'. f_equal. apply H4'.
    + intros H. apply list_elem_of_singleton in H. discriminate H.
    + intros H. apply list_elem_of_singleton in H. discriminate H.
Defined.

(** ** Metals API client *)

Section PriceApiProperties.

Import PriceCache PriceApi.

Variable settings : PriceCache.Settings.
Variable repr_float : Q -> string.

(** X27: The quota comes first and is spent whatever follows: when the
    limiter refuses the call, [_fetch_price] raises what the limiter
    raised and makes no request; when the limiter allows it, the call
    stays counted whether the request succeeds or not, and one request
    is made. *)
Theorem fetch_price_quota_first (clk : RateLimiter.Clock)
    (symbol : string) (env : Env) :
  let checked :=
    RateLimiter.check_and_increment clk "metals-api" (limiter env) in
  let out := _fetch_price repr_float clk symbol env in
  limiter (snd out) = snd checked
  /\ (forall e, fst checked = Raise e ->
                fst out = Raise e /\ network (snd out) = network env)
  /\ (forall b, fst checked = Return b ->
                network (snd out) = drop 1 (network env)).
Proof.
  cbv zeta. unfold _fetch_price, on_limiter.
  cbv beta iota delta [bind get put connection_error raise ret].
  destruct (RateLimiter.check_and_increment clk "metals-api" (limiter env))
    as [[b | e] l1]; cbn [fst snd network limiter].
  - destruct (network env) as [|[r | msg | msg] rest];
      cbn [fst snd network limiter];
      repeat match goal with
             | |- context [if ?c then _ else _] => destruct c
             | |- context [match ?x with Some _ => _ | None => _ end] =>
                 destruct x
             end;
      (split; [reflexivity|]);
      (split; [intros e H; discriminate | intros b0 _; reflexivity]).
  - split; [reflexivity|]. split; [|intros b H; discriminate].
    intros e' H. inversion H; subst. auto.
Qed.

(** X28: Once the limiter has allowed the call, a request that fails is
    raised as an [APIConnectionError] for the metals API with retry
    count 0 and the text of the exception of [requests]: that of the
    timeout or of the failed connection, or, for a response with a
    status from 400 to 599, the text of the [HTTPError] that
    [raise_for_status] raises for it.  The limiter stays as the allowed
    call left it and the request is used up. *)
Theorem fetch_price_result (clk : RateLimiter.Clock) (symbol : string)
    (env : Env) (b : bool) (l1 : RateLimiter.State) (o : Outcome)
    (rest : list Outcome) :
  RateLimiter.check_and_increment clk "metals-api" (limiter env)
  = (Return b, l1) ->
  network env = o :: rest ->
  let failed msg :=
    _fetch_price repr_float clk symbol env
    = (Raise (APIConnectionError "metals-api" msg 0), mkEnv l1 rest) in
  (forall msg, o = TimedOut msg -> failed msg)
  /\ (forall msg, o = ConnectionFailed msg -> failed msg)
  /\ (forall r, o = Responded r ->
                400 <= status_code r < 500 ->
                failed (pretty (status_code r) ++ " Client Error: "
                        ++ reason r ++ " for url: " ++ url r))
  /\ (forall r, o = Responded r ->
                500 <= status_code r < 600 ->
                failed (pretty (status_code r) ++ " Server Error: "
                        ++ reason r ++ " for url: " ++ url r)).
Proof.
  intros Hc Hn. cbv zeta. unfold _fetch_price, on_limiter.
  cbv beta iota delta [bind get put connection_error raise ret].
  rewrite Hc. cbn [fst snd network limiter]. rewrite Hn.
  split; [|split; [|split]].
  - intros msg ->. reflexivity.
  - intros msg ->. reflexivity.
  - intros r -> Hs.
    replace (400 <=? status_code r) with true
      by (symmetry; apply Z.leb_le; lia).
    replace (status_code r <? 500) with true
      by (symmetry; apply Z.ltb_lt; lia).
    reflexivity.
  - intros r -> Hs.
    replace (status_code r <? 500) with false
      by (symmetry; apply Z.ltb_ge; lia).
    rewrite andb_false_r.
    replace (500 <=? status_code r) with true
      by (symmetry; apply Z.leb_le; lia).
    replace (status_code r <? 600) with true
      by (symmetry; apply Z.ltb_lt; lia).
    reflexivity.
Qed.






(** X30: With both cached prices inside their windows, [get_spot_prices]
    returns them and touches nothing: no quota is spent and no request
    is made. *)
Theorem get_spot_prices_from_cache (clks : Clocks)
    (st : @PriceCache.State Env) (g s : SpotPrice) :
  latest_price "gold" (store st) = Some g ->
  latest_price "silver" (store st) = Some s ->
  age_minutes (cache_gold clks) g
  < get_cache_duration_minutes settings (cache_gold clks) ->
  age_minutes (cache_silver clks) s
  < get_cache_duration_minutes settings (cache_silver clks) ->
  get_spot_prices settings repr_float clks st
  = (Return (mkPrices (Some (price_per_oz g)) (Some (price_per_oz s))),
     st).
Proof.
  intros Hg Hs Ag As.
  assert (Hone : forall cclk lclk m symbol row,
             latest_price m (store st) = Some row ->
             age_minutes cclk row < get_cache_duration_minutes settings cclk ->
             price_or_none settings repr_float cclk lclk m symbol st
             = (Return (Some (price_per_oz row)), st)).
  { intros cclk lclk m symbol row Hrow Hage.
    unfold price_or_none, try_except, bind at 1.
    unfold get_or_fetch_price, bind at 1.
    rewrite get_cached_price_reads, Hrow. cbn [valid_cache c_is_stale].
    destruct (age_minutes cclk row >=? _) eqn:E; [lia|]. reflexivity. }
  unfold get_spot_prices, bind.
  rewrite (Hone _ _ _ _ g Hg Ag), (Hone _ _ _ _ s Hs As). reflexivity.
Qed.

End PriceApiProperties.

Lemma get_spot_prices_from_cache_witness :
  PriceApi.get_spot_prices
    Examples.cache_settings Examples.repr_float Examples.api_clocks
    (PriceCache.mkState
       (PriceCache.mkStore
          [Examples.gold_at_1500;
           PriceCache.mkSpotPrice "silver" 30 (Datetime.mk 2024 12 17 15 5 0 0)]
          None Examples.api_env)
       [])
  = (Return (PriceApi.mkPrices (Some 2650%Q) (Some 30%Q)),
     PriceCache.mkState
       (PriceCache.mkStore
          [Examples.gold_at_1500;
           PriceCache.mkSpotPrice "silver" 30 (Datetime.mk 2024 12 17 15 5 0 0)]
          None Examples.api_env)
       []).
Proof.
  apply (get_spot_prices_from_cache
           Examples.cache_settings Examples.repr_float Examples.api_clocks
           _ Examples.gold_at_1500
           (PriceCache.mkSpotPrice "silver" 30
                                   (Datetime.mk 2024 12 17 15 5 0 0)));
    reflexivity.
Defined.

Lemma fetch_price_quota_first_witness :
  let out := PriceApi._fetch_price Examples.repr_float Examples.clock_a "XAU"
                                   Examples.api_env_spent in
  fst out
  = Raise (APIRateLimitError "metals-api" 50 "2025-01-01T00:00:00")
  /\ PriceApi.network (snd out) = PriceApi.network Examples.api_env_spent
  /\ PriceApi.network
       (snd (PriceApi._fetch_price Examples.repr_float Examples.clock_a "XAU"
                                   Examples.api_env))
     = [].
Proof.
  destruct (fetch_price_quota_first
              Examples.repr_float Examples.clock_a "XAU"
              Examples.api_env_spent) as (_ & H & _).
  destruct (H (APIRateLimitError "metals-api" 50 "2025-01-01T00:00:00")
              eq_refl) as [H1 H2].
  split; [exact H1|]. split; [exact H2|].
  destruct (fetch_price_quota_first
              Examples.repr_float Examples.clock_a "XAU" Examples.api_env)
    as (_ & _ & H3).
  apply (H3 true). reflexivity.
Defined.

Lemma fetch_price_result_witness :
  fst (PriceApi._fetch_price Examples.repr_float Examples.clock_a "XAU"
                             Examples.api_env_down)
  = Raise (APIConnectionError
             "metals-api"
             "503 Server Error: Service Unavailable for url: https://metals-api.com/api/latest"
             0).
Proof.
  destruct (RateLimiter.check_and_increment
              Examples.clock_a "metals-api"
              (PriceApi.limiter Examples.api_env_down))
    as [r l1] eqn:Hc.
  assert (Hr : r = Return true) by (vm_compute in Hc; congruence).
  subst r.
  destruct (fetch_price_result
              Examples.repr_float Examples.clock_a "XAU"
              Examples.api_env_down true l1 _ [] Hc eq_refl)
    as (_ & _ & _ & H).
  rewrite (H _ eq_refl); [reflexivity | cbn; lia].
Defined.

